(** * gyee p2p core: routing table, query manager and peer manager

    A shallow embedding of the parts of

      - [p2p/dht/route.go]  (log2 distance, buckets, nearest peers),
      - [p2p/dht/query.go]  (query control blocks, NAT address switch),
      - [p2p/peer/peer.go]  (peer manager counters, duplicate resolution,
                             pingpong heartbeat)

    that the properties below talk about.  Go values are modelled as the
    code has them: [int] is a 64-bit two's complement number carried by [Z],
    byte arrays are lists of [byte], slices are lists with an explicit bounds
    check, Go maps are [gmap]s, run-time panics are a result constructor, and
    messages handed to the scheduler are appended to an outbox. *)

From Stdlib Require Import ZArith Lia List Sorted.
From Stdlib.Strings Require Import Byte.
From stdpp Require Import gmap strings list fin_maps.

Local Open Scope Z_scope.

(** ** Go run-time model *)

Module Go.

(** Reasons for which the Go run time aborts a goroutine. *)
Inductive panic : Type :=
| IndexOutOfRange
| NilDereference
| TypeAssertion
| ExplicitPanic.

(** Outcome of a call that may panic. *)
Inductive result (A : Type) : Type :=
| Ok (a : A)
| Panic (p : panic).
Arguments Ok {A} a.
Arguments Panic {A} p.

Definition bind {A B} (r : result A) (k : A → result B) : result B :=
  match r with
  | Ok a => k a
  | Panic p => Panic p
  end.

Definition is_ok {A} (r : result A) : bool :=
  match r with Ok _ => true | Panic _ => false end.

(** [int] on the 64-bit targets the node is built for. *)
Definition wrap64 (z : Z) : Z := (z + 2 ^ 63) mod 2 ^ 64 - 2 ^ 63.
Definition int_add (x y : Z) : Z := wrap64 (x + y).
Definition int_sub (x y : Z) : Z := wrap64 (x - y).

(** [s[i]] and [s[i] = v] on a slice: the index is checked against [len]. *)
Definition slice_get {A} (s : list A) (i : nat) : result A :=
  match s !! i with
  | Some v => Ok v
  | None => Panic IndexOutOfRange
  end.

Definition slice_set {A} (s : list A) (i : nat) (v : A) : result (list A) :=
  if decide (i < length s)%nat then Ok (<[i:=v]> s) else Panic IndexOutOfRange.

(** Index by a Go [int]: negative indices panic as well. *)
Definition slice_get_int {A} (s : list A) (i : Z) : result A :=
  if decide (0 ≤ i) then slice_get s (Z.to_nat i) else Panic IndexOutOfRange.

(** [for _, x := range xs { s = body x s }] with a body that may panic. *)
Fixpoint for_each {A S} (xs : list A) (body : A → S → result S) (s : S)
  : result S :=
  match xs with
  | [] => Ok s
  | x :: xs' => bind (body x s) (for_each xs' body)
  end.

(** Handlers: they run on the state [S] of their manager, hand effects of
    type [E] (messages, timer calls) to the scheduler, and may panic. *)
Section Handler.

Context {S E : Type}.

Record world : Type := mkWorld {
  mgr : S;
  out : list E;
}.

Definition M (A : Type) : Type := world → result (A * world).

Definition ret {A} (a : A) : M A := fun w => Ok (a, w).
Definition mbind {A B} (c : M A) (k : A → M B) : M B :=
  fun w => match c w with
           | Ok (a, w') => k a w'
           | Panic p => Panic p
           end.
Definition throw {A} (p : panic) : M A := fun _ => Panic p.
Definition getMgr : M S := fun w => Ok (mgr w, w).
Definition putMgr (m : S) : M unit := fun w => Ok (tt, mkWorld m (out w)).
Definition emit (e : E) : M unit :=
  fun w => Ok (tt, mkWorld (mgr w) (out w ++ [e])).
Definition emits (es : list E) : M unit :=
  fun w => Ok (tt, mkWorld (mgr w) (out w ++ es)).
Definition lift {A} (r : result A) : M A :=
  fun w => match r with Ok a => Ok (a, w) | Panic p => Panic p end.

(** [for _, x := range xs] in a handler. *)
Fixpoint forM {A} (xs : list A) (body : A → M unit) : M unit :=
  match xs with
  | [] => ret tt
  | x :: xs' => mbind (body x) (fun _ => forM xs' body)
  end.

(** [c] run on [w] returns, with a value and in a world that satisfy [Q]. *)
Definition runs {A} (c : M A) (w : world) (Q : A → world → Prop) : Prop :=
  ∃ a w', c w = Ok (a, w') ∧ Q a w'.

End Handler.

Arguments world : clear implicits.
Arguments M : clear implicits.

End Go.

Import Go.

Notation "x ← r ; k" := (Go.bind r (fun x => k))
  (at level 20, r at level 100, k at level 200, only parsing).
Notation "x ⇐ c ; k" := (Go.mbind c (fun x => k))
  (at level 20, c at level 100, k at level 200, only parsing).
Notation "c ;; k" := (Go.mbind c (fun _ => k))
  (at level 100, k at level 200, right associativity, only parsing).

(** ** Identities shared by the three files ([p2p/config]) *)

#[global] Instance byte_eq_decision : EqDecision byte := byte_eq_dec.
#[global] Instance byte_countable : Countable byte :=
  inj_countable Byte.to_N Byte.of_N Byte.of_to_N.

Module Config.

(** [type NodeID [64]byte], [type DsKey [32]byte], [type SubNetworkID [2]byte]. *)
Definition NodeID : Type := list byte.
Definition DsKey : Type := list byte.
Definition SubNetworkID : Type := list byte.

(** [net.IP] is a byte slice. *)
Definition IP : Type := list byte.

(** [config.Node]. *)
Record Node : Type := mkNode {
  node_IP  : IP;
  node_UDP : Z;
  node_TCP : Z;
  node_ID  : NodeID;
}.

#[global] Instance Node_eq_decision : EqDecision Node.
Proof. solve_decision. Defined.

End Config.

Import Config.

(** ** What the three files share of the scheduler package *)

Module Sch.

(** Task node pointers; [None] is nil. *)
Definition Task : Type := N.

(** Scheduler error numbers returned by the handlers. *)
Inductive SchErrno : Type :=
| SchEnoNone
| SchEnoParameter
| SchEnoNotFound
| SchEnoMismatched
| SchEnoInternal
| SchEnoResource
| SchEnoUserTask
| SchEnoUnknown.

#[global] Instance SchErrno_eq_decision : EqDecision SchErrno.
Proof. solve_decision. Defined.

End Sch.

Import Sch.

(** ** [p2p/dht/route.go] *)

Module Route.

Definition rutMgrMaxNearest : Z := 32.
Definition rutMgrBucketSize : Z := 32.
Definition HashByteLength : nat := 32.
Definition HashBitLength : Z := Z.of_nat HashByteLength * 8.
(** [time.Second * 60], in nanoseconds. *)
Definition rutMgrMaxLatency : Z := 60 * 1000000000.

(** [type Hash [HashByteLength]byte]. *)
Definition Hash : Type := list byte.

(** Error numbers of the DHT package, as far as these files use them. *)
Inductive DhtErrno : Type :=
| DhtEnoNone
| DhtEnoParameter
| DhtEnoScheduler
| DhtEnoNotFound
| DhtEnoDuplicated
| DhtEnoMismatched
| DhtEnoResource
| DhtEnoRoute
| DhtEnoTimeout
| DhtEnoNatMapping
| DhtEnoUnknown.

#[global] Instance DhtErrno_eq_decision : EqDecision DhtErrno.
Proof. solve_decision. Defined.

(** [rutMgrSetupLog2DistLKT]: [lkt[0] = 8], then for [n] in [0..7] every
    [b] in [[2^n, 2^(n+1))] gets [8 - n - 1]. *)
Definition rutMgrSetupLog2DistLKT (lkt : list Z) : result (list Z) :=
  lkt0 ← slice_set lkt 0 8;
  for_each (seq 0 8)
    (fun n lkt1 =>
       for_each (seq (2 ^ n) (2 ^ n))
         (fun b lkt2 => slice_set lkt2 b (Z.of_nat (8 - n - 1)))
         lkt1)
    lkt0.

(** [distLookupTab: []int{}] in [NewRutMgr]. *)
Definition NewRutMgr_distLookupTab : list Z := [].

(** The table [rutMgrSetupLog2DistLKT] builds in a slice of 256 entries. *)
Definition log2DistLKT : list Z :=
  match rutMgrSetupLog2DistLKT (repeat 0 256) with
  | Ok t => t
  | Panic _ => []
  end.

(** Body of the loop of [rutMgrLog2Dist]: [i] is the index of the head of
    [h2] in the array being ranged over, [d] the running sum. *)
Fixpoint log2dist_loop (tab : list Z) (h1 : Hash) (i : nat) (h2 : list byte)
  (d : Z) : result Z :=
  match h2 with
  | [] => Ok d
  | b :: rest =>
      x ← slice_get h1 i;
      delta ← slice_get tab (N.to_nat (N.lxor (Byte.to_N x) (Byte.to_N b)));
      let d' := int_add d delta in
      if decide (delta ≠ 8) then Ok d' else log2dist_loop tab h1 (S i) rest d'
  end.

(** [rutMgrLog2Dist], with [rutMgr.distLookupTab] passed as [tab]. *)
Definition rutMgrLog2Dist (tab : list Z) (h1 h2 : Hash) : result Z :=
  log2dist_loop tab h1 0 h2 0.


(** [rutMgrPeerMetric]; durations are nanoseconds. *)
Record rutMgrPeerMetric : Type := mkMetric {
  peerId     : NodeID;
  ltnSamples : list Z;
  ewma       : Z;
}.

(** [rutMgrBucketNode]. *)
Record rutMgrBucketNode : Type := mkBucketNode {
  node : Node;
  hash : Hash;
  dist : Z;
}.

(** A bucket is a [*list.List] whose elements hold [*rutMgrBucketNode];
    [None] is the nil pointer. *)
Abbreviation bucket := (option (list rutMgrBucketNode)) (only parsing).

(** [rutMgrRouteTable]. *)
Record rutMgrRouteTable : Type := mkRouteTable {
  shaLocal   : Hash;
  bucketSize : Z;
  bucketTab  : list bucket;
  metricTab  : gmap NodeID rutMgrPeerMetric;
  maxLatency : Z;
}.

Definition set_bucketTab (rt : rutMgrRouteTable) (bt : list bucket)
  : rutMgrRouteTable :=
  {| shaLocal := shaLocal rt; bucketSize := bucketSize rt; bucketTab := bt;
     metricTab := metricTab rt; maxLatency := maxLatency rt |}.

Definition set_metricTab (rt : rutMgrRouteTable)
  (mt : gmap NodeID rutMgrPeerMetric) : rutMgrRouteTable :=
  {| shaLocal := shaLocal rt; bucketSize := bucketSize rt;
     bucketTab := bucketTab rt; metricTab := mt; maxLatency := maxLatency rt |}.

(** [rutMgrMetricSample]; [rutMgrMetricUpdate] is a stub returning
    [DhtEnoNone]. *)
Definition rutMgrMetricSample (rt : rutMgrRouteTable) (id : NodeID)
  (latency : Z) : rutMgrRouteTable :=
  match metricTab rt !! id with
  | Some m =>
      set_metricTab rt
        (<[id := {| peerId := peerId m;
                    ltnSamples := ltnSamples m ++ [latency];
                    ewma := ewma m |}]> (metricTab rt))
  | None =>
      set_metricTab rt
        (<[id := {| peerId := id; ltnSamples := [latency]; ewma := latency |}]>
           (metricTab rt))
  end.

(** [rutMgrMetricGetEWMA]. *)
Definition rutMgrMetricGetEWMA (rt : rutMgrRouteTable) (id : NodeID)
  : DhtErrno * Z :=
  match metricTab rt !! id with
  | Some m => (DhtEnoNone, ewma m)
  | None => (DhtEnoNotFound, -1)
  end.

Section WithHash.

(** [rutMgrNodeId2Hash] is SHA-256 of the identity, taken from
    [crypto/sha256]. *)
Variable rutMgrNodeId2Hash : NodeID → Hash.

(** [rutMgrSetupRouteTable]: [make([]*list.List, 0, HashBitLength + 1)] has
    length zero. *)
Definition rutMgrSetupRouteTable (localNodeId : NodeID) : rutMgrRouteTable :=
  {| shaLocal := rutMgrNodeId2Hash localNodeId;
     bucketSize := rutMgrBucketSize;
     bucketTab := [];
     metricTab := ∅;
     maxLatency := rutMgrMaxLatency |}.

End WithHash.

(** The loop of [find]:
    [for el := li.Front(); el != nil; el.Next() { ... }].
    [el] is the position of the cursor in the list.  The post statement calls
    [el.Next()] and drops its value, so the cursor is the same in the next
    round.  [None] means the loop is still running when the fuel is used
    up. *)
Fixpoint find_loop (fuel : nat) (li : list rutMgrBucketNode) (el : nat)
  (id : NodeID) : option (DhtErrno * option nat) :=
  match fuel with
  | O => None
  | S fuel' =>
      match li !! el with
      | None => Some (DhtEnoNotFound, None)
      | Some v =>
          if decide (node_ID (node v) = id)
          then Some (DhtEnoNone, Some el)
          else find_loop fuel' li el id
      end
  end.

(** [rt.find]: [Some (Panic _)] on a nil bucket, [None] when out of fuel. *)
Definition find (fuel : nat) (rt : rutMgrRouteTable) (id : NodeID) (dist : Z)
  : option (result (DhtErrno * option nat)) :=
  if decide (Z.of_nat (length (bucketTab rt)) ≤ dist)
  then Some (Ok (DhtEnoNotFound, None))
  else
    match slice_get_int (bucketTab rt) dist with
    | Panic p => Some (Panic p)
    | Ok None => Some (Panic NilDereference)
    | Ok (Some li) =>
        match find_loop fuel li 0 id with
        | None => None
        | Some r => Some (Ok r)
        end
    end.

(** [List.MoveToFront] for the element at position [el]. *)
Definition MoveToFront {A} (li : list A) (el : nat) : list A :=
  match li !! el with
  | Some v => v :: delete el li
  | None => li
  end.

(** [rt.split].  The two guards are as in the source.  Past them the loop
    starts with [el.Value.(rutMgrBucketNode)]; the elements were pushed by
    [update] as [*rutMgrBucketNode], so this single-value type assertion
    panics on the first element. *)
Definition split (rt : rutMgrRouteTable) (li : list rutMgrBucketNode)
  (dist : Z) : result (rutMgrRouteTable * DhtErrno) :=
  if decide (Z.of_nat (length (bucketTab rt)) - 1 ≠ dist)
  then Ok (rt, DhtEnoParameter)
  else if decide (length li = 0%nat)
  then Ok (rt, DhtEnoParameter)
  else Panic TypeAssertion.

(** [rt.update]. *)
Definition update (fuel : nat) (rt : rutMgrRouteTable)
  (bn : rutMgrBucketNode) (dist : Z)
  : option (result (rutMgrRouteTable * DhtErrno)) :=
  let tail0 := length (bucketTab rt) in
  let r0 : result (rutMgrRouteTable * nat) :=
    if decide (tail0 = 0%nat)
    then bt ← slice_set (bucketTab rt) 0 (Some []); Ok (set_bucketTab rt bt, tail0)
    else Ok (rt, (tail0 - 1)%nat) in
  match r0 with
  | Panic p => Some (Panic p)
  | Ok (rt1, tail) =>
      match find fuel rt1 (node_ID (node bn)) dist with
      | None => None
      | Some (Panic p) => Some (Panic p)
      | Some (Ok (DhtEnoNone, Some el)) =>
          Some (
            b ← slice_get_int (bucketTab rt1) dist;
            match b with
            | None => Panic NilDereference
            | Some li =>
                bt ← slice_set (bucketTab rt1) (Z.to_nat dist)
                       (Some (MoveToFront li el));
                Ok (set_bucketTab rt1 bt, DhtEnoNone)
            end)
      | Some (Ok _) =>
          let '(eno, ewma) := rutMgrMetricGetEWMA rt1 (node_ID (node bn)) in
          if decide (eno ≠ DhtEnoNone) then Some (Ok (rt1, eno))
          else if decide (maxLatency rt1 < ewma) then Some (Ok (rt1, DhtEnoNone))
          else
            Some (
              b ← slice_get (bucketTab rt1) tail;
              match b with
              | None => Panic NilDereference
              | Some li =>
                  let li' := li ++ [bn] in
                  bt ← slice_set (bucketTab rt1) tail (Some li');
                  let rt2 := set_bucketTab rt1 bt in
                  if decide (bucketSize rt2 < Z.of_nat (length li'))
                  then
                    r ← split rt2 li' (Z.of_nat tail);
                    Ok (fst r, DhtEnoNone)
                  else Ok (rt2, DhtEnoNone)
              end)
      end
  end.

(** [ps[i], ps[pi] = ps[pi], ps[i]]: both reads, then both writes. *)
Definition swap {A} (s : list A) (i j : nat) : result (list A) :=
  x ← slice_get s i;
  y ← slice_get s j;
  s1 ← slice_set s i y;
  slice_set s1 j x.

(** Inner loop of the first phase of [rutMgrSortPeer]: the index [i], whose
    distance is [d], goes before the first listed index with a strictly
    larger distance, and to the back when there is none. *)
Fixpoint insert_index (ds : list Z) (d : Z) (i : nat) (li : list nat)
  : result (list nat) :=
  match li with
  | [] => Ok [i]
  | e :: rest =>
      de ← slice_get ds e;
      if decide (d < de) then Ok (i :: e :: rest)
      else r ← insert_index ds d i rest; Ok (e :: r)
  end.

(** First phase: the list [li] of indices of [ds], ordered by distance. *)
Definition index_order (ds : list Z) : result (list nat) :=
  for_each (zip (seq 0 (length ds)) ds)
    (fun id li => insert_index ds (snd id) (fst id) li) [].

(** Second phase: walk [li] with a counter [i] and swap positions [i] and
    [pi] of both slices, in place. *)
Fixpoint apply_order {A} (li : list nat) (i : nat) (st : list A * list Z)
  : result (list A * list Z) :=
  match li with
  | [] => Ok st
  | pi :: rest =>
      ps' ← swap (fst st) i pi;
      ds' ← swap (snd st) i pi;
      apply_order rest (S i) (ps', ds')
  end.

(** [rutMgrSortPeer]. *)
Definition rutMgrSortPeer {A} (ps : list A) (ds : list Z)
  : result (list A * list Z) :=
  if decide (length ps = 0%nat ∨ length ds = 0%nat) then Ok (ps, ds)
  else li ← index_order ds; apply_order li 0 (ps, ds).

(** The slices [nearest] and [nearestDist] that [rutMgrNearest] grows. *)
Definition nearest_acc : Type := list rutMgrBucketNode * list Z.

(** Loop of the closure [addClosest] over the elements of one bucket. *)
Fixpoint addClosest_loop (tab : list Z) (ht : Hash) (size : Z)
  (els : list rutMgrBucketNode) (st : nearest_acc) (count : Z)
  : result (nearest_acc * Z) :=
  match els with
  | [] => Ok (st, count)
  | peer :: rest =>
      dt ← rutMgrLog2Dist tab ht (hash peer);
      let st' := (fst st ++ [peer], snd st ++ [dt]) in
      let count' := count + 1 in
      if decide (size ≤ count') then Ok (st', count')
      else addClosest_loop tab ht size rest st' count'
  end.

(** The closure [addClosest]: [count] restarts from [len(nearest)]. *)
Definition addClosest (tab : list Z) (ht : Hash) (size : Z) (bk : bucket)
  (st : nearest_acc) : result (nearest_acc * Z) :=
  let count := Z.of_nat (length (fst st)) in
  match bk with
  | None => Ok (st, count)
  | Some els => addClosest_loop tab ht size els st count
  end.

(** The two scanning loops of [rutMgrNearest] over bucket indices [idxs];
    the flag tells whether the loop left through [goto _done]. *)
Fixpoint scan (tab : list Z) (ht : Hash) (size : Z) (bt : list bucket)
  (idxs : list nat) (st : nearest_acc) : result (nearest_acc * bool) :=
  match idxs with
  | [] => Ok (st, false)
  | i :: rest =>
      bk ← slice_get bt i;
      match bk with
      | None => scan tab ht size bt rest st
      | Some _ =>
          r ← addClosest tab ht size bk st;
          if decide (size ≤ snd r) then Ok (fst r, true)
          else scan tab ht size bt rest (fst r)
      end
  end.

Section Nearest.

Variable rutMgrNodeId2Hash : NodeID → Hash.

(** Everything of [rutMgrNearest] before the label [_done], for a valid
    [size]. *)
Definition nearest_collect (tab : list Z) (rt : rutMgrRouteTable) (ht : Hash)
  (dt : Z) (size : Z) : result nearest_acc :=
  let bt := bucketTab rt in
  bk ← slice_get_int bt dt;
  r1 ← match bk with
       | None => Ok (([], []) : nearest_acc, false)
       | Some _ =>
           r ← addClosest tab ht size bk ([], []);
           Ok (fst r, bool_decide (size ≤ snd r))
       end;
  if snd r1 then Ok (fst r1)
  else
    let lo := Z.to_nat (dt + 1) in
    r2 ← scan tab ht size bt (seq lo (length bt - lo)) (fst r1);
    if snd r2 then Ok (fst r2)
    else if decide (dt ≤ 0) then Ok (fst r2)
    else
      r3 ← scan tab ht size bt (rev (seq 0 (Z.to_nat dt))) (fst r2);
      Ok (fst r3).

(** [rutMgrNearest]; the nil slices of the error return are empty lists. *)
Definition rutMgrNearest (tab : list Z) (rt : rutMgrRouteTable)
  (target : NodeID) (size : Z)
  : result (DhtErrno * list rutMgrBucketNode * list Z) :=
  let ht := rutMgrNodeId2Hash target in
  dt ← rutMgrLog2Dist tab (shaLocal rt) ht;
  if decide (size ≤ 0 ∨ size > rutMgrMaxNearest)
  then Ok (DhtEnoParameter, [], [])
  else
    st ← nearest_collect tab rt ht dt size;
    if decide (0 < length (fst st))%nat
    then
      sorted ← rutMgrSortPeer (fst st) (snd st);
      Ok (DhtEnoNone, fst sorted, snd sorted)
    else Ok (DhtEnoNone, fst st, snd st).

End Nearest.

(** The entry the table holds for a byte value: 8 for 0, and else the
    number of zero bits in front of the highest bit set. *)
Definition lkt_entry (b : nat) : Z :=
  if decide (b = 0%nat) then 8 else 7 - Z.log2 (Z.of_nat b).

(** The table while it is filled: entries below [b] are set, the others are
    as in the slice handed in. *)
Definition lkt_filled (lkt : list Z) (b : nat) (t : list Z) : Prop :=
  length t = length lkt
  ∧ (∀ j, (j < b)%nat → t !! j = Some (lkt_entry j))
  ∧ (∀ j, (b ≤ j)%nat → t !! j = lkt !! j).

(** The slices [rutMgrNearest] has grown so far are aligned and hold fewer
    than [size] peers, or at most [size]. *)
Definition nearest_below (size : Z) (st : nearest_acc) : Prop :=
  length (fst st) = length (snd st) ∧ Z.of_nat (length (fst st)) < size.
Definition nearest_upto (size : Z) (st : nearest_acc) : Prop :=
  length (fst st) = length (snd st) ∧ Z.of_nat (length (fst st)) ≤ size.

End Route.

(** ** [p2p/dht/query.go] *)

Module Query.

Import Route.

Definition qryMgrMaxPendings : Z := 64.
Definition qryMgrMaxActInsts : Z := 8.

(** [DhtMessage.MessageType] of the protocol definition. *)
Definition MID_FINDNODE : Z := 1.
Definition MID_PUTVALUE : Z := 3.

(** [QryStatus]. *)
Inductive QryStatus : Type := qsNull | qsPreparing | qsInited.

#[global] Instance QryStatus_eq_decision : EqDecision QryStatus.
Proof. solve_decision. Defined.


(** Reasons given to [qryMgrDelQcb] and [qryMgrDelIcb]. *)
Definition delQcb4TargetFound : Z := 0.
Definition delQcb4NoMoreQueries : Z := 1.
Definition delQcb4Timeout : Z := 2.
Definition delQcb4Command : Z := 3.
Definition delQcb4NoSeeds : Z := 4.
Definition delQcb4TargetInLocal : Z := 5.
Definition delQcb4QryInstDoneInd : Z := 6.
Definition delQcb4QryInstResultInd : Z := 7.
Definition delQcb4InteralErrors : Z := 8.
Definition delQcb4PubAddrSwitch : Z := 9.

(** *** The scheduler and the other packages, as the query manager sees them *)

(** Names of tasks: the registered managers, and the query instances, whose
    name is ["qryMgrIcb_q<seq>_i<icbSeq>"]. *)
Inductive taskName : Type :=
| ConMgrName
| RutMgrName
| IcbName (q i : Z).

(** Events of the scheduler package that the modelled functions send or
    look at. *)
Inductive event : Type :=
| EvSchPoweron
| EvSchPoweroff
| EvDhtQryInstStartReq
| EvDhtQryMgrQueryResultInd
| EvDhtRutMgrStopNotifyReq
| EvDhtRutMgrUpdateReq
| EvDhtQryMgrPubAddrSwitchInd
| EvNatMgrPubAddrUpdateInd
| EvDhtMgrPutValueReq
| EvDhtMgrPutProviderReq
| EvDhtConInstNeighbors
| EvDhtConInstGetProviderRsp
| EvDhtConInstGetValRsp
| EvOther (id : Z).

#[global] Instance event_eq_decision : EqDecision event.
Proof. solve_decision. Defined.

(** [sch.MsgDhtQryMgrQueryResultInd]; [Peers] is a slice of node pointers. *)
Record MsgDhtQryMgrQueryResultInd : Type := mkResultInd {
  ri_Eno     : DhtErrno;
  ri_ForWhat : Z;
  ri_Target  : DsKey;
  ri_Peers   : option (list (option Node));
  ri_Val     : option (list byte);
  ri_Prds    : option (list Node);
}.

(** [sch.MsgNatMgrPubAddrUpdateInd]. *)
Record MsgNatMgrPubAddrUpdateInd : Type := mkPubAddrUpdateInd {
  pa_Status  : Z;
  pa_Proto   : string;
  pa_PubIp   : IP;
  pa_PubPort : Z;
}.

(** Message bodies. *)
Inductive body : Type :=
| BodyNil
| BodyQueryResultInd (ind : MsgDhtQryMgrQueryResultInd)
| BodyStopNotifyReq (task : option Task) (target : DsKey)
| BodyUpdateReq (seens : list Node) (duras : list Z)
| BodyPubAddrUpdateInd (ind : MsgNatMgrPubAddrUpdateInd).

(** [sch.SchMessage], as far as it is filled in here. *)
Record SchMessage : Type := mkSchMessage {
  msg_recver  : option Task;
  msg_TgtName : option taskName;
  msg_Id      : event;
  msg_Body    : body;
}.

(** What a handler asks of the scheduler, in the order of the calls. *)
Inductive effect : Type :=
| SchSendMessage (m : SchMessage)
| SchKillTimer (tid : Z).

(** The part of the environment that answers: the scheduler, the NAT
    package, SHA-256 and the route manager's lookup table. *)
Record Env : Type := mkEnv {
  SchInvalidTid      : Z;
  SchCreateTask      : taskName → SchErrno * option Task;
  SchGetUserTaskNode : taskName → SchErrno * option Task;
  NatIsStatusOk      : Z → bool;
  rutMgrNodeId2Hash  : NodeID → Hash;
  distLookupTab      : list Z;
}.

(** [nat.NATP_TCP]. *)
Definition NATP_TCP : string := "tcp".

(** [strings.ToLower], on the ASCII letters. *)
Definition lower_ascii (c : Ascii.ascii) : Ascii.ascii :=
  let n := Ascii.nat_of_ascii c in
  if decide (65 ≤ n ∧ n ≤ 90)%nat then Ascii.ascii_of_nat (n + 32) else c.

Fixpoint ToLower (s : string) : string :=
  match s with
  | EmptyString => EmptyString
  | String c s' => String (lower_ascii c) (ToLower s')
  end.

(** [net.IP.Equal]: equal byte slices, or an IPv4 address against its
    IPv4-in-IPv6 form. *)
Definition v4InV6Prefix : list byte :=
  [x00; x00; x00; x00; x00; x00; x00; x00; x00; x00; xff; xff].

Definition IP_Equal (ip x : IP) : bool :=
  if decide (length ip = length x) then bool_decide (ip = x)
  else if decide (length ip = 4%nat ∧ length x = 16%nat)
  then bool_decide (take 12 x = v4InV6Prefix) && bool_decide (ip = drop 12 x)
  else if decide (length ip = 16%nat ∧ length x = 4%nat)
  then bool_decide (take 12 ip = v4InV6Prefix) && bool_decide (drop 12 ip = x)
  else false.

(** *** Control blocks *)

(** [qryResultInfo]. *)
Record qryResultInfo : Type := mkQri {
  qri_node : Node;
  qri_pcs  : Z;
  qri_dist : Z;
}.

(** [qryPendingInfo]: an embedded [rutMgrBucketNode] and a depth. *)
Record qryPendingInfo : Type := mkQpi {
  qpi_bn    : rutMgrBucketNode;
  qpi_depth : Z;
}.

(** [qryInstCtrlBlock], without the clock readings and the pointers that
    are nil when the block is made. *)
Record qryInstCtrlBlock : Type := mkIcb {
  icb_seq     : Z;
  icb_name    : taskName;
  icb_ptnInst : option Task;
  icb_target  : DsKey;
  icb_to      : Node;
  icb_depth   : Z;
}.

(** [qryCtrlBlock].  The two lists are [*list.List]: [None] is nil. *)
Record qryCtrlBlock : Type := mkQcb {
  ptnOwner   : option Task;
  seq        : Z;
  forWhat    : Z;
  target     : DsKey;
  status     : QryStatus;
  qryHistory : gmap NodeID qryPendingInfo;
  qryPending : option (list qryPendingInfo);
  qryActived : gmap NodeID qryInstCtrlBlock;
  qryResult  : option (list qryResultInfo);
  qryTid     : Z;
  icbSeq     : Z;
  rutNtfFlag : bool;
  depth      : Z;
}.

Definition set_qryHistory (q : qryCtrlBlock) v : qryCtrlBlock :=
  mkQcb (ptnOwner q) (seq q) (forWhat q) (target q) (status q) v
    (qryPending q) (qryActived q) (qryResult q) (qryTid q) (icbSeq q)
    (rutNtfFlag q) (depth q).
Definition set_qryPending (q : qryCtrlBlock) v : qryCtrlBlock :=
  mkQcb (ptnOwner q) (seq q) (forWhat q) (target q) (status q) (qryHistory q)
    v (qryActived q) (qryResult q) (qryTid q) (icbSeq q)
    (rutNtfFlag q) (depth q).
Definition set_qryActived (q : qryCtrlBlock) v : qryCtrlBlock :=
  mkQcb (ptnOwner q) (seq q) (forWhat q) (target q) (status q) (qryHistory q)
    (qryPending q) v (qryResult q) (qryTid q) (icbSeq q)
    (rutNtfFlag q) (depth q).
Definition set_qryResult (q : qryCtrlBlock) v : qryCtrlBlock :=
  mkQcb (ptnOwner q) (seq q) (forWhat q) (target q) (status q) (qryHistory q)
    (qryPending q) (qryActived q) v (qryTid q) (icbSeq q)
    (rutNtfFlag q) (depth q).
Definition set_qryTid (q : qryCtrlBlock) v : qryCtrlBlock :=
  mkQcb (ptnOwner q) (seq q) (forWhat q) (target q) (status q) (qryHistory q)
    (qryPending q) (qryActived q) (qryResult q) v (icbSeq q)
    (rutNtfFlag q) (depth q).
Definition set_icbSeq (q : qryCtrlBlock) v : qryCtrlBlock :=
  mkQcb (ptnOwner q) (seq q) (forWhat q) (target q) (status q) (qryHistory q)
    (qryPending q) (qryActived q) (qryResult q) (qryTid q) v
    (rutNtfFlag q) (depth q).

(** [QryMgr]; [local] is the node [qmCfg.local] points to, the address the
    node advertises. *)
Record QryMgr : Type := mkQryMgr {
  ptnMe        : option Task;
  ptnRutMgr    : option Task;
  ptnDhtMgr    : option Task;
  qcbTab       : gmap DsKey qryCtrlBlock;
  local        : Node;
  maxPendings  : Z;
  maxActInsts  : Z;
  natTcpResult : bool;
  pubTcpIp     : IP;
  pubTcpPort   : Z;
}.

Definition set_qcbTab (m : QryMgr) v : QryMgr :=
  mkQryMgr (ptnMe m) (ptnRutMgr m) (ptnDhtMgr m) v (local m) (maxPendings m)
    (maxActInsts m) (natTcpResult m) (pubTcpIp m) (pubTcpPort m).
Definition set_local (m : QryMgr) v : QryMgr :=
  mkQryMgr (ptnMe m) (ptnRutMgr m) (ptnDhtMgr m) (qcbTab m) v (maxPendings m)
    (maxActInsts m) (natTcpResult m) (pubTcpIp m) (pubTcpPort m).
Definition set_natTcpResult (m : QryMgr) v : QryMgr :=
  mkQryMgr (ptnMe m) (ptnRutMgr m) (ptnDhtMgr m) (qcbTab m) (local m)
    (maxPendings m) (maxActInsts m) v (pubTcpIp m) (pubTcpPort m).
Definition set_pubTcp (m : QryMgr) (ip : IP) (port : Z) : QryMgr :=
  mkQryMgr (ptnMe m) (ptnRutMgr m) (ptnDhtMgr m) (qcbTab m) (local m)
    (maxPendings m) (maxActInsts m) (natTcpResult m) ip port.

(** Handlers of the query manager. *)
Abbreviation M := (Go.M QryMgr effect).

(** [SchMakeMessage] from the manager and [SchSendMessage]. *)
Definition send (to : option Task) (ev : event) (b : body) : M unit :=
  emit (SchSendMessage (mkSchMessage to None ev b)).

(** The same with [po.TgtName] set. *)
Definition send_named (to : option Task) (name : taskName) (ev : event)
  (b : body) : M unit :=
  emit (SchSendMessage (mkSchMessage to (Some name) ev b)).

(** The block a handler holds a pointer to: the entry of [qcbTab] under the
    key it was fetched with.  The handlers below use it only while the entry
    is in the table. *)
Definition theQcb (k : DsKey) : M qryCtrlBlock :=
  m ⇐ getMgr;
  match qcbTab m !! k with
  | Some qcb => ret qcb
  | None => throw NilDereference
  end.

Definition storeQcb (k : DsKey) (qcb : qryCtrlBlock) : M unit :=
  m ⇐ getMgr;
  putMgr (set_qcbTab m (<[k := qcb]> (qcbTab m))).

(** [List.Len] and [List.Front] dereference the list pointer. *)
Definition list_Len {A} (li : option (list A)) : result Z :=
  match li with
  | Some l => Ok (Z.of_nat (length l))
  | None => Panic NilDereference
  end.

(** [qcbUpdateResult]: before the first entry that is farther, else at the
    back. *)
Fixpoint insert_result (qri : qryResultInfo) (li : list qryResultInfo)
  : list qryResultInfo :=
  match li with
  | [] => [qri]
  | v :: rest =>
      if decide (qri_dist qri < qri_dist v) then qri :: v :: rest
      else v :: insert_result qri rest
  end.

Definition qcbUpdateResult (qcb : qryCtrlBlock) (qri : qryResultInfo)
  : result qryCtrlBlock :=
  match qryResult qcb with
  | None => Panic NilDereference
  | Some li => Ok (set_qryResult qcb (Some (insert_result qri li)))
  end.

(** The result list after [qcbUpdateResult] was called for each of [qris]
    on the list [list.New()] returned. *)
Definition results_of (qris : list qryResultInfo) : list qryResultInfo :=
  foldl (fun li qri => insert_result qri li) [] qris.

(** Inner loop of [qryMgrQcbPutPending] for one node [n]: nothing is put
    when the identity is already pending. *)
Fixpoint put_pending_one (n : qryPendingInfo) (li : list qryPendingInfo)
  : list qryPendingInfo :=
  match li with
  | [] => [n]
  | v :: rest =>
      if decide (node_ID (node (qpi_bn v)) = node_ID (node (qpi_bn n)))
      then v :: rest
      else if decide (dist (qpi_bn n) < dist (qpi_bn v)) then n :: v :: rest
      else v :: put_pending_one n rest
  end.

(** [qryMgrQcbPutPending]. *)
Definition qryMgrQcbPutPending (qcb : qryCtrlBlock)
  (nodes : list qryPendingInfo) (size : Z) : result (qryCtrlBlock * DhtErrno) :=
  if decide (length nodes = 0%nat ∨ size ≤ 0) then Ok (qcb, DhtEnoParameter)
  else
    match qryPending qcb with
    | None => Panic NilDereference
    | Some li =>
        let li' :=
          foldl (fun acc n =>
                   if decide (is_Some (qryHistory qcb !! node_ID (node (qpi_bn n))))
                   then acc else put_pending_one n acc)
                li nodes in
        Ok (set_qryPending qcb (Some (take (Z.to_nat size) li')), DhtEnoNone)
    end.

(** What the loop of [qryMgrQcbPutActived] has done so far. *)
Record activation : Type := mkActivation {
  act_qcb  : qryCtrlBlock;
  act_out  : list effect;
  act_num  : nat;
  act_cnt  : Z;
  act_eno  : DhtErrno;
}.

(** The loop of [qryMgrQcbPutActived] over the pending elements [els];
    [act_num] counts the elements collected in [act]. *)
Fixpoint putActived_loop (env : Env) (maxAct : Z) (els : list qryPendingInfo)
  (a : activation) : activation :=
  match els with
  | [] => a
  | pending :: rest =>
      let qcb := act_qcb a in
      if decide (maxAct ≤ Z.of_nat (size (qryActived qcb))) then a
      else
        let id := node_ID (node (qpi_bn pending)) in
        let num := S (act_num a) in
        if decide (is_Some (qryActived qcb !! id))
        then putActived_loop env maxAct rest
               (mkActivation qcb (act_out a) num (act_cnt a) (act_eno a))
        else
          let name := IcbName (seq qcb) (icbSeq qcb) in
          match SchCreateTask env name with
          | (SchEnoNone, Some ptn) =>
              let icb := {| icb_seq := icbSeq qcb; icb_name := name;
                            icb_ptnInst := Some ptn; icb_target := target qcb;
                            icb_to := node (qpi_bn pending);
                            icb_depth := qpi_depth pending |} in
              let qcb' :=
                set_icbSeq
                  (set_qryHistory
                     (set_qryActived qcb (<[id := icb]> (qryActived qcb)))
                     (<[id := pending]> (qryHistory qcb)))
                  (int_add (icbSeq qcb) 1) in
              putActived_loop env maxAct rest
                (mkActivation qcb'
                   (act_out a ++
                      [SchSendMessage (mkSchMessage (Some ptn) None EvSchPoweron BodyNil);
                       SchSendMessage (mkSchMessage (Some ptn) None EvDhtQryInstStartReq BodyNil)])
                   num (int_add (act_cnt a) 1) (act_eno a))
          | _ => mkActivation qcb (act_out a) num (act_cnt a) DhtEnoScheduler
          end
  end.

(** [qryMgrQcbPutActived] on the block under key [k]. *)
Definition qryMgrQcbPutActived (env : Env) (k : DsKey) : M (DhtErrno * Z) :=
  qcb ⇐ theQcb k;
  m ⇐ getMgr;
  match qryPending qcb with
  | None => ret (DhtEnoNotFound, 0)
  | Some [] => ret (DhtEnoNotFound, 0)
  | Some els =>
      if decide (maxActInsts m ≤ Z.of_nat (size (qryActived qcb)))
      then ret (DhtEnoResource, 0)
      else
        let a := putActived_loop env (maxActInsts m) els
                   (mkActivation qcb [] 0 0 DhtEnoNone) in
        storeQcb k (set_qryPending (act_qcb a) (Some (drop (act_num a) els)));;
        emits (act_out a);;
        ret (act_eno a, act_cnt a)
  end.

(** The copy loop of [qryMgrResultReport]: [idx] is declared before the
    loop and not changed in it. *)
Definition result_peers (li : list qryResultInfo)
  : result (option (list (option Node))) :=
  if decide (0 < length li)%nat then
    st ← for_each li
           (fun v (st : nat * list (option Node)) =>
              p ← slice_set (snd st) (fst st) (Some (qri_node v));
              Ok (fst st, p))
           (0%nat, replicate (length li) None);
    Ok (Some (snd st))
  else Ok None.

(** [qryMgrResultReport]; the parameter [peer] is not used by the source. *)
Definition qryMgrResultReport (qcb : qryCtrlBlock) (eno : DhtErrno)
  (val : option (list byte)) (prd : option (list Node)) : M DhtErrno :=
  n ⇐ lift (list_Len (qryResult qcb));
  peers ⇐ lift (result_peers (default [] (qryResult qcb)));
  send (ptnOwner qcb) EvDhtQryMgrQueryResultInd
    (BodyQueryResultInd
       {| ri_Eno := eno; ri_ForWhat := forWhat qcb; ri_Target := target qcb;
          ri_Peers := peers; ri_Val := val; ri_Prds := prd |});;
  ret DhtEnoNone.

(** [qryMgrDelQcb].  The reason [delQcb4QryInstResultInd] is not among the
    cases of the switch. *)
Definition qryMgrDelQcb (env : Env) (why : Z) (tgt : DsKey) : M DhtErrno :=
  if decide (why ∈ [delQcb4TargetFound; delQcb4NoMoreQueries; delQcb4Timeout;
                    delQcb4NoSeeds; delQcb4TargetInLocal; delQcb4QryInstDoneInd;
                    delQcb4InteralErrors; delQcb4PubAddrSwitch; delQcb4Command])
  then
    m ⇐ getMgr;
    match qcbTab m !! tgt with
    | None => ret DhtEnoNotFound
    | Some qcb =>
        if decide (status qcb ≠ qsInited)
        then putMgr (set_qcbTab m (delete tgt (qcbTab m)));; ret DhtEnoNone
        else
          (if decide (qryTid qcb ≠ SchInvalidTid env)
           then emit (SchKillTimer (qryTid qcb)) else ret tt);;
          forM (map_to_list (qryActived qcb))
            (fun kv => send_named (icb_ptnInst (snd kv)) (icb_name (snd kv))
                         EvSchPoweroff BodyNil);;
          (if rutNtfFlag qcb
           then send (ptnRutMgr m) EvDhtRutMgrStopNotifyReq
                  (BodyStopNotifyReq (ptnMe m) (target qcb))
           else ret tt);;
          putMgr (set_qcbTab m (delete tgt (qcbTab m)));;
          ret DhtEnoNone
    end
  else ret DhtEnoMismatched.

(** [qryMgrDelIcb]. *)
Definition qryMgrDelIcb (env : Env) (why : Z) (tgt : DsKey) (peer : NodeID)
  : M DhtErrno :=
  if decide (why ≠ delQcb4QryInstDoneInd ∧ why ≠ delQcb4QryInstResultInd)
  then ret DhtEnoMismatched
  else
    m ⇐ getMgr;
    match qcbTab m !! tgt with
    | None => ret DhtEnoNotFound
    | Some qcb =>
        match qryActived qcb !! peer with
        | None => ret DhtEnoNotFound
        | Some icb =>
            (if decide (why = delQcb4QryInstResultInd) then
               let r := SchGetUserTaskNode env (icb_name icb) in
               if decide (fst r = SchEnoNone ∧ snd r ≠ None
                          ∧ snd r = icb_ptnInst icb)
               then send_named (icb_ptnInst icb) (icb_name icb)
                      EvSchPoweroff BodyNil
               else ret tt
             else ret tt);;
            storeQcb tgt (set_qryActived qcb (delete peer (qryActived qcb)));;
            ret DhtEnoNone
        end
    end.

(** [switch2NatAddr]. *)
Definition switch2NatAddr (proto : string) : M DhtErrno :=
  if decide (proto = NATP_TCP) then
    m ⇐ getMgr;
    putMgr (set_local m
              (mkNode (pubTcpIp m) (node_UDP (local m))
                 (Z.land (pubTcpPort m) 65535) (node_ID (local m))));;
    ret DhtEnoNone
  else ret DhtEnoParameter.

(** The loop of [natMapSwitch] over the entries of [qcbTab]. *)
Fixpoint natMapSwitch_loop (env : Env) (kvs : list (DsKey * qryCtrlBlock))
  : M DhtErrno :=
  match kvs with
  | [] => ret DhtEnoNone
  | (k, qcb) :: rest =>
      (if decide (ptnOwner qcb ≠ None)
       then send (ptnOwner qcb) EvDhtQryMgrQueryResultInd
              (BodyQueryResultInd
                 {| ri_Eno := DhtEnoNatMapping; ri_ForWhat := forWhat qcb;
                    ri_Target := k; ri_Peers := Some []; ri_Val := Some [];
                    ri_Prds := Some [] |})
       else ret tt);;
      eno ⇐ qryMgrDelQcb env delQcb4PubAddrSwitch k;
      if decide (eno ≠ DhtEnoNone) then ret eno
      else natMapSwitch_loop env rest
  end.

(** [natMapSwitch]. *)
Definition natMapSwitch (env : Env) : M DhtErrno :=
  m ⇐ getMgr;
  eno ⇐ natMapSwitch_loop env (map_to_list (qcbTab m));
  if decide (eno ≠ DhtEnoNone) then ret eno
  else
    switch2NatAddr NATP_TCP;;
    m' ⇐ getMgr;
    send (ptnDhtMgr m') EvDhtQryMgrPubAddrSwitchInd BodyNil;;
    ret DhtEnoNone.

(** [natPubAddrUpdateInd]. *)
Definition natPubAddrUpdateInd (env : Env) (msg : SchMessage) : M SchErrno :=
  let ptrConMgr := snd (SchGetUserTaskNode env ConMgrName) in
  emit (SchSendMessage
          (mkSchMessage ptrConMgr (msg_TgtName msg) (msg_Id msg) (msg_Body msg)));;
  match msg_Body msg with
  | BodyPubAddrUpdateInd ind =>
      let proto := ToLower (pa_Proto ind) in
      if decide (proto ≠ NATP_TCP) then ret SchEnoParameter
      else
        m ⇐ getMgr;
        let oldResult := natTcpResult m in
        let m1 := set_natTcpResult m (NatIsStatusOk env (pa_Status ind)) in
        putMgr m1;;
        if negb (natTcpResult m1) then ret SchEnoNone
        else
          let m2 := set_pubTcp m1 (pa_PubIp ind) (pa_PubPort ind) in
          putMgr m2;;
          if negb oldResult
             || negb (IP_Equal (pa_PubIp ind) (pubTcpIp m2))
             || negb (bool_decide (pa_PubPort ind = pubTcpPort m2))
          then
            eno ⇐ natMapSwitch env;
            if decide (eno ≠ DhtEnoNone) then ret SchEnoUserTask
            else ret SchEnoNone
          else ret SchEnoNone
  | _ => throw TypeAssertion
  end.



















(** Reading an outbox: the receivers of the [QueryResultInd] messages that
    carry the error [eno], and the receivers of the [PubAddrSwitchInd]
    messages. *)
Definition result_ind_to (eno : DhtErrno) (e : effect) : option (option Task) :=
  match e with
  | SchSendMessage (mkSchMessage to _ EvDhtQryMgrQueryResultInd
                      (BodyQueryResultInd ind)) =>
      if decide (ri_Eno ind = eno) then Some to else None
  | _ => None
  end.

Definition result_inds (eno : DhtErrno) (o : list effect) : list (option Task) :=
  omap (result_ind_to eno) o.

Definition switch_ind_to (e : effect) : option (option Task) :=
  match e with
  | SchSendMessage (mkSchMessage to _ EvDhtQryMgrPubAddrSwitchInd _) => Some to
  | _ => None
  end.

Definition switch_inds (o : list effect) : list (option Task) :=
  omap switch_ind_to o.

End Query.

(** ** [p2p/peer/peer.go] *)

Module Peer.

(** [PeMgrErrno]. *)
Inductive PeMgrErrno : Type :=
| PeMgrEnoNone
| PeMgrEnoParameter
| PeMgrEnoScheduler
| PeMgrEnoConfig
| PeMgrEnoResource
| PeMgrEnoOs
| PeMgrEnoMessage
| PeMgrEnoDuplicated
| PeMgrEnoNotfound
| PeMgrEnoMismatched
| PeMgrEnoInternal
| PeMgrEnoPingpongTh
| PeMgrEnoUnknown.

#[global] Instance PeMgrErrno_eq_decision : EqDecision PeMgrErrno.
Proof. solve_decision. Defined.

(** Status of a static node. *)
Definition peerIdle : Z := 0.
Definition peerConnectOutInited : Z := 1.
Definition peerActivated : Z := 2.
Definition peerKilling : Z := 3.

Definition maxIndicationQueueSize : Z := 512.

(** [peerInstState]. *)
Definition peInstStateNull : Z := 0.
Definition peInstStateConnOut : Z := 1.
Definition peInstStateAccepted : Z := 2.
Definition peInstStateConnected : Z := 3.
Definition peInstStateHandshook : Z := 4.
Definition peInstStateActivated : Z := 5.
Definition peInstStateKilling : Z := -1.
Definition peInstStateKilled : Z := -2.

Definition PeInstDirNull : Z := -1.
Definition PeInstDirInbound : Z := 0.
Definition PeInstDirOutbound : Z := 1.
Definition PeInstInPos : Z := 0.
Definition PeInstOutPos : Z := 1.

Definition PeInstMaxPingpongCnt : Z := 8.

(** [config.P2pNetworkTypeDynamic] and [config.P2pNetworkTypeStatic]; the
    field is an [int], other values are possible. *)
Inductive NetworkType : Type :=
| P2pNetworkTypeDynamic
| P2pNetworkTypeStatic
| P2pNetworkTypeOther (n : Z).

#[global] Instance NetworkType_eq_decision : EqDecision NetworkType.
Proof. solve_decision. Defined.

(** [PeerIdEx]: node identity and direction. *)
Definition PeerIdEx : Type := NodeID * Z.

(** Addresses of [peerInstance] objects. *)
Definition InstPtr : Type := N.

(** [peerInstance], without the channels, the timeouts and the socket
    itself: [pi_conn] tells whether [conn] is set. *)
Record peerInstance : Type := mkInst {
  pi_ptnMe  : option Task;
  pi_ptnMgr : option Task;
  pi_state  : Z;
  pi_dir    : Z;
  pi_snid   : SubNetworkID;
  pi_node   : Node;
  pi_conn   : bool;
  pi_ppTid  : Z;
  pi_ppSeq  : Z;
  pi_ppCnt  : Z;
  pi_ppEno  : PeMgrErrno;
}.

Definition set_state (i : peerInstance) v : peerInstance :=
  mkInst (pi_ptnMe i) (pi_ptnMgr i) v (pi_dir i) (pi_snid i) (pi_node i)
    (pi_conn i) (pi_ppTid i) (pi_ppSeq i) (pi_ppCnt i) (pi_ppEno i).
Definition set_ppTid (i : peerInstance) v : peerInstance :=
  mkInst (pi_ptnMe i) (pi_ptnMgr i) (pi_state i) (pi_dir i) (pi_snid i)
    (pi_node i) (pi_conn i) v (pi_ppSeq i) (pi_ppCnt i) (pi_ppEno i).
Definition set_ppCnt (i : peerInstance) v : peerInstance :=
  mkInst (pi_ptnMe i) (pi_ptnMgr i) (pi_state i) (pi_dir i) (pi_snid i)
    (pi_node i) (pi_conn i) (pi_ppTid i) (pi_ppSeq i) v (pi_ppEno i).
Definition set_ppEno (i : peerInstance) v : peerInstance :=
  mkInst (pi_ptnMe i) (pi_ptnMgr i) (pi_state i) (pi_dir i) (pi_snid i)
    (pi_node i) (pi_conn i) (pi_ppTid i) (pi_ppSeq i) (pi_ppCnt i) v.

(** [peMgrConfig], the fields the modelled handlers read. *)
Record peMgrConfig : Type := mkCfg {
  noAccept           : bool;
  networkType        : NetworkType;
  staticMaxPeers     : Z;
  staticMaxOutbounds : Z;
  staticMaxInBounds  : Z;
  staticNodes        : list Node;
  staticSubNetId     : SubNetworkID;
  subNetMaxPeers     : gmap SubNetworkID Z;
  subNetMaxOutbounds : gmap SubNetworkID Z;
  subNetMaxInBounds  : gmap SubNetworkID Z;
  subNetIdList       : list SubNetworkID;
  ibpNumTotal        : Z;
}.

(** Indications queued on [indChan]. *)
Inductive indication : Type :=
| P2pIndPeerActivated (ptn : option Task) (snid : SubNetworkID) (dir : Z)
    (id : NodeID)
| P2pIndPeerClosed (ptn : option Task) (snid : SubNetworkID) (id : NodeID).

(** [PeerManager].  The maps hold pointers to instances; the instances live
    in [insts], and [nextInst] is the address the next [new(peerInstance)]
    returns. *)
Record PeerManager : Type := mkPeMgr {
  cfg           : peMgrConfig;
  ptnMe         : option Task;
  ptnLsn        : option Task;
  ibInstSeq     : Z;
  insts         : gmap InstPtr peerInstance;
  nextInst      : InstPtr;
  peers         : gmap Task InstPtr;
  nodes         : gmap SubNetworkID (gmap PeerIdEx InstPtr);
  workers       : gmap SubNetworkID (gmap PeerIdEx InstPtr);
  wrkNum        : gmap SubNetworkID Z;
  ibpNum        : gmap SubNetworkID Z;
  obpNum        : gmap SubNetworkID Z;
  ibpTotalNum   : Z;
  indChan       : list indication;
  staticsStatus : gmap PeerIdEx Z;
}.

Definition set_ibInstSeq (m : PeerManager) v : PeerManager :=
  mkPeMgr (cfg m) (ptnMe m) (ptnLsn m) v (insts m) (nextInst m) (peers m)
    (nodes m) (workers m) (wrkNum m) (ibpNum m) (obpNum m) (ibpTotalNum m)
    (indChan m) (staticsStatus m).
Definition set_insts (m : PeerManager) v : PeerManager :=
  mkPeMgr (cfg m) (ptnMe m) (ptnLsn m) (ibInstSeq m) v (nextInst m) (peers m)
    (nodes m) (workers m) (wrkNum m) (ibpNum m) (obpNum m) (ibpTotalNum m)
    (indChan m) (staticsStatus m).
Definition set_nextInst (m : PeerManager) v : PeerManager :=
  mkPeMgr (cfg m) (ptnMe m) (ptnLsn m) (ibInstSeq m) (insts m) v (peers m)
    (nodes m) (workers m) (wrkNum m) (ibpNum m) (obpNum m) (ibpTotalNum m)
    (indChan m) (staticsStatus m).
Definition set_peers (m : PeerManager) v : PeerManager :=
  mkPeMgr (cfg m) (ptnMe m) (ptnLsn m) (ibInstSeq m) (insts m) (nextInst m) v
    (nodes m) (workers m) (wrkNum m) (ibpNum m) (obpNum m) (ibpTotalNum m)
    (indChan m) (staticsStatus m).
Definition set_nodes (m : PeerManager) v : PeerManager :=
  mkPeMgr (cfg m) (ptnMe m) (ptnLsn m) (ibInstSeq m) (insts m) (nextInst m)
    (peers m) v (workers m) (wrkNum m) (ibpNum m) (obpNum m) (ibpTotalNum m)
    (indChan m) (staticsStatus m).
Definition set_workers (m : PeerManager) v : PeerManager :=
  mkPeMgr (cfg m) (ptnMe m) (ptnLsn m) (ibInstSeq m) (insts m) (nextInst m)
    (peers m) (nodes m) v (wrkNum m) (ibpNum m) (obpNum m) (ibpTotalNum m)
    (indChan m) (staticsStatus m).
Definition set_wrkNum (m : PeerManager) v : PeerManager :=
  mkPeMgr (cfg m) (ptnMe m) (ptnLsn m) (ibInstSeq m) (insts m) (nextInst m)
    (peers m) (nodes m) (workers m) v (ibpNum m) (obpNum m) (ibpTotalNum m)
    (indChan m) (staticsStatus m).
Definition set_ibpNum (m : PeerManager) v : PeerManager :=
  mkPeMgr (cfg m) (ptnMe m) (ptnLsn m) (ibInstSeq m) (insts m) (nextInst m)
    (peers m) (nodes m) (workers m) (wrkNum m) v (obpNum m) (ibpTotalNum m)
    (indChan m) (staticsStatus m).
Definition set_obpNum (m : PeerManager) v : PeerManager :=
  mkPeMgr (cfg m) (ptnMe m) (ptnLsn m) (ibInstSeq m) (insts m) (nextInst m)
    (peers m) (nodes m) (workers m) (wrkNum m) (ibpNum m) v (ibpTotalNum m)
    (indChan m) (staticsStatus m).
Definition set_ibpTotalNum (m : PeerManager) v : PeerManager :=
  mkPeMgr (cfg m) (ptnMe m) (ptnLsn m) (ibInstSeq m) (insts m) (nextInst m)
    (peers m) (nodes m) (workers m) (wrkNum m) (ibpNum m) (obpNum m) v
    (indChan m) (staticsStatus m).
Definition set_indChan (m : PeerManager) v : PeerManager :=
  mkPeMgr (cfg m) (ptnMe m) (ptnLsn m) (ibInstSeq m) (insts m) (nextInst m)
    (peers m) (nodes m) (workers m) (wrkNum m) (ibpNum m) (obpNum m)
    (ibpTotalNum m) v (staticsStatus m).
Definition set_staticsStatus (m : PeerManager) v : PeerManager :=
  mkPeMgr (cfg m) (ptnMe m) (ptnLsn m) (ibInstSeq m) (insts m) (nextInst m)
    (peers m) (nodes m) (workers m) (wrkNum m) (ibpNum m) (obpNum m)
    (ibpTotalNum m) (indChan m) v.

(** [msgHandshakeRsp]. *)
Record msgHandshakeRsp : Type := mkHandshakeRsp {
  hr_result : PeMgrErrno;
  hr_dir    : Z;
  hr_snid   : SubNetworkID;
  hr_peNode : Node;
  hr_ptn    : option Task;
}.

(** [MsgCloseCfm] and [MsgCloseInd] have the same fields; the first is the
    [result], or the [cause]. *)
Record MsgClose : Type := mkMsgClose {
  mc_result : PeMgrErrno;
  mc_dir    : Z;
  mc_snid   : SubNetworkID;
  mc_peNode : Node;
  mc_ptn    : option Task;
}.

(** Events of the messages received and sent by the modelled code. *)
Inductive event : Type :=
| EvPeLsnConnAcceptedInd
| EvPeHandshakeRsp
| EvPeCloseCfm
| EvPeCloseInd
| EvPeHandshakeReq
| EvPeLsnStopReq
| EvPeLsnStartReq
| EvPeOutboundReq
| EvPeEstablishedInd
| EvPeCloseReq
| EvPePingpongReq
| EvPeOther (id : Z).

#[global] Instance event_eq_decision : EqDecision event.
Proof. solve_decision. Defined.

(** Message bodies; [BodyConnAcceptedInd] stands for the accepted socket
    and its two addresses. *)
Inductive body : Type :=
| BodyNil
| BodyConnAcceptedInd
| BodyHandshakeRsp (rsp : msgHandshakeRsp)
| BodyClose (ind : MsgClose)
| BodySnid (snid : SubNetworkID)
| BodyCloseReq (ptn : option Task) (snid : SubNetworkID) (n : Node) (dir : Z)
    (why : PeMgrErrno)
| BodyPingpongReq (seq : Z).

(** Calls into the scheduler, the socket and the discovery table. *)
Inductive effect : Type :=
| SchSendMessage (sender recver : option Task) (ev : event) (b : body)
| SchKillTimer (ptn : option Task) (tid : Z)
| SchStopTask (ptn : option Task)
| ConnClose (inst : InstPtr)
| TabBucketAddNode (snid : SubNetworkID) (n : Node)
| TabUpdateNode (snid : SubNetworkID) (n : Node)
| SendPong (seq : Z).

(** What the environment answers during one handler run: the scheduler,
    [rand.Int()], the clock and the socket write of a pong. *)
Record Env : Type := mkEnv {
  SchInvalidTid : Z;
  SchCreateTask : Z → SchErrno * option Task;
  randInt       : Z;
  UnixNano      : Z;
  pongResult    : PeMgrErrno;
}.

(** Handlers of the peer manager and of a peer instance. *)
Abbreviation M := (Go.M PeerManager effect).
Abbreviation MI := (Go.M peerInstance effect).

(** [peerInstDefault]. *)
Definition peerInstDefault (env : Env) : peerInstance :=
  {| pi_ptnMe := None; pi_ptnMgr := None; pi_state := peInstStateNull;
     pi_dir := PeInstDirNull; pi_snid := repeat x00 2;
     pi_node := mkNode [] 0 0 (repeat x00 64);
     pi_conn := false; pi_ppTid := SchInvalidTid env; pi_ppSeq := 0;
     pi_ppCnt := 0; pi_ppEno := PeMgrEnoNone |}.

(** *** Go maps of maps and of counters *)

(** [m[snid][idEx]]: a missing inner map reads as empty. *)
Definition lookup2 (m : gmap SubNetworkID (gmap PeerIdEx InstPtr))
  (snid : SubNetworkID) (idEx : PeerIdEx) : option InstPtr :=
  default ∅ (m !! snid) !! idEx.

(** [delete(m[snid], idEx)]: nothing happens on a missing inner map. *)
Definition delete2 (m : gmap SubNetworkID (gmap PeerIdEx InstPtr))
  (snid : SubNetworkID) (idEx : PeerIdEx)
  : gmap SubNetworkID (gmap PeerIdEx InstPtr) :=
  match m !! snid with
  | Some inner => <[snid := delete idEx inner]> m
  | None => m
  end.

(** [m[snid][idEx] = inst]: assignment to an entry of a nil map panics. *)
Definition insert2 (m : gmap SubNetworkID (gmap PeerIdEx InstPtr))
  (snid : SubNetworkID) (idEx : PeerIdEx) (a : InstPtr)
  : result (gmap SubNetworkID (gmap PeerIdEx InstPtr)) :=
  match m !! snid with
  | Some inner => Ok (<[snid := <[idEx := a]> inner]> m)
  | None => Panic NilDereference
  end.

(** [c[snid]], [c[snid]++] and [c[snid]--]. *)
Definition count (c : gmap SubNetworkID Z) (snid : SubNetworkID) : Z :=
  default 0 (c !! snid).
Definition incr (c : gmap SubNetworkID Z) (snid : SubNetworkID)
  : gmap SubNetworkID Z :=
  <[snid := int_add (count c snid) 1]> c.
Definition decr (c : gmap SubNetworkID Z) (snid : SubNetworkID)
  : gmap SubNetworkID Z :=
  <[snid := int_sub (count c snid) 1]> c.

(** The instance a pointer refers to. *)
Definition deref (a : InstPtr) : M peerInstance :=
  m ⇐ getMgr;
  match insts m !! a with
  | Some i => ret i
  | None => throw NilDereference
  end.

Definition store (a : InstPtr) (i : peerInstance) : M unit :=
  m ⇐ getMgr; putMgr (set_insts m (<[a := i]> (insts m))).

(** [SchMakeMessage] from the manager and [SchSendMessage]. *)
Definition send (to : option Task) (ev : event) (b : body) : M unit :=
  m ⇐ getMgr; emit (SchSendMessage (ptnMe m) to ev b).

(** The tables [peMgrPoweron] sets up on the manager [NewPeerMgr] returns,
    for the configuration [c] read from the config package.  [ptn] and [lsn]
    are the task pointers of the manager and of the listener; [anySubNet]
    and [anyMax] stand for [config.AnySubNet] and the caps [config.MaxPeers],
    [config.MaxOutbounds] and [config.MaxInbounds]. *)
Definition peMgrPoweron (c : peMgrConfig) (ptn lsn : option Task)
  (anySubNet : SubNetworkID) (anyMax : Z * Z * Z) : PeerManager :=
  let total := map_fold (fun _ n acc => int_add acc n) (staticMaxInBounds c)
                 (subNetMaxInBounds c) in
  let statics :=
    foldl (fun st (sn : Node) =>
             <[(node_ID sn, PeInstInPos) := peerIdle]>
               (<[(node_ID sn, PeInstOutPos) := peerIdle]> st))
          (∅ : gmap PeerIdEx Z) (staticNodes c) in
  let withAny :=
    bool_decide (length (subNetIdList c) = 0%nat)
    && bool_decide (networkType c = P2pNetworkTypeDynamic) in
  let c1 :=
    mkCfg (noAccept c) (networkType c) (staticMaxPeers c)
      (staticMaxOutbounds c) (staticMaxInBounds c) (staticNodes c)
      (staticSubNetId c)
      (if withAny then <[anySubNet := fst (fst anyMax)]> (subNetMaxPeers c)
       else subNetMaxPeers c)
      (if withAny then <[anySubNet := snd (fst anyMax)]> (subNetMaxOutbounds c)
       else subNetMaxOutbounds c)
      (if withAny then <[anySubNet := snd anyMax]> (subNetMaxInBounds c)
       else subNetMaxInBounds c)
      (if withAny then subNetIdList c ++ [anySubNet] else subNetIdList c)
      total in
  let snids :=
    match networkType c1 with
    | P2pNetworkTypeDynamic =>
        subNetIdList c1 ++
        (if bool_decide (0 < length (staticNodes c1))%nat
         then [staticSubNetId c1] else [])
    | P2pNetworkTypeStatic => [staticSubNetId c1]
    | P2pNetworkTypeOther _ => []
    end in
  let empties := foldl (fun t sn => <[sn := ∅]> t)
                   (∅ : gmap SubNetworkID (gmap PeerIdEx InstPtr)) snids in
  let zeros := foldl (fun t sn => <[sn := 0]> t)
                 (∅ : gmap SubNetworkID Z) snids in
  {| cfg := c1; ptnMe := ptn; ptnLsn := lsn; ibInstSeq := 0; insts := ∅;
     nextInst := 0%N; peers := ∅; nodes := empties; workers := empties;
     wrkNum := zeros; ibpNum := zeros; obpNum := zeros; ibpTotalNum := 0;
     indChan := []; staticsStatus := statics |}.

(** [updateStaticStatus]. *)
Definition updateStaticStatus (snid : SubNetworkID) (idEx : PeerIdEx)
  (st : Z) : M unit :=
  m ⇐ getMgr;
  if decide (snid = staticSubNetId (cfg m)) then
    if decide (is_Some (staticsStatus m !! idEx))
    then putMgr (set_staticsStatus m (<[idEx := st]> (staticsStatus m)))
    else ret tt
  else ret tt.

(** [dynamicSubNetIdExist], [staticSubNetIdExist], [isStaticSubNetId]. *)
Definition dynamicSubNetIdExist (c : peMgrConfig) (snid : SubNetworkID) : bool :=
  bool_decide (networkType c = P2pNetworkTypeDynamic)
  && bool_decide (snid ∈ subNetIdList c).

Definition staticSubNetIdExist (c : peMgrConfig) (snid : SubNetworkID) : bool :=
  match networkType c with
  | P2pNetworkTypeStatic => bool_decide (staticSubNetId c = snid)
  | P2pNetworkTypeDynamic =>
      bool_decide (0 < length (staticNodes c))%nat
      && bool_decide (staticSubNetId c = snid)
  | P2pNetworkTypeOther _ => false
  end.

Definition isStaticSubNetId (c : peMgrConfig) (snid : SubNetworkID) : bool :=
  (bool_decide (networkType c = P2pNetworkTypeStatic) && staticSubNetIdExist c snid)
  || (bool_decide (networkType c = P2pNetworkTypeDynamic) && staticSubNetIdExist c snid).

(** [peMgrIndEnque]. *)
Definition peMgrIndEnque (ind : indication) : M PeMgrErrno :=
  m ⇐ getMgr;
  if decide (maxIndicationQueueSize ≤ Z.of_nat (length (indChan m)))
  then throw ExplicitPanic
  else putMgr (set_indChan m (indChan m ++ [ind]));; ret PeMgrEnoNone.

(** [peMgrKillInst]; the parameter [node] is only logged. *)
Definition peMgrKillInst (env : Env) (ptn : option Task) (dir : Z)
  : M PeMgrErrno :=
  m ⇐ getMgr;
  match ptn ≫= (fun t => peers m !! t) with
  | None => ret PeMgrEnoNotfound
  | Some a =>
      peInst ⇐ deref a;
      if decide (pi_dir peInst ≠ dir) then ret PeMgrEnoParameter
      else
        (if decide (pi_ppTid peInst ≠ SchInvalidTid env)
         then emit (SchKillTimer ptn (pi_ppTid peInst));;
              store a (set_ppTid peInst (SchInvalidTid env))
         else ret tt);;
        (if pi_conn peInst then emit (ConnClose a) else ret tt);;
        let snid := pi_snid peInst in
        let idEx : PeerIdEx := (node_ID (pi_node peInst), pi_dir peInst) in
        m1 ⇐ getMgr;
        (if decide (is_Some (lookup2 (workers m1) snid idEx))
         then putMgr (set_wrkNum (set_workers m1 (delete2 (workers m1) snid idEx))
                        (decr (wrkNum m1) snid))
         else ret tt);;
        m2 ⇐ getMgr;
        (if decide (pi_dir peInst = PeInstDirOutbound) then
           putMgr (set_obpNum
                     (set_peers (set_nodes m2 (delete2 (nodes m2) snid idEx))
                        (from_option (fun t => delete t (peers m2)) (peers m2) ptn))
                     (decr (obpNum m2) snid))
         else if decide (pi_dir peInst = PeInstDirInbound) then
           let m3 := set_peers m2
                       (from_option (fun t => delete t (peers m2)) (peers m2) ptn) in
           let m4 := if decide (is_Some (lookup2 (nodes m3) snid idEx))
                     then set_nodes m3 (delete2 (nodes m3) snid idEx) else m3 in
           let m5 := set_ibpTotalNum m4 (int_sub (ibpTotalNum m4) 1) in
           let m6 := if decide (pi_state peInst = peInstStateActivated
                                ∨ pi_state peInst = peInstStateKilling)
                     then set_ibpNum m5 (decr (ibpNum m5) snid) else m5 in
           putMgr m6
         else ret tt);;
        updateStaticStatus snid idEx peerIdle;;
        m7 ⇐ getMgr;
        (if decide (noAccept (cfg m7) = false
                    ∧ ibpTotalNum m7 < ibpNumTotal (cfg m7))
         then send (ptnLsn m7) EvPeLsnStartReq BodyNil else ret tt);;
        peInst' ⇐ deref a;
        store a (set_state peInst' peInstStateKilled);;
        emit (SchStopTask ptn);;
        ret PeMgrEnoNone
  end.

(** [peMgrLsnConnAcceptedInd]. *)
Definition peMgrLsnConnAcceptedInd (env : Env) : M PeMgrErrno :=
  m ⇐ getMgr;
  let a := nextInst m in
  let seq' := int_add (ibInstSeq m) 1 in
  putMgr (set_nextInst (set_ibInstSeq m seq') (a + 1)%N);;
  match SchCreateTask env seq' with
  | (SchEnoNone, Some ptnInst) =>
      let d := peerInstDefault env in
      store a (mkInst (Some ptnInst) (ptnMe m) peInstStateAccepted
                 PeInstDirInbound (pi_snid d) (pi_node d) true (pi_ppTid d)
                 (pi_ppSeq d) (pi_ppCnt d) (pi_ppEno d));;
      send (Some ptnInst) EvPeHandshakeReq BodyNil;;
      m1 ⇐ getMgr;
      putMgr (set_peers m1 (<[ptnInst := a]> (peers m1)));;
      m2 ⇐ getMgr;
      let total := int_add (ibpTotalNum m2) 1 in
      putMgr (set_ibpTotalNum m2 total);;
      (if decide (ibpNumTotal (cfg m2) ≤ total) then
         if negb (noAccept (cfg m2))
         then send (ptnLsn m2) EvPeLsnStopReq BodyNil else ret tt
       else ret tt);;
      ret PeMgrEnoNone
  | _ => ret PeMgrEnoScheduler
  end.

(** [peerInstState.compare]. *)
Definition compare (pis s : Z) : result Z :=
  if decide (pis < 0) then Panic ExplicitPanic else Ok (int_sub pis s).

(** [instStateCmpKill]: [a] is the instance [inst], [ptn] its task. *)
Definition instStateCmpKill (env : Env) (a : InstPtr) (ptn : option Task)
  (snid : SubNetworkID) (idEx : PeerIdEx) : M PeMgrErrno :=
  m ⇐ getMgr;
  match lookup2 (nodes m) snid idEx with
  | None => ret PeMgrEnoNone
  | Some a2 =>
      inst ⇐ deref a;
      dupInst ⇐ deref a2;
      cmp ⇐ lift (compare (pi_state inst) (pi_state dupInst));
      let killInst :=
        if decide (cmp < 0) then true
        else if decide (0 < cmp) then false
        else bool_decide (Z.land (randInt env) 1 = 0) in
      let ptn2Kill := if killInst then ptn else pi_ptnMe dupInst in
      let obKilled :=
        if killInst then bool_decide (pi_dir inst = PeInstDirOutbound)
        else bool_decide (pi_dir dupInst = PeInstDirOutbound) in
      (if obKilled then peMgrKillInst env ptn2Kill PeInstDirOutbound
       else peMgrKillInst env ptn2Kill PeInstDirInbound);;
      (if obKilled then send (ptnMe m) EvPeOutboundReq (BodySnid snid)
       else ret tt);;
      ret PeMgrEnoDuplicated
  end.

(** The caps [peMgrHandshakeRsp] works with for a sub network:
    [(maxInbound, maxOutbound, maxPeers)]. *)
Definition limits (c : peMgrConfig) (snid : SubNetworkID) : Z * Z * Z :=
  if bool_decide (networkType c = P2pNetworkTypeStatic) && staticSubNetIdExist c snid
  then (staticMaxInBounds c, staticMaxOutbounds c, staticMaxPeers c)
  else if bool_decide (networkType c = P2pNetworkTypeDynamic) then
    if dynamicSubNetIdExist c snid
    then (count (subNetMaxInBounds c) snid, count (subNetMaxOutbounds c) snid,
          count (subNetMaxPeers c) snid)
    else if staticSubNetIdExist c snid
    then (staticMaxInBounds c, staticMaxOutbounds c, staticMaxPeers c)
    else (0, 0, 0)
  else (0, 0, 0).

(** The end of [peMgrHandshakeRsp], once the instance is admitted. *)
Definition handshake_admitted (a : InstPtr) (rsp : msgHandshakeRsp)
  : M PeMgrErrno :=
  let snid := hr_snid rsp in
  send (hr_ptn rsp) EvPeEstablishedInd BodyNil;;
  inst ⇐ deref a;
  store a (set_state inst peInstStateActivated);;
  m ⇐ getMgr;
  putMgr (set_wrkNum m (incr (wrkNum m) snid));;
  (if decide (pi_dir inst = PeInstDirInbound
              ∧ networkType (cfg m) ≠ P2pNetworkTypeStatic)
   then emit (TabBucketAddNode snid (hr_peNode rsp));;
        emit (TabUpdateNode snid (hr_peNode rsp))
   else ret tt);;
  peMgrIndEnque
    (P2pIndPeerActivated (pi_ptnMe inst) (pi_snid inst) (pi_dir inst)
       (node_ID (pi_node inst))).

(** The checks of [peMgrHandshakeRsp] for an inbound instance; [Some e] is
    an early return with [e]. *)
Definition handshake_inbound (env : Env) (a : InstPtr) (rsp : msgHandshakeRsp)
  (maxInbound : Z) : M (option PeMgrErrno) :=
  let snid := hr_snid rsp in
  let idIn : PeerIdEx := (node_ID (hr_peNode rsp), PeInstInPos) in
  m ⇐ getMgr;
  r ⇐ (if isStaticSubNetId (cfg m) snid then
         if decide (is_Some (lookup2 (workers m) snid idIn))
         then peMgrKillInst env (hr_ptn rsp) PeInstDirInbound;;
              ret (Some PeMgrEnoDuplicated)
         else w ⇐ lift (insert2 (workers m) snid idIn a);
              putMgr (set_workers m w);; ret None
       else
         if decide (maxInbound ≤ count (ibpNum m) snid)
         then peMgrKillInst env (hr_ptn rsp) PeInstDirInbound;;
              ret (Some PeMgrEnoResource)
         else if decide (is_Some (lookup2 (workers m) snid idIn))
         then peMgrKillInst env (hr_ptn rsp) PeInstDirInbound;;
              ret (Some PeMgrEnoDuplicated)
         else
           e ⇐ instStateCmpKill env a (hr_ptn rsp) snid
                 (node_ID (hr_peNode rsp), PeInstOutPos);
           if decide (e = PeMgrEnoDuplicated) then ret (Some PeMgrEnoDuplicated)
           else ret None);
  match r with
  | Some e => ret (Some e)
  | None =>
      m1 ⇐ getMgr;
      n ⇐ lift (insert2 (nodes m1) snid idIn a);
      w ⇐ lift (insert2 (workers m1) snid idIn a);
      putMgr (set_ibpNum (set_workers (set_nodes m1 n) w) (incr (ibpNum m1) snid));;
      ret None
  end.

(** The same for an outbound instance. *)
Definition handshake_outbound (env : Env) (a : InstPtr) (rsp : msgHandshakeRsp)
  (maxOutbound : Z) : M (option PeMgrErrno) :=
  let snid := hr_snid rsp in
  let idOut : PeerIdEx := (node_ID (hr_peNode rsp), PeInstOutPos) in
  m ⇐ getMgr;
  r ⇐ (if isStaticSubNetId (cfg m) snid then
         if decide (is_Some (lookup2 (workers m) snid idOut))
         then peMgrKillInst env (hr_ptn rsp) PeInstDirOutbound;;
              ret (Some PeMgrEnoDuplicated)
         else w ⇐ lift (insert2 (workers m) snid idOut a);
              putMgr (set_workers m w);; ret None
       else
         if decide (maxOutbound ≤ count (obpNum m) snid)
         then peMgrKillInst env (hr_ptn rsp) PeInstDirOutbound;;
              ret (Some PeMgrEnoResource)
         else if decide (is_Some (lookup2 (workers m) snid idOut))
         then peMgrKillInst env (hr_ptn rsp) PeInstDirOutbound;;
              ret (Some PeMgrEnoDuplicated)
         else
           e ⇐ instStateCmpKill env a (hr_ptn rsp) snid
                 (node_ID (hr_peNode rsp), PeInstInPos);
           if decide (e = PeMgrEnoDuplicated) then ret (Some PeMgrEnoDuplicated)
           else ret None);
  match r with
  | Some e => ret (Some e)
  | None =>
      m1 ⇐ getMgr;
      w ⇐ lift (insert2 (workers m1) snid idOut a);
      putMgr (set_workers m1 w);;
      updateStaticStatus snid idOut peerActivated;;
      ret None
  end.

(** [peMgrHandshakeRsp]. *)
Definition peMgrHandshakeRsp (env : Env) (rsp : msgHandshakeRsp)
  : M PeMgrErrno :=
  m ⇐ getMgr;
  match hr_ptn rsp ≫= (fun t => peers m !! t) with
  | None => ret PeMgrEnoNotfound
  | Some a =>
      inst ⇐ deref a;
      if decide (pi_snid inst ≠ hr_snid rsp ∨ pi_dir inst ≠ hr_dir rsp)
      then ret PeMgrEnoParameter
      else
        let snid := hr_snid rsp in
        let idEx : PeerIdEx := (node_ID (hr_peNode rsp), hr_dir rsp) in
        if decide (hr_result rsp ≠ PeMgrEnoNone) then
          updateStaticStatus snid idEx peerKilling;;
          peMgrKillInst env (hr_ptn rsp) (pi_dir inst);;
          (if decide (pi_dir inst = PeInstDirOutbound)
           then send (ptnMe m) EvPeOutboundReq (BodySnid (pi_snid inst))
           else ret tt);;
          ret PeMgrEnoNone
        else
          let '(maxInbound, maxOutbound, maxPeers) := limits (cfg m) snid in
          if decide (maxPeers ≤ count (wrkNum m) snid) then
            updateStaticStatus snid idEx peerKilling;;
            peMgrKillInst env (hr_ptn rsp) (pi_dir inst);;
            ret PeMgrEnoResource
          else
            r ⇐ (if decide (pi_dir inst = PeInstDirInbound)
                 then handshake_inbound env a rsp maxInbound
                 else if decide (pi_dir inst = PeInstDirOutbound)
                 then handshake_outbound env a rsp maxOutbound
                 else ret None);
            match r with
            | Some e => ret e
            | None => handshake_admitted a rsp
            end
  end.

(** [peMgrConnCloseCfm] and [peMgrConnCloseInd]: the two bodies are the
    same. *)
Definition peMgrConnClose (env : Env) (ind : MsgClose) : M PeMgrErrno :=
  eno ⇐ peMgrKillInst env (mc_ptn ind) (mc_dir ind);
  if decide (eno ≠ PeMgrEnoNone) then ret PeMgrEnoScheduler
  else
    m ⇐ getMgr;
    peMgrIndEnque (P2pIndPeerClosed (ptnMe m) (mc_snid ind)
                     (node_ID (mc_peNode ind)));;
    send (ptnMe m) EvPeOutboundReq (BodySnid (mc_snid ind));;
    ret PeMgrEnoNone.

(** [peerMgrProc], for the events modelled here; the body of a message is
    converted with a type assertion. *)
Definition peerMgrProc (env : Env) (id : event) (b : body) : M SchErrno :=
  eno ⇐ match id, b with
        | EvPeLsnConnAcceptedInd, BodyConnAcceptedInd =>
            peMgrLsnConnAcceptedInd env
        | EvPeHandshakeRsp, BodyHandshakeRsp rsp => peMgrHandshakeRsp env rsp
        | EvPeCloseCfm, BodyClose ind => peMgrConnClose env ind
        | EvPeCloseInd, BodyClose ind => peMgrConnClose env ind
        | EvPeLsnConnAcceptedInd, _ | EvPeHandshakeRsp, _
        | EvPeCloseCfm, _ | EvPeCloseInd, _ => throw TypeAssertion
        | _, _ => ret PeMgrEnoParameter
        end;
  if decide (eno ≠ PeMgrEnoNone) then ret SchEnoUserTask else ret SchEnoNone.

(** [getWorkerInst]. *)
Definition getWorkerInst (m : PeerManager) (snid : SubNetworkID)
  (idEx : PeerIdEx) : option InstPtr :=
  lookup2 (workers m) snid idEx.

(** [peMgrCloseReq] on a request with the fields [Snid], [Node], [Dir] and
    [Why]: the request goes on to the instance with [Node] and [Ptn] taken
    from the instance. *)
Definition peMgrCloseReq (snid : SubNetworkID) (n : Node) (dir : Z)
  (why : PeMgrErrno) : M PeMgrErrno :=
  m ⇐ getMgr;
  let idEx : PeerIdEx := (node_ID n, dir) in
  match getWorkerInst m snid idEx with
  | None => ret PeMgrEnoNotfound
  | Some a =>
      inst ⇐ deref a;
      if decide (pi_state inst = peInstStateKilling) then ret PeMgrEnoDuplicated
      else
        updateStaticStatus snid idEx peerKilling;;
        send (pi_ptnMe inst) EvPeCloseReq
          (BodyCloseReq (pi_ptnMe inst) snid (pi_node inst) dir why);;
        ret PeMgrEnoNone
  end.

(** [msgPingpongRsp]. *)
Record msgPingpongRsp : Type := mkPingpongRsp {
  pr_result : PeMgrErrno;
  pr_dir    : Z;
  pr_peNode : Node;
  pr_ptn    : option Task;
}.

(** [peMgrPingpongRsp]. *)
Definition peMgrPingpongRsp (env : Env) (rsp : msgPingpongRsp)
  : M PeMgrErrno :=
  if decide (pr_result rsp ≠ PeMgrEnoNone) then
    eno ⇐ peMgrKillInst env (pr_ptn rsp) (pr_dir rsp);
    if decide (eno ≠ PeMgrEnoNone) then ret eno else ret PeMgrEnoNone
  else ret PeMgrEnoNone.

(** States the peer manager gets into by handling messages, from [init]
    on. *)
Inductive reachable (init : PeerManager) : PeerManager → Prop :=
| reach_init : reachable init init
| reach_step (m : PeerManager) (env : Env) (id : event) (b : body)
    (o o' : list effect) (eno : SchErrno) (m' : PeerManager) :
    reachable init m →
    peerMgrProc env id b (mkWorld m o) = Ok (eno, mkWorld m' o') →
    reachable init m'.

(** The sum of the per sub network inbound counters. *)
Definition ibpNumSum (m : PeerManager) : Z :=
  map_fold (fun _ n acc => n + acc) 0 (ibpNum m).

(** *** Peer instance *)

(** [piPingpongTimerHandler]. *)
Definition piPingpongTimerHandler (env : Env) : MI PeMgrErrno :=
  inst ⇐ getMgr;
  let cnt := int_add (pi_ppCnt inst) 1 in
  let inst1 := set_ppCnt inst cnt in
  putMgr inst1;;
  if decide (PeInstMaxPingpongCnt < cnt) then
    putMgr (set_ppEno inst1 PeMgrEnoPingpongTh);;
    emit (SchSendMessage (pi_ptnMe inst1) (pi_ptnMgr inst1) EvPeCloseReq
            (BodyCloseReq (pi_ptnMe inst1) (pi_snid inst1) (pi_node inst1)
               (pi_dir inst1) PeMgrEnoPingpongTh));;
    ret PeMgrEnoPingpongTh
  else
    emit (SchSendMessage (pi_ptnMe inst1) (pi_ptnMe inst1) EvPePingpongReq
            (BodyPingpongReq (UnixNano env)));;
    ret PeMgrEnoNone.

(** [piP2pPingProc]: [upkg.pong] writes the pong to the socket. *)
Definition piP2pPingProc (env : Env) (seq : Z) : MI PeMgrErrno :=
  inst ⇐ getMgr;
  putMgr (set_ppCnt inst 0);;
  emit (SendPong seq);;
  if decide (pongResult env ≠ PeMgrEnoNone) then ret (pongResult env)
  else ret PeMgrEnoNone.

(** [n] expiries of the pingpong timer in a row, with no [Ping] received in
    between; the result lists what each call returned. *)
Fixpoint pingpong_ticks (env : Env) (n : nat) : MI (list PeMgrErrno) :=
  match n with
  | O => ret []
  | S n' =>
      rs ⇐ pingpong_ticks env n';
      r ⇐ piPingpongTimerHandler env;
      ret (rs ++ [r])
  end.

(** The close request of [piPingpongTimerHandler] and its ping request. *)
Definition pingpong_close (inst : peerInstance) : effect :=
  SchSendMessage (pi_ptnMe inst) (pi_ptnMgr inst) EvPeCloseReq
    (BodyCloseReq (pi_ptnMe inst) (pi_snid inst) (pi_node inst) (pi_dir inst)
       PeMgrEnoPingpongTh).

Definition pingpong_req (env : Env) (inst : peerInstance) : effect :=
  SchSendMessage (pi_ptnMe inst) (pi_ptnMe inst) EvPePingpongReq
    (BodyPingpongReq (UnixNano env)).

(** Reading an outbox: receiver and body of the messages with event [ev]. *)
Definition sent_as (ev : event) (e : effect) : option (option Task * body) :=
  match e with
  | SchSendMessage _ to ev' b => if decide (ev' = ev) then Some (to, b) else None
  | _ => None
  end.

Definition sent (ev : event) (o : list effect) : list (option Task * body) :=
  omap (sent_as ev) o.

(** What is followed through [peMgrKillInst] of the instance at [a],
    started in the manager [m] with the outbox [o]: the configuration and
    the task pointers stay; [pe], [nd], [tot] and [ibp] are the current
    [peers], [nodes], [ibpTotalNum] and [ibpNum]; the instance at [a] is
    there and the other
    instances are as in [m]; of the messages sent so far only [starts] are
    start requests to the listener and none is a stop request or an
    outbound request. *)
Record tracks (m : PeerManager) (o : list effect) (a : InstPtr)
  (pe : gmap Task InstPtr) (nd : gmap SubNetworkID (gmap PeerIdEx InstPtr))
  (tot : Z) (ibp : gmap SubNetworkID Z)
  (starts : list (option Task * body)) (w : world PeerManager effect)
  : Prop := mkTracks {
  tr_cfg    : cfg (mgr w) = cfg m;
  tr_ptnMe  : ptnMe (mgr w) = ptnMe m;
  tr_ptnLsn : ptnLsn (mgr w) = ptnLsn m;
  tr_peers  : peers (mgr w) = pe;
  tr_nodes  : nodes (mgr w) = nd;
  tr_total  : ibpTotalNum (mgr w) = tot;
  tr_ibp    : ibpNum (mgr w) = ibp;
  tr_inst   : is_Some (insts (mgr w) !! a);
  tr_others : ∀ b, b ≠ a → insts (mgr w) !! b = insts m !! b;
  tr_out    : ∃ ok, out w = o ++ ok
                    ∧ sent EvPeLsnStartReq ok = starts
                    ∧ sent EvPeLsnStopReq ok = []
                    ∧ sent EvPeOutboundReq ok = [];
}.

(** The counters after [peMgrKillInst] of [inst], and the start requests it
    sends to the listener. *)
Definition killed_total (m : PeerManager) (inst : peerInstance) : Z :=
  if decide (pi_dir inst = PeInstDirInbound)
  then int_sub (ibpTotalNum m) 1 else ibpTotalNum m.

Definition killed_ibpNum (m : PeerManager) (inst : peerInstance)
  : gmap SubNetworkID Z :=
  if decide (pi_dir inst = PeInstDirInbound
             ∧ (pi_state inst = peInstStateActivated
                ∨ pi_state inst = peInstStateKilling))
  then decr (ibpNum m) (pi_snid inst) else ibpNum m.

Definition killed_starts (m : PeerManager) (inst : peerInstance)
  : list (option Task * body) :=
  if decide (noAccept (cfg m) = false
             ∧ killed_total m inst < ibpNumTotal (cfg m))
  then [(ptnLsn m, BodyNil)] else [].

(** The world [peMgrKillInst] leaves when it kills the instance [inst] at
    [a], whose task is [ptn]. *)
Definition killed (m : PeerManager) (o : list effect) (ptn : Task)
  (a : InstPtr) (inst : peerInstance) (w : world PeerManager effect) : Prop :=
  tracks m o a (delete ptn (peers m))
    (delete2 (nodes m) (pi_snid inst) (node_ID (pi_node inst), pi_dir inst))
    (killed_total m inst) (killed_ibpNum m inst) (killed_starts m inst) w
  ∧ (pi_state <$> insts (mgr w) !! a) = Some peInstStateKilled.


(** What else is followed through [peMgrKillInst] of the instance at [a]:
    [wk], [wn], [ob] and [ic] are the current [workers], [wrkNum], [obpNum]
    and [indChan], and the instance at [a] is there. *)
Record tracks_workers (a : InstPtr)
  (wk : gmap SubNetworkID (gmap PeerIdEx InstPtr))
  (wn ob : gmap SubNetworkID Z) (ic : list indication)
  (w : world PeerManager effect) : Prop :=
  mkTracksWorkers {
  tw_workers : workers (mgr w) = wk;
  tw_wrkNum  : wrkNum (mgr w) = wn;
  tw_obpNum  : obpNum (mgr w) = ob;
  tw_indChan : indChan (mgr w) = ic;
  tw_inst    : is_Some (insts (mgr w) !! a);
}.

End Peer.

(** ** Sample data used by the closed statements *)

Module Samples.

Import Route.

(** [b ^ k] on a byte. *)
Definition byte_xor (b : byte) (k : N) : byte :=
  default x00 (Byte.of_N (N.lxor (Byte.to_N b) k)).

Definition idLocal : NodeID := repeat x00 64.
Definition idA : NodeID := repeat x01 64.
Definition idB : NodeID := repeat x02 64.
Definition idC : NodeID := repeat x03 64.

Definition nodeA : Node := mkNode [x0a; x00; x00; x01] 30303 30303 idA.
Definition nodeB : Node := mkNode [x0a; x00; x00; x02] 30303 30303 idB.
Definition nodeC : Node := mkNode [x0a; x00; x00; x03] 30303 30303 idC.

(** A local hash and two peers at log2 distance 0 from it: the first bytes
    differ in the top bit. *)
Definition shaZero : Hash := repeat x00 32.
Definition peerA : rutMgrBucketNode :=
  {| node := nodeA; hash := x80 :: repeat x00 31; dist := 0 |}.
Definition peerB : rutMgrBucketNode :=
  {| node := nodeB; hash := xc0 :: repeat x00 31; dist := 0 |}.

(** One bucket holding [peerA] in front of [peerB]; both have a latency
    sample. *)
Definition rtAB : rutMgrRouteTable :=
  {| shaLocal := shaZero;
     bucketSize := rutMgrBucketSize;
     bucketTab := [Some [peerA; peerB]];
     metricTab := <[idA := mkMetric idA [1000] 1000]>
                    (<[idB := mkMetric idB [1000] 1000]> ∅);
     maxLatency := rutMgrMaxLatency |}.

Definition peerC : rutMgrBucketNode :=
  {| node := nodeC; hash := xe0 :: repeat x00 31; dist := 0 |}.

(** The table [rtAB] with its bucket filled up to [bucketSize]. *)
Definition rtFull : rutMgrRouteTable :=
  set_bucketTab rtAB [Some (replicate 32 peerA)].

(** *** Query manager *)

Import Query.

Definition keyA : DsKey := repeat x0a 32.
Definition keyB : DsKey := repeat x0b 32.

Definition ownerA : Task := 11%N.
Definition ownerB : Task := 12%N.
Definition taskQryMgr : Task := 1%N.
Definition taskRutMgr : Task := 2%N.
Definition taskDhtMgr : Task := 3%N.
Definition taskConMgr : Task := 4%N.

(** A scheduler that creates every task asked for, knows the connection
    manager, and a NAT package for which status 0 is the good one. *)
Definition envQ : Query.Env :=
  {| Query.SchInvalidTid := -1;
     Query.SchCreateTask := fun _ => (SchEnoNone, Some 100%N);
     SchGetUserTaskNode :=
       fun n => match n with
                | ConMgrName => (SchEnoNone, Some taskConMgr)
                | _ => (SchEnoNotFound, None)
                end;
     NatIsStatusOk := fun st => bool_decide (st = 0);
     rutMgrNodeId2Hash := fun _ => shaZero;
     distLookupTab := log2DistLKT |}.

Definition qriA : qryResultInfo := mkQri nodeA 0 3.
Definition qriB : qryResultInfo := mkQri nodeB 0 5.
Definition qriC : qryResultInfo := mkQri nodeC 0 1.

(** A block in state [qsInited] whose queues are empty. *)
Definition qcbOf (owner : Task) (fw : Z) (k : DsKey) : qryCtrlBlock :=
  {| ptnOwner := Some owner; seq := 0; forWhat := fw; target := k;
     status := qsInited; qryHistory := ∅; qryPending := Some [];
     qryActived := ∅;
     qryResult := Some (results_of [qriA; qriB; qriC]);
     qryTid := 7; icbSeq := 1; rutNtfFlag := true; depth := 0 |}.

Definition ipOld : IP := [x01; x01; x01; x01].
Definition ipNew : IP := [x02; x02; x02; x02].

(** A query manager with two queries in flight and a NAT mapping that
    was good so far, advertising 1.1.1.1:100. *)
Definition qmNat : QryMgr :=
  {| Query.ptnMe := Some taskQryMgr; ptnRutMgr := Some taskRutMgr;
     ptnDhtMgr := Some taskDhtMgr;
     qcbTab := <[keyA := qcbOf ownerA MID_FINDNODE keyA]>
                 (<[keyB := qcbOf ownerB MID_PUTVALUE keyB]> ∅);
     local := mkNode ipOld 30303 100 idLocal;
     maxPendings := qryMgrMaxPendings; maxActInsts := qryMgrMaxActInsts;
     natTcpResult := true; pubTcpIp := ipOld; pubTcpPort := 100 |}.

(** The NAT manager reports the new public address 2.2.2.2:200 for TCP
    with a good status. *)
Definition natUpdate : MsgNatMgrPubAddrUpdateInd :=
  {| pa_Status := 0; pa_Proto := "tcp"; pa_PubIp := ipNew; pa_PubPort := 200 |}.

Definition natUpdateMsg : SchMessage :=
  mkSchMessage (Some taskQryMgr) None EvNatMgrPubAddrUpdateInd
    (BodyPubAddrUpdateInd natUpdate).



Definition qmWith (qcb : qryCtrlBlock) : QryMgr :=
  set_qcbTab (set_natTcpResult qmNat true) {[ keyA := qcb ]}.




(** *** Peer manager *)

Definition snidA : SubNetworkID := [x00; x01].
Definition taskPeMgr : Task := 1%N.
Definition taskLsn : Task := 2%N.
Definition taskInA : Task := 11%N.
Definition taskOutA : Task := 12%N.

Definition envP : Peer.Env :=
  {| Peer.SchInvalidTid := -1;
     Peer.SchCreateTask := fun seq => (SchEnoNone, Some (Z.to_N (100 + seq)));
     Peer.randInt := 6;
     Peer.UnixNano := 0;
     Peer.pongResult := Peer.PeMgrEnoNone |}.

(** A dynamic network with one sub network that takes two inbound and two
    outbound peers. *)
Definition cfgA : Peer.peMgrConfig :=
  {| Peer.noAccept := false;
     Peer.networkType := Peer.P2pNetworkTypeDynamic;
     Peer.staticMaxPeers := 0;
     Peer.staticMaxOutbounds := 0;
     Peer.staticMaxInBounds := 0;
     Peer.staticNodes := [];
     Peer.staticSubNetId := [x00; x00];
     Peer.subNetMaxPeers := {[ snidA := 4 ]};
     Peer.subNetMaxOutbounds := {[ snidA := 2 ]};
     Peer.subNetMaxInBounds := {[ snidA := 2 ]};
     Peer.subNetIdList := [snidA];
     Peer.ibpNumTotal := 0 |}.

(** The manager after power on. *)
Definition pmOn : Peer.PeerManager :=
  Peer.peMgrPoweron cfgA (Some taskPeMgr) (Some taskLsn) [xff; xff] (0, 0, 0).

(** An inbound instance of [nodeA] in state [st], and an outbound one. *)
Definition instInA (st : Z) : Peer.peerInstance :=
  {| Peer.pi_ptnMe := Some taskInA; Peer.pi_ptnMgr := Some taskPeMgr;
     Peer.pi_state := st; Peer.pi_dir := Peer.PeInstDirInbound;
     Peer.pi_snid := snidA; Peer.pi_node := nodeA; Peer.pi_conn := true;
     Peer.pi_ppTid := -1; Peer.pi_ppSeq := 0; Peer.pi_ppCnt := 0;
     Peer.pi_ppEno := Peer.PeMgrEnoNone |}.

Definition instOutA (st : Z) : Peer.peerInstance :=
  {| Peer.pi_ptnMe := Some taskOutA; Peer.pi_ptnMgr := Some taskPeMgr;
     Peer.pi_state := st; Peer.pi_dir := Peer.PeInstDirOutbound;
     Peer.pi_snid := snidA; Peer.pi_node := nodeA; Peer.pi_conn := true;
     Peer.pi_ppTid := -1; Peer.pi_ppSeq := 0; Peer.pi_ppCnt := 0;
     Peer.pi_ppEno := Peer.PeMgrEnoNone |}.

(** The manager with an inbound instance of [nodeA] at address 0, not yet
    in [nodes], and an outbound instance of [nodeA] at address 1, which is
    in [nodes]. *)
Definition pmBoth (stIn stOut : Z) : Peer.PeerManager :=
  Peer.set_ibpTotalNum
    (Peer.set_obpNum
       (Peer.set_nodes
          (Peer.set_peers
             (Peer.set_nextInst
                (Peer.set_insts pmOn
                   (<[0%N := instInA stIn]> (<[1%N := instOutA stOut]> ∅)))
                2%N)
             (<[taskInA := 0%N]> (<[taskOutA := 1%N]> ∅)))
          (<[snidA := {[ (idA, Peer.PeInstOutPos) := 1%N ]}]> (Peer.nodes pmOn)))
       (<[snidA := 1]> (Peer.obpNum pmOn)))
    1.

(** The manager [pmBoth 4 1] whose sub network has its four workers. *)
Definition pmFull : Peer.PeerManager :=
  Peer.set_wrkNum (pmBoth 4 1) (<[snidA := 4]> (Peer.wrkNum (pmBoth 4 1))).

(** An environment whose scheduler has no task left. *)
Definition envNoTask : Peer.Env :=
  {| Peer.SchInvalidTid := -1;
     Peer.SchCreateTask := fun _ => (SchEnoResource, None);
     Peer.randInt := 6;
     Peer.UnixNano := 0;
     Peer.pongResult := Peer.PeMgrEnoNone |}.

End Samples.

(** * Properties *)

Import Route.

(** ** Go run-time model *)

Lemma wrap64_small (z : Z) : - 2 ^ 63 ≤ z < 2 ^ 63 → wrap64 z = z.
Proof.
  intros Hz. unfold wrap64.
  rewrite Z.mod_small by lia. lia.
Qed.

Lemma slice_set_length {A} (s s' : list A) i v :
  slice_set s i v = Ok s' → length s' = length s.
Proof.
  unfold slice_set. case_decide; [|discriminate].
  intros [= <-]. apply length_insert.
Qed.

Lemma slice_set_lookup_ne {A} (s s' : list A) i j v :
  slice_set s i v = Ok s' → i ≠ j → s' !! j = s !! j.
Proof.
  unfold slice_set. case_decide; [|discriminate].
  intros [= <-] Hne. by apply list_lookup_insert_ne.
Qed.

Lemma slice_set_lookup_eq {A} (s s' : list A) i v :
  slice_set s i v = Ok s' → s' !! i = Some v.
Proof.
  unfold slice_set. case_decide; [|discriminate].
  intros [= <-]. by apply list_lookup_insert_eq.
Qed.

Lemma slice_get_middle {A} (pre : list A) x post :
  slice_get (pre ++ x :: post) (length pre) = Ok x.
Proof. unfold slice_get. by rewrite list_lookup_middle. Qed.

(** A property kept by every round of a loop holds when the loop is left. *)
Lemma for_each_invariant {A S} (P : S → Prop) (xs : list A)
  (body : A → S → result S) :
  (∀ x s s', x ∈ xs → body x s = Ok s' → P s → P s') →
  ∀ s s', for_each xs body s = Ok s' → P s → P s'.
Proof.
  induction xs as [|x xs IH]; intros Hbody s s' Hrun Hs; simpl in Hrun.
  - by inversion Hrun; subst.
  - destruct (body x s) as [s1|] eqn:Hx; simpl in Hrun; [|discriminate].
    eapply IH; [| exact Hrun |].
    + intros y t t' Hy. apply Hbody. by right.
    + eapply Hbody; [by left | exact Hx | exact Hs].
Qed.

(** Rules for [runs]. *)
Section RunsRules.

Context {S E : Type}.
Implicit Types w : world S E.

Lemma runs_ret {A} (a : A) w (Q : A → world S E → Prop) :
  Q a w → runs (ret a) w Q.
Proof. intros HQ. by exists a, w. Qed.

Lemma runs_bind {A B} (c : M S E A) (k : A → M S E B) w
  (Q : B → world S E → Prop) :
  runs c w (fun a w1 => runs (k a) w1 Q) → runs (mbind c k) w Q.
Proof.
  intros (a & w1 & Hc & b & w2 & Hk & HQ).
  exists b, w2. split; [|exact HQ]. unfold mbind. by rewrite Hc.
Qed.

Lemma runs_conseq {A} (c : M S E A) w (R Q : A → world S E → Prop) :
  runs c w R → (∀ a w1, R a w1 → Q a w1) → runs c w Q.
Proof. intros (a & w1 & Hc & HR) HRQ. exists a, w1. eauto. Qed.

(** Sequencing with a stated intermediate condition. *)
Lemma runs_seq {A B} (R : A → world S E → Prop) (c : M S E A)
  (k : A → M S E B) w (Q : B → world S E → Prop) :
  runs c w R → (∀ a w1, R a w1 → runs (k a) w1 Q) → runs (mbind c k) w Q.
Proof.
  intros Hc Hk. apply runs_bind. eapply runs_conseq; [exact Hc|]. exact Hk.
Qed.

Lemma runs_getMgr w (Q : S → world S E → Prop) :
  Q (mgr w) w → runs getMgr w Q.
Proof. intros HQ. by exists (mgr w), w. Qed.

Lemma runs_putMgr (m : S) w (Q : unit → world S E → Prop) :
  Q tt (mkWorld m (out w)) → runs (putMgr m) w Q.
Proof. intros HQ. by exists tt, (mkWorld m (out w)). Qed.

Lemma runs_emit (e : E) w (Q : unit → world S E → Prop) :
  Q tt (mkWorld (mgr w) (out w ++ [e])) → runs (emit e) w Q.
Proof. intros HQ. by exists tt, (mkWorld (mgr w) (out w ++ [e])). Qed.


End RunsRules.

(** ** Log2 distance *)

Section Log2Dist.

Variable tab : list Z.

(** The loop ranges over one hash and indexes the other: with the part
    already walked put aside, the two roles can be exchanged. *)
Lemma log2dist_loop_swap (xs : list byte) :
  ∀ (ys pre1 pre2 : list byte) (d : Z),
    length xs = length ys →
    length pre1 = length pre2 →
    log2dist_loop tab (pre1 ++ xs) (length pre1) ys d =
    log2dist_loop tab (pre2 ++ ys) (length pre2) xs d.
Proof.
  induction xs as [|x xs IH]; intros [|y ys] pre1 pre2 d Hlen Hpre;
    simpl in Hlen; try discriminate; [reflexivity|].
  simpl. rewrite !slice_get_middle. simpl.
  rewrite (N.lxor_comm (to_N y) (to_N x)).
  destruct (slice_get tab _) as [delta|]; simpl; [|reflexivity].
  case_decide; [reflexivity|].
  replace (S (length pre1)) with (length (pre1 ++ [x]))
    by (rewrite length_app; simpl; lia).
  replace (S (length pre2)) with (length (pre2 ++ [y]))
    by (rewrite length_app; simpl; lia).
  rewrite (cons_middle x pre1 xs), (cons_middle y pre2 ys), !app_assoc.
  apply IH; [lia | rewrite !length_app; simpl; lia].
Qed.

Lemma rutMgrLog2Dist_comm (a b : Hash) :
  length a = length b → rutMgrLog2Dist tab a b = rutMgrLog2Dist tab b a.
Proof.
  intros Hlen. unfold rutMgrLog2Dist.
  apply (log2dist_loop_swap a b [] [] 0); [exact Hlen | reflexivity].
Qed.

(** On equal hashes every byte pair xors to zero, so every round adds
    [tab[0]]. *)
Lemma log2dist_loop_same (xs : list byte) :
  tab !! 0%nat = Some 8 →
  ∀ (pre : list byte) (d : Z),
    0 ≤ d → d + 8 * Z.of_nat (length xs) < 2 ^ 63 →
    log2dist_loop tab (pre ++ xs) (length pre) xs d =
    Ok (d + 8 * Z.of_nat (length xs)).
Proof.
  intros H0. induction xs as [|x xs IH]; intros pre d Hd Hbound; simpl.
  - f_equal. lia.
  - rewrite slice_get_middle. simpl.
    rewrite N.lxor_nilpotent. change (N.to_nat 0) with 0%nat.
    unfold slice_get. rewrite H0. simpl.
    simpl length in Hbound.
    unfold int_add. rewrite wrap64_small by lia.
    replace (S (length pre)) with (length (pre ++ [x]))
      by (rewrite length_app; simpl; lia).
    rewrite (cons_middle x pre xs), app_assoc.
    rewrite IH by lia. f_equal. lia.
Qed.

End Log2Dist.

(** [rutMgrSetupLog2DistLKT] leaves 8 in entry 0: the loops write from
    index 1 on. *)
Lemma rutMgrSetupLog2DistLKT_zero (lkt tab : list Z) :
  rutMgrSetupLog2DistLKT lkt = Ok tab → tab !! 0%nat = Some 8.
Proof.
  unfold rutMgrSetupLog2DistLKT.
  destruct (slice_set lkt 0 8) as [lkt0|] eqn:H0; cbn [bind]; [|discriminate].
  intros Hrun.
  eapply (for_each_invariant (fun t : list Z => t !! 0%nat = Some 8));
    [| exact Hrun | by eapply slice_set_lookup_eq].
  intros n s s' _ Hinner Hs.
  eapply (for_each_invariant (fun t : list Z => t !! 0%nat = Some 8));
    [| exact Hinner | exact Hs].
  intros b t t' Hb Hset Ht.
  rewrite (slice_set_lookup_ne _ _ _ 0%nat _ Hset); [exact Ht|].
  apply elem_of_seq in Hb.
  assert (1 ≤ 2 ^ n)%nat by (clear; induction n; simpl; lia).
  lia.
Qed.

Lemma log2DistLKT_setup :
  rutMgrSetupLog2DistLKT (repeat 0 256) = Ok log2DistLKT.
Proof. vm_compute. reflexivity. Qed.

(** The slice [NewRutMgr] allocates is empty, and on it the set-up stops at
    its first assignment. *)
Lemma rutMgrSetupLog2DistLKT_new :
  rutMgrSetupLog2DistLKT NewRutMgr_distLookupTab = Panic IndexOutOfRange.
Proof. reflexivity. Qed.

(** C7, as amended: for all 32-byte hashes [a] and [b] and the table filled
    by [rutMgrSetupLog2DistLKT], [rutMgrLog2Dist a b = rutMgrLog2Dist b a],
    and on equal hashes the function returns 256, the hash length in bits
    (the larger the value, the closer the two hashes). *)
Theorem rutMgrLog2Dist_sym_and_equal (lkt tab : list Z) (a b : Hash) :
  rutMgrSetupLog2DistLKT lkt = Ok tab →
  length a = HashByteLength →
  length b = HashByteLength →
  rutMgrLog2Dist tab a b = rutMgrLog2Dist tab b a ∧
  rutMgrLog2Dist tab a a = Ok HashBitLength.
Proof.
  intros Hsetup Ha Hb. split.
  - apply rutMgrLog2Dist_comm. congruence.
  - unfold rutMgrLog2Dist.
    pose proof (log2dist_loop_same tab a
                  (rutMgrSetupLog2DistLKT_zero _ _ Hsetup) [] 0) as Hsame.
    rewrite Ha in Hsame. unfold HashByteLength in Hsame.
    apply Hsame; lia.
Qed.

Lemma rutMgrLog2Dist_sym_and_equal_witness :
  rutMgrLog2Dist log2DistLKT (repeat x00 32) (repeat xff 32) =
    rutMgrLog2Dist log2DistLKT (repeat xff 32) (repeat x00 32) ∧
  rutMgrLog2Dist log2DistLKT (repeat x00 32) (repeat x00 32) = Ok HashBitLength.
Proof.
  apply (rutMgrLog2Dist_sym_and_equal (repeat 0 256)).
  - vm_compute. reflexivity.
  - reflexivity.
  - reflexivity.
Defined.

(** C7 as stated fails: on the all-zero hash, compared with itself, the
    function returns 256 and not 0. *)
Lemma rutMgrLog2Dist_equal_not_zero :
  ¬ (∀ (lkt tab : list Z) (a b : Hash),
       rutMgrSetupLog2DistLKT lkt = Ok tab →
       length a = HashByteLength →
       length b = HashByteLength →
       rutMgrLog2Dist tab a b = rutMgrLog2Dist tab b a ∧
       (a = b → rutMgrLog2Dist tab a b = Ok 0)).
Proof.
  intros H.
  destruct (H (repeat 0 256) log2DistLKT (repeat x00 32) (repeat x00 32))
    as [_ Hzero]; [apply log2DistLKT_setup | reflexivity | reflexivity |].
  specialize (Hzero eq_refl). vm_compute in Hzero. discriminate.
Qed.

(** ** Routing table *)

(** C9, on the code: [rutMgrSetupRouteTable] leaves a bucket sequence of
    length zero, and the first [update], whatever the peer, stops in
    [rt.bucketTab[0] = list.New()] with an index out of range. *)
Theorem update_after_setup_panics (h : NodeID → Hash) (localNodeId : NodeID)
  (fuel : nat) (bn : rutMgrBucketNode) (d : Z) :
  length (bucketTab (rutMgrSetupRouteTable h localNodeId)) = 0%nat ∧
  update fuel (rutMgrSetupRouteTable h localNodeId) bn d =
    Some (Panic IndexOutOfRange).
Proof. split; reflexivity. Qed.

(** The cursor of [find] never moves: when the front element is another
    peer the loop runs for ever. *)
Lemma find_loop_stuck (fuel : nat) (li : list rutMgrBucketNode)
  (v : rutMgrBucketNode) (id : NodeID) :
  li !! 0%nat = Some v → node_ID (node v) ≠ id → find_loop fuel li 0 id = None.
Proof.
  intros Hfront Hne. induction fuel as [|fuel IH]; simpl; [reflexivity|].
  rewrite Hfront. by case_decide.
Qed.

(** With the peer at the front the loop ends in its first round. *)
Lemma find_loop_front (fuel : nat) (li : list rutMgrBucketNode)
  (v : rutMgrBucketNode) :
  li !! 0%nat = Some v →
  find_loop (S fuel) li 0 (node_ID (node v)) = Some (DhtEnoNone, Some 0%nat).
Proof. intros Hfront. simpl. rewrite Hfront. by case_decide. Qed.

(** On an empty bucket the loop ends at once. *)
Lemma find_loop_empty (fuel : nat) (id : NodeID) :
  find_loop (S fuel) [] 0 id = Some (DhtEnoNotFound, None).
Proof. reflexivity. Qed.

(** [update] on a peer that sits in bucket [d] behind another peer: the
    result is not there after any number of rounds of the lookup. *)
Lemma update_lookup_diverges (fuel : nat) (rt : rutMgrRouteTable)
  (bn v : rutMgrBucketNode) (d : Z) (li : list rutMgrBucketNode) :
  0 ≤ d →
  bucketTab rt !! Z.to_nat d = Some (Some li) →
  li !! 0%nat = Some v →
  node_ID (node v) ≠ node_ID (node bn) →
  update fuel rt bn d = None.
Proof.
  intros Hd Hbk Hfront Hne.
  pose proof (lookup_lt_Some _ _ _ Hbk) as Hlt.
  unfold update. cbv zeta. case_decide as Hlen; [lia|].
  unfold find. case_decide as Hge; [lia|].
  unfold slice_get_int. case_decide; [|lia].
  unfold slice_get. rewrite Hbk.
  by rewrite (find_loop_stuck fuel li v).
Qed.

(** [update] on the peer at the front of bucket [d]: the lookup ends, the
    entry is moved to the front, where it already is, and nothing else
    changes. *)
Lemma update_front_unchanged (fuel : nat) (rt : rutMgrRouteTable)
  (bn v : rutMgrBucketNode) (d : Z) (li : list rutMgrBucketNode) :
  0 ≤ d →
  bucketTab rt !! Z.to_nat d = Some (Some li) →
  li !! 0%nat = Some v →
  node_ID (node v) = node_ID (node bn) →
  update (S fuel) rt bn d = Some (Ok (set_bucketTab rt (bucketTab rt), DhtEnoNone)).
Proof.
  intros Hd Hbk Hfront Heq.
  pose proof (lookup_lt_Some _ _ _ Hbk) as Hlt.
  unfold update. cbv zeta. case_decide as Hlen; [lia|].
  unfold find. case_decide as Hge; [lia|].
  unfold slice_get_int. case_decide; [|lia].
  unfold slice_get. rewrite Hbk. rewrite <- Heq.
  rewrite (find_loop_front fuel li v Hfront).
  cbn [bind]. unfold slice_set. case_decide; [|lia].
  cbn [bind]. do 4 f_equal.
  apply list_insert_id. rewrite Hbk. f_equal.
  unfold MoveToFront. rewrite Hfront.
  destruct li as [|w li']; [discriminate|]. simpl in Hfront.
  by inversion Hfront.
Qed.

Lemma update_front_unchanged_witness :
  update 1 Samples.rtAB Samples.peerA 0 =
    Some (Ok (set_bucketTab Samples.rtAB (bucketTab Samples.rtAB), DhtEnoNone)).
Proof.
  apply (update_front_unchanged 0 Samples.rtAB Samples.peerA Samples.peerA 0
           [Samples.peerA; Samples.peerB]).
  - lia.
  - reflexivity.
  - reflexivity.
  - reflexivity.
Defined.

(** C8, on the code: [Samples.peerB] is in bucket 0 of [Samples.rtAB],
    behind [Samples.peerA]; the lookup that [update] starts for it is still
    running after any number of rounds. *)
Theorem update_present_not_front_diverges (fuel : nat) :
  update fuel Samples.rtAB Samples.peerB 0 = None.
Proof.
  apply (update_lookup_diverges fuel Samples.rtAB Samples.peerB Samples.peerA 0
           [Samples.peerA; Samples.peerB]).
  - lia.
  - reflexivity.
  - reflexivity.
  - discriminate.
Qed.

(** ** Nearest peers *)

(** When the first bytes already differ, [rutMgrLog2Dist] is the table entry
    of their xor. *)
Lemma rutMgrLog2Dist_first_byte (tab : list Z) (x y : byte) (t t' : list byte)
  (delta : Z) :
  tab !! N.to_nat (N.lxor (Byte.to_N x) (Byte.to_N y)) = Some delta →
  delta ≠ 8 →
  rutMgrLog2Dist tab (x :: t) (y :: t') = Ok (int_add 0 delta).
Proof.
  intros Htab Hne. unfold rutMgrLog2Dist. simpl.
  unfold slice_get. simpl. rewrite Htab. simpl. by case_decide.
Qed.

Lemma byte_xor_lxor_l (b : byte) (k : N) :
  (k < 256)%N →
  N.lxor (Byte.to_N (Samples.byte_xor b k)) (Byte.to_N b) = k.
Proof.
  intros Hk. unfold Samples.byte_xor.
  assert (∀ n : N, (n < 256)%N → n = 0%N ∨ (N.log2 n < 8)%N) as Hlog.
  { intros n Hn. destruct (N.eq_dec n 0%N) as [->|Hnz]; [by left|right].
    apply N.log2_lt_pow2; lia. }
  assert (N.lxor (Byte.to_N b) k < 256)%N as Hlt.
  { pose proof (Byte.to_N_bounded b) as Hb.
    destruct (N.eq_dec (N.lxor (Byte.to_N b) k) 0%N) as [->|Hnz]; [lia|].
    apply (N.log2_lt_pow2 _ 8%N); [lia|].
    eapply N.le_lt_trans; [apply N.log2_lxor|].
    apply N.max_lub_lt.
    - destruct (Hlog (Byte.to_N b)) as [->|?]; [lia | simpl; lia | done].
    - destruct (Hlog k) as [->|?]; [lia | simpl; lia | done]. }
  destruct (Byte.of_N (N.lxor (Byte.to_N b) k)) as [c|] eqn:Hc.
  - simpl. apply Byte.to_of_N in Hc. rewrite Hc.
    rewrite N.lxor_comm, <- N.lxor_assoc, N.lxor_nilpotent. apply N.lxor_0_l.
  - apply Byte.of_N_None_iff in Hc. lia.
Qed.

Lemma byte_xor_lxor_r (b : byte) (k : N) :
  (k < 256)%N →
  N.lxor (Byte.to_N b) (Byte.to_N (Samples.byte_xor b k)) = k.
Proof. intros Hk. rewrite N.lxor_comm. by apply byte_xor_lxor_l. Qed.

(** [rutMgrSortPeer] leaves two peers as they were when the first is the
    farther one: the second phase swaps positions 0 and 1 twice. *)
Lemma rutMgrSortPeer_two_reversed {A} (p1 p2 : A) (d1 d2 : Z) :
  d2 < d1 → rutMgrSortPeer [p1; p2] [d1; d2] = Ok ([p1; p2], [d1; d2]).
Proof.
  intros Hlt. unfold rutMgrSortPeer.
  case_decide as Hempty; [destruct Hempty; discriminate|].
  unfold index_order. simpl. unfold slice_get. simpl.
  case_decide; [|lia]. reflexivity.
Qed.

(** On two peers already in ascending order nothing moves either. *)
Lemma rutMgrSortPeer_two_sorted {A} (p1 p2 : A) (d1 d2 : Z) :
  d1 ≤ d2 → rutMgrSortPeer [p1; p2] [d1; d2] = Ok ([p1; p2], [d1; d2]).
Proof.
  intros Hle. unfold rutMgrSortPeer.
  case_decide as Hempty; [destruct Hempty; discriminate|].
  unfold index_order. simpl. unfold slice_get. simpl.
  case_decide; [lia|]. reflexivity.
Qed.

(** C2, on the code: whatever the hash function, take a target whose hash
    starts with the byte [b0], a local hash that differs from it in the top
    bit of the first byte, and one bucket with a peer [p1] at distance 1 from
    the target in front of a peer [p2] at distance 0.  [rutMgrNearest] for
    two peers returns them with the distances 1, 0: not in ascending
    order. *)
Theorem rutMgrNearest_not_sorted (h : NodeID → Hash) (target : NodeID)
  (b0 : byte) (t t0 t1 t2 : list byte) (rt : rutMgrRouteTable)
  (p1 p2 : rutMgrBucketNode) :
  h target = b0 :: t →
  shaLocal rt = Samples.byte_xor b0 128 :: t0 →
  bucketTab rt = [Some [p1; p2]] →
  hash p1 = Samples.byte_xor b0 64 :: t1 →
  hash p2 = Samples.byte_xor b0 128 :: t2 →
  rutMgrNearest h log2DistLKT rt target 2 = Ok (DhtEnoNone, [p1; p2], [1; 0]).
Proof.
  intros Hht Hlocal Hbt Hp1 Hp2.
  unfold rutMgrNearest. rewrite Hht, Hlocal.
  rewrite (rutMgrLog2Dist_first_byte log2DistLKT _ _ t0 t 0);
    [| by rewrite byte_xor_lxor_l | lia].
  cbn [bind]. case_decide as Hsize; [unfold rutMgrMaxNearest in Hsize; lia|].
  unfold nearest_collect. rewrite Hbt.
  change (int_add 0 0) with 0.
  change (slice_get_int [Some [p1; p2]] 0) with (Ok (Some [p1; p2])).
  cbn [bind]. unfold addClosest, addClosest_loop.
  rewrite Hp1, Hp2.
  rewrite (rutMgrLog2Dist_first_byte log2DistLKT _ _ t t1 1);
    [| by rewrite byte_xor_lxor_r | lia].
  cbn [bind fst snd app length].
  case_decide; [lia|].
  rewrite (rutMgrLog2Dist_first_byte log2DistLKT _ _ t t2 0);
    [| by rewrite byte_xor_lxor_r | lia].
  cbn [bind fst snd app length].
  case_decide; [|lia].
  cbn [bind fst snd]. rewrite bool_decide_eq_true_2 by lia.
  cbn [bind fst snd length]. case_decide; [|lia].
  change (int_add 0 1) with 1. change (int_add 0 0) with 0.
  by rewrite rutMgrSortPeer_two_reversed.
Qed.

Lemma rutMgrNearest_not_sorted_witness :
  rutMgrNearest (fun _ => Samples.shaZero) log2DistLKT
    {| shaLocal := x80 :: repeat x00 31;
       bucketSize := rutMgrBucketSize;
       bucketTab :=
         [Some [ {| node := Samples.nodeA; hash := x40 :: repeat x00 31; dist := 0 |};
                 {| node := Samples.nodeB; hash := x80 :: repeat x01 31; dist := 15 |} ]];
       metricTab := ∅;
       maxLatency := rutMgrMaxLatency |}
    Samples.idC 2 =
  Ok (DhtEnoNone,
      [ {| node := Samples.nodeA; hash := x40 :: repeat x00 31; dist := 0 |};
        {| node := Samples.nodeB; hash := x80 :: repeat x01 31; dist := 15 |} ],
      [1; 0]).
Proof.
  apply (rutMgrNearest_not_sorted _ _ x00 (repeat x00 31) (repeat x00 31)
           (repeat x00 31) (repeat x01 31)); reflexivity.
Defined.

(** ** Routing: the lookup table of the log2 distance *)

(** A loop over [start, start + len) whose every round succeeds and takes
    the state from [P i] to [P (i + 1)] succeeds and ends in
    [P (start + len)]. *)
Lemma for_each_seq_runs {S} (P : nat → S → Prop) (body : nat → S → result S)
  (len start : nat) (s : S) :
  (∀ i t, (start ≤ i < start + len)%nat → P i t →
          ∃ t', body i t = Ok t' ∧ P (Datatypes.S i) t') →
  P start s →
  ∃ s', for_each (seq start len) body s = Ok s' ∧ P (start + len)%nat s'.
Proof.
  revert start s. induction len as [|len IH]; intros start s Hbody Hs.
  - exists s. split; [reflexivity|]. by rewrite Nat.add_0_r.
  - destruct (Hbody start s) as (t & Ht & HPt); [lia | exact Hs |].
    destruct (IH (Datatypes.S start) t) as (s' & Hrun & HP'); [|exact HPt|].
    + intros i u Hi. apply Hbody. lia.
    + exists s'. split.
      * cbn [seq for_each]. rewrite Ht. exact Hrun.
      * by replace (start + Datatypes.S len)%nat with (Datatypes.S start + len)%nat by lia.
Qed.

Lemma for_each_app {A S} (xs ys : list A) (body : A → S → result S) (s : S) :
  for_each (xs ++ ys) body s = Go.bind (for_each xs body s) (for_each ys body).
Proof.
  revert s. induction xs as [|x xs IH]; intros s; [reflexivity|].
  cbn [app for_each]. destruct (body x s) as [t|]; cbn [Go.bind]; [apply IH|done].
Qed.

Lemma pow2_nat_pos (n : nat) : (1 ≤ 2 ^ n)%nat.
Proof. induction n; simpl; lia. Qed.

(** The first [k] rounds of the inner loop for the bit [n]. *)
Lemma lkt_inner (lkt : list Z) (n k : nat) (t : list Z) :
  (n < 8)%nat → (k ≤ 2 ^ n)%nat → (2 ^ n + k ≤ length lkt)%nat →
  lkt_filled lkt (2 ^ n) t →
  ∃ t', for_each (seq (2 ^ n) k)
          (fun b lkt2 => slice_set lkt2 b (Z.of_nat (8 - n - 1))) t = Ok t'
        ∧ lkt_filled lkt (2 ^ n + k) t'.
Proof.
  intros Hn Hk Hlen Ht.
  apply (for_each_seq_runs (fun b t => lkt_filled lkt b t)); [|exact Ht].
  intros b u Hb (Hl & Hlo & Hhi).
  unfold slice_set. rewrite decide_True by lia. eexists. split; [reflexivity|].
  split; [by rewrite length_insert|]. split.
  - intros j Hj. destruct (decide (j = b)) as [->|Hne].
    + rewrite list_lookup_insert_eq by lia. f_equal.
      unfold lkt_entry. pose proof (pow2_nat_pos n).
      rewrite decide_False by lia.
      assert (Z.log2 (Z.of_nat b) = Z.of_nat n) as ->; [|lia].
      apply Z.log2_unique; [lia|].
      assert (Z.of_nat (2 ^ n) = 2 ^ Z.of_nat n) as Hpz
        by (by rewrite Nat2Z.inj_pow).
      rewrite Z.pow_succ_r by lia. lia.
    + rewrite list_lookup_insert_ne by done. apply Hlo. lia.
  - intros j Hj. rewrite list_lookup_insert_ne by lia. apply Hhi. lia.
Qed.

(** The first [n] rounds of the outer loop. *)
Lemma lkt_outer (lkt : list Z) (n : nat) :
  (n ≤ 8)%nat → (2 ^ n ≤ length lkt)%nat →
  ∃ t, for_each (seq 0 n)
         (fun n lkt1 =>
            for_each (seq (2 ^ n) (2 ^ n))
              (fun b lkt2 => slice_set lkt2 b (Z.of_nat (8 - n - 1))) lkt1)
         (<[0%nat := 8]> lkt) = Ok t
       ∧ lkt_filled lkt (2 ^ n) t.
Proof.
  intros Hn Hlen.
  apply (for_each_seq_runs (fun n t => lkt_filled lkt (2 ^ n) t)).
  - intros i t Hi Ht. cbn [Nat.add] in Hi.
    assert (2 ^ Datatypes.S i ≤ 2 ^ n)%nat as Hpow
      by (apply Nat.pow_le_mono_r; lia).
    rewrite Nat.pow_succ_r' in Hpow.
    destruct (lkt_inner lkt i (2 ^ i) t) as (t' & Hrun & Ht');
      [lia | lia | lia | exact Ht |].
    exists t'. split; [exact Hrun|].
    by replace (2 ^ Datatypes.S i)%nat with (2 ^ i + 2 ^ i)%nat
      by (rewrite Nat.pow_succ_r'; lia).
  - pose proof (pow2_nat_pos n).
    split; [by rewrite length_insert|]. split.
    + intros j Hj. cbn in Hj. assert (j = 0%nat) as -> by lia.
      by rewrite list_lookup_insert_eq by lia.
    + intros j Hj. cbn in Hj. by rewrite list_lookup_insert_ne by lia.
Qed.

(** [rutMgrSetupLog2DistLKT] needs a slice of 256 entries: on a shorter one,
    as the empty slice [NewRutMgr] allocates, it panics with an index out of
    range. *)
Theorem rutMgrSetupLog2DistLKT_short_panics (lkt : list Z) :
  (length lkt < 256)%nat →
  rutMgrSetupLog2DistLKT lkt = Panic IndexOutOfRange.
Proof.
  intros Hshort. unfold rutMgrSetupLog2DistLKT.
  destruct (decide (0 < length lkt)%nat) as [Hpos|Hzero];
    [|by unfold slice_set at 1; rewrite decide_False].
  replace (slice_set lkt 0 8) with (Ok (<[0%nat := 8]> lkt))
    by (by unfold slice_set; rewrite decide_True).
  cbn [Go.bind].
  set (n := Nat.log2 (length lkt)).
  destruct (Nat.log2_spec (length lkt) Hpos) as [Hlo Hhi]. fold n in Hlo, Hhi.
  assert (n < 8)%nat as Hn.
  { apply Nat.log2_lt_pow2; [exact Hpos|]. simpl. lia. }
  replace 8%nat with (n + Datatypes.S (7 - n))%nat at 1 by lia.
  rewrite seq_app, for_each_app. cbn [Nat.add].
  destruct (lkt_outer lkt n) as (t & -> & Ht); [lia | exact Hlo |].
  cbn [Go.bind seq for_each].
  rewrite Nat.pow_succ_r' in Hhi.
  replace (2 ^ n)%nat with
    ((length lkt - 2 ^ n) + Datatypes.S (2 ^ n + 2 ^ n - length lkt - 1))%nat
    at 2 by lia.
  rewrite seq_app, for_each_app.
  destruct (lkt_inner lkt n (length lkt - 2 ^ n) t) as (t' & -> & Ht');
    [lia | lia | lia | exact Ht |].
  cbn [Go.bind seq for_each]. unfold slice_set.
  destruct Ht' as (Hl & _ & _).
  rewrite decide_False by lia. reflexivity.
Qed.

Lemma rutMgrSetupLog2DistLKT_short_panics_witness :
  rutMgrSetupLog2DistLKT NewRutMgr_distLookupTab = Panic IndexOutOfRange.
Proof.
  apply (rutMgrSetupLog2DistLKT_short_panics NewRutMgr_distLookupTab).
  simpl. lia.
Defined.

(** On a slice of at least 256 entries [rutMgrSetupLog2DistLKT] returns:
    entry 0 is 8, the entry of a byte value [b] from 1 to 255 is the number
    of zero bits in front of its highest set bit, [7 - log2 b], and the
    entries from 256 on are left as they were. *)
Theorem rutMgrSetupLog2DistLKT_entries (lkt : list Z) :
  (256 ≤ length lkt)%nat →
  ∃ tab, rutMgrSetupLog2DistLKT lkt = Ok tab
         ∧ length tab = length lkt
         ∧ tab !! 0%nat = Some 8
         ∧ (∀ b, (1 ≤ b < 256)%nat → tab !! b = Some (7 - Z.log2 (Z.of_nat b)))
         ∧ (∀ j, (256 ≤ j)%nat → tab !! j = lkt !! j).
Proof.
  intros Hlen. unfold rutMgrSetupLog2DistLKT.
  replace (slice_set lkt 0 8) with (Ok (<[0%nat := 8]> lkt))
    by (unfold slice_set; rewrite decide_True; [done | lia]).
  cbn [Go.bind].
  destruct (lkt_outer lkt 8) as (tab & Hrun & Hl & Hlo & Hhi);
    [lia | exact Hlen |].
  exists tab. split; [exact Hrun|]. split; [exact Hl|]. split; [|split].
  - apply (Hlo 0%nat). simpl. lia.
  - intros b Hb. rewrite Hlo by (simpl; lia).
    unfold lkt_entry. by rewrite decide_False by lia.
  - intros j Hj. apply Hhi. exact Hj.
Qed.

Lemma rutMgrSetupLog2DistLKT_entries_witness :
  ∃ tab, rutMgrSetupLog2DistLKT (repeat 0 256) = Ok tab
         ∧ tab !! 0%nat = Some 8 ∧ tab !! 1%nat = Some 7
         ∧ tab !! 128%nat = Some 0.
Proof.
  destruct (rutMgrSetupLog2DistLKT_entries (repeat 0 256))
    as (tab & Hrun & _ & H0 & Hb & _); [rewrite repeat_length; lia|].
  exists tab. split; [exact Hrun|]. split; [exact H0|]. split.
  - apply (Hb 1%nat). lia.
  - apply (Hb 128%nat). lia.
Defined.

(** ** Routing: the log2 distance as the length of the common prefix *)

Lemma byte_lxor_bound (x y : byte) :
  (N.lxor (Byte.to_N x) (Byte.to_N y) < 256)%N.
Proof.
  pose proof (Byte.to_N_bounded x) as Hx.
  pose proof (Byte.to_N_bounded y) as Hy.
  destruct (N.eq_dec (N.lxor (Byte.to_N x) (Byte.to_N y)) 0%N) as [->|Hnz]; [lia|].
  change 256%N with (2 ^ 8)%N. apply N.log2_lt_pow2; [lia|].
  eapply N.le_lt_trans; [apply N.log2_lxor|].
  apply N.max_lub_lt.
  - destruct (N.eq_dec (Byte.to_N x) 0%N) as [->|?]; [simpl; lia|].
    apply N.log2_lt_pow2; [lia|]. simpl. lia.
  - destruct (N.eq_dec (Byte.to_N y) 0%N) as [->|?]; [simpl; lia|].
    apply N.log2_lt_pow2; [lia|]. simpl. lia.
Qed.

Lemma byte_lxor_nonzero (x y : byte) :
  x ≠ y → N.lxor (Byte.to_N x) (Byte.to_N y) ≠ 0%N.
Proof.
  intros Hne Hz. apply N.lxor_eq in Hz. apply Hne.
  assert (Some x = Some y) as [= ->]; [|done].
  by rewrite <- !Byte.of_to_N, Hz.
Qed.

(** The loop on two hashes that agree on [p] and differ right after: every
    byte of [p] adds 8, the next byte adds its table entry and ends the
    loop. *)
Lemma log2dist_loop_prefix (tab : list Z) (p : list byte) :
  tab !! 0%nat = Some 8 →
  ∀ (pre ta tb : list byte) (x y : byte) (d delta : Z),
    0 ≤ d → 0 ≤ delta → d + 8 * Z.of_nat (length p) + delta < 2 ^ 63 →
    tab !! N.to_nat (N.lxor (Byte.to_N x) (Byte.to_N y)) = Some delta →
    delta ≠ 8 →
    log2dist_loop tab (pre ++ p ++ x :: ta) (length pre) (p ++ y :: tb) d =
    Ok (d + 8 * Z.of_nat (length p) + delta).
Proof.
  intros H0. induction p as [|b p IH];
    intros pre ta tb x y d delta Hd Hdelta Hbound Htab Hne.
  - cbn [app log2dist_loop]. rewrite slice_get_middle. cbn [Go.bind].
    unfold slice_get. rewrite Htab. cbn [Go.bind].
    rewrite decide_True by done.
    unfold int_add. rewrite wrap64_small by (cbn [length] in Hbound; lia).
    f_equal. cbn [length]. lia.
  - cbn [app log2dist_loop]. rewrite slice_get_middle. cbn [Go.bind].
    rewrite N.lxor_nilpotent. change (N.to_nat 0) with 0%nat.
    unfold slice_get at 1. rewrite H0. cbn [Go.bind].
    rewrite decide_False by (intros Hc; by apply Hc).
    cbn [length] in Hbound.
    unfold int_add. rewrite wrap64_small by lia.
    replace (S (length pre)) with (length (pre ++ [b]))
      by (rewrite length_app; simpl; lia).
    rewrite (cons_middle b pre (p ++ x :: ta)), app_assoc.
    rewrite (IH (pre ++ [b]) ta tb x y (d + 8) delta) by (done || lia).
    f_equal. cbn [length]. lia.
Qed.

(** With the table set up, the distance of two hashes that agree on their
    first bytes [p] and differ in the next byte is the number of leading
    bits they share: 8 for each byte of [p] and, for the bytes [x] and [y]
    that differ, the number of zero bits in front of [x xor y]. *)
Theorem rutMgrLog2Dist_common_prefix (lkt tab : list Z) (p ta tb : list byte)
  (x y : byte) :
  (256 ≤ length lkt)%nat →
  rutMgrSetupLog2DistLKT lkt = Ok tab →
  (length p < 32)%nat →
  x ≠ y →
  rutMgrLog2Dist tab (p ++ x :: ta) (p ++ y :: tb) =
    Ok (8 * Z.of_nat (length p)
        + (7 - Z.log2 (Z.of_N (N.lxor (Byte.to_N x) (Byte.to_N y))))).
Proof.
  intros Hlen Hset Hp Hxy.
  assert (lkt_filled lkt 256 tab) as (_ & Hlo & _).
  { unfold rutMgrSetupLog2DistLKT in Hset.
    replace (slice_set lkt 0 8) with (Ok (<[0%nat := 8]> lkt)) in Hset
      by (unfold slice_set; rewrite decide_True; [done | lia]).
    cbn [Go.bind] in Hset.
    destruct (lkt_outer lkt 8) as (t & Hrun & Ht); [lia | exact Hlen |].
    rewrite Hrun in Hset. by injection Hset as <-. }
  pose proof (byte_lxor_bound x y) as Hb.
  pose proof (byte_lxor_nonzero x y Hxy) as Hnz.
  set (k := N.lxor (Byte.to_N x) (Byte.to_N y)) in *.
  assert (0 ≤ Z.log2 (Z.of_N k) < 8) as Hlog.
  { split; [apply Z.log2_nonneg|].
    apply Z.log2_lt_pow2; [lia|]. simpl. lia. }
  unfold rutMgrLog2Dist.
  change (log2dist_loop tab (p ++ x :: ta) 0 (p ++ y :: tb) 0) with
    (log2dist_loop tab ([] ++ p ++ x :: ta) (length (@nil byte))
       (p ++ y :: tb) 0).
  assert (tab !! N.to_nat k = Some (7 - Z.log2 (Z.of_N k))) as Hk.
  { rewrite Hlo by lia. unfold lkt_entry.
    rewrite decide_False by lia. by rewrite N_nat_Z. }
  rewrite (log2dist_loop_prefix tab p (Hlo 0%nat ltac:(lia)) [] ta tb x y 0
             (7 - Z.log2 (Z.of_N k))); [f_equal; lia | lia | lia | lia | exact Hk | lia].
Qed.

Lemma rutMgrLog2Dist_common_prefix_witness :
  rutMgrLog2Dist log2DistLKT (x00 :: x80 :: repeat x00 30)
    (x00 :: xc0 :: repeat x00 30) = Ok 9.
Proof.
  apply (rutMgrLog2Dist_common_prefix (repeat 0 256) log2DistLKT [x00]
           (repeat x00 30) (repeat x00 30) x80 xc0).
  - rewrite repeat_length. lia.
  - exact log2DistLKT_setup.
  - simpl. lia.
  - discriminate.
Defined.

(** ** Routing: latency samples *)

(** The first latency sample of a peer is its EWMA from then on: a later
    sample is only appended to [ltnSamples] ([rutMgrMetricUpdate] does
    nothing).  The metrics of the other peers and the buckets are not
    touched. *)
Theorem rutMgrMetricSample_ewma (rt : rutMgrRouteTable) (id id' : NodeID)
  (latency : Z) :
  rutMgrMetricGetEWMA (rutMgrMetricSample rt id latency) id =
    (DhtEnoNone,
     match metricTab rt !! id with Some m => ewma m | None => latency end)
  ∧ (id' ≠ id →
     rutMgrMetricGetEWMA (rutMgrMetricSample rt id latency) id' =
       rutMgrMetricGetEWMA rt id')
  ∧ bucketTab (rutMgrMetricSample rt id latency) = bucketTab rt.
Proof.
  unfold rutMgrMetricGetEWMA, rutMgrMetricSample.
  destruct (metricTab rt !! id) as [m|] eqn:Hm; cbn [metricTab set_metricTab bucketTab].
  all: split; [by rewrite lookup_insert_eq|].
  all: split; [|reflexivity].
  all: intros Hne; by rewrite lookup_insert_ne.
Qed.

(** ** Routing: [update] on a peer that is not found *)

(** [find] ends with "not found" when the distance is beyond the buckets or
    the bucket of that distance is empty. *)
Lemma find_not_found (fuel : nat) (rt : rutMgrRouteTable) (id : NodeID)
  (d : Z) :
  Z.of_nat (length (bucketTab rt)) ≤ d
  ∨ (0 ≤ d ∧ bucketTab rt !! Z.to_nat d = Some (Some [])) →
  find (S fuel) rt id d = Some (Ok (DhtEnoNotFound, None)).
Proof.
  intros [Hfar|[Hd Hbk]]; unfold find.
  - by rewrite decide_True.
  - pose proof (lookup_lt_Some _ _ _ Hbk).
    rewrite decide_False by lia.
    unfold slice_get_int. rewrite decide_True by done.
    unfold slice_get. by rewrite Hbk.
Qed.

(** [update] rejects a peer that is not found in the bucket of its distance
    and has no latency sample with [DhtEnoNotFound], and drops one whose
    EWMA is above [maxLatency] without an error; the table stays as it
    is. *)
Theorem update_rejects (fuel : nat) (rt : rutMgrRouteTable)
  (bn : rutMgrBucketNode) (d : Z) :
  bucketTab rt ≠ [] →
  Z.of_nat (length (bucketTab rt)) ≤ d
  ∨ (0 ≤ d ∧ bucketTab rt !! Z.to_nat d = Some (Some [])) →
  (metricTab rt !! node_ID (node bn) = None →
   update (S fuel) rt bn d = Some (Ok (rt, DhtEnoNotFound)))
  ∧ (∀ m, metricTab rt !! node_ID (node bn) = Some m →
          maxLatency rt < ewma m →
          update (S fuel) rt bn d = Some (Ok (rt, DhtEnoNone))).
Proof.
  intros Hne Hnf.
  assert (length (bucketTab rt) ≠ 0%nat) as Hlen
    by (by destruct (bucketTab rt)).
  split; [intros Hm | intros m Hm Hslow].
  all: unfold update; cbv zeta; rewrite decide_False by exact Hlen.
  all: rewrite (find_not_found fuel rt _ d Hnf).
  all: unfold rutMgrMetricGetEWMA; rewrite Hm.
  - by rewrite decide_True.
  - rewrite decide_False by (intros Hc; by apply Hc).
    by rewrite decide_True.
Qed.

Lemma update_rejects_witness :
  update 1 Samples.rtAB Samples.peerC 5 =
    Some (Ok (Samples.rtAB, DhtEnoNotFound)).
Proof.
  destruct (update_rejects 0 Samples.rtAB Samples.peerC 5) as [Hnone _].
  - discriminate.
  - left. simpl. lia.
  - apply Hnone. reflexivity.
Defined.

(** A peer that is not found, whose EWMA is within [maxLatency], is pushed
    to the back of the last bucket, whatever its distance is, when the
    bucket stays within [bucketSize]. *)
Theorem update_appends_to_tail (fuel : nat) (rt : rutMgrRouteTable)
  (bn : rutMgrBucketNode) (d : Z) (m : rutMgrPeerMetric)
  (li : list rutMgrBucketNode) :
  Z.of_nat (length (bucketTab rt)) ≤ d
  ∨ (0 ≤ d ∧ bucketTab rt !! Z.to_nat d = Some (Some [])) →
  metricTab rt !! node_ID (node bn) = Some m →
  ewma m ≤ maxLatency rt →
  last (bucketTab rt) = Some (Some li) →
  Z.of_nat (length li) < bucketSize rt →
  update (S fuel) rt bn d =
    Some (Ok (set_bucketTab rt
                (<[(length (bucketTab rt) - 1)%nat := Some (li ++ [bn])]>
                   (bucketTab rt)),
              DhtEnoNone)).
Proof.
  intros Hnf Hm Hfast Hlast Hroom.
  assert (length (bucketTab rt) ≠ 0%nat) as Hlen
    by (by destruct (bucketTab rt)).
  rewrite last_lookup in Hlast.
  replace (Nat.pred (length (bucketTab rt))) with (length (bucketTab rt) - 1)%nat
    in Hlast by lia.
  unfold update. cbv zeta. rewrite decide_False by exact Hlen.
  rewrite (find_not_found fuel rt _ d Hnf).
  unfold rutMgrMetricGetEWMA. rewrite Hm.
  rewrite decide_False by (intros Hc; by apply Hc).
  rewrite decide_False by lia.
  unfold slice_get. rewrite Hlast. cbn [Go.bind].
  unfold slice_set. rewrite decide_True by lia. cbn [Go.bind].
  cbn [bucketSize set_bucketTab].
  rewrite decide_False; [reflexivity|].
  rewrite length_app. cbn [length]. lia.
Qed.

Lemma update_appends_to_tail_witness :
  update 1 (rutMgrMetricSample Samples.rtAB Samples.idC 1000) Samples.peerC 5 =
    Some (Ok (set_bucketTab (rutMgrMetricSample Samples.rtAB Samples.idC 1000)
                [Some [Samples.peerA; Samples.peerB; Samples.peerC]],
              DhtEnoNone)).
Proof.
  apply (update_appends_to_tail 0
           (rutMgrMetricSample Samples.rtAB Samples.idC 1000) Samples.peerC 5
           (mkMetric Samples.idC [1000] 1000) [Samples.peerA; Samples.peerB]).
  - left. change (1 ≤ 5). lia.
  - reflexivity.
  - change (1000 ≤ rutMgrMaxLatency). unfold rutMgrMaxLatency. lia.
  - reflexivity.
  - change (2 < rutMgrBucketSize). unfold rutMgrBucketSize. lia.
Defined.

(** When the last bucket is full the push makes it overflow and [update]
    calls [split], which panics on its first element: the elements are
    pointers to nodes and [split] asserts the node type itself. *)
Theorem update_full_tail_panics (fuel : nat) (rt : rutMgrRouteTable)
  (bn : rutMgrBucketNode) (d : Z) (m : rutMgrPeerMetric)
  (li : list rutMgrBucketNode) :
  Z.of_nat (length (bucketTab rt)) ≤ d
  ∨ (0 ≤ d ∧ bucketTab rt !! Z.to_nat d = Some (Some [])) →
  metricTab rt !! node_ID (node bn) = Some m →
  ewma m ≤ maxLatency rt →
  last (bucketTab rt) = Some (Some li) →
  bucketSize rt ≤ Z.of_nat (length li) →
  update (S fuel) rt bn d = Some (Panic TypeAssertion).
Proof.
  intros Hnf Hm Hfast Hlast Hfull.
  assert (length (bucketTab rt) ≠ 0%nat) as Hlen
    by (by destruct (bucketTab rt)).
  rewrite last_lookup in Hlast.
  replace (Nat.pred (length (bucketTab rt))) with (length (bucketTab rt) - 1)%nat
    in Hlast by lia.
  unfold update. cbv zeta. rewrite decide_False by exact Hlen.
  rewrite (find_not_found fuel rt _ d Hnf).
  unfold rutMgrMetricGetEWMA. rewrite Hm.
  rewrite decide_False by (intros Hc; by apply Hc).
  rewrite decide_False by lia.
  unfold slice_get. rewrite Hlast. cbn [Go.bind].
  unfold slice_set. rewrite decide_True by lia. cbn [Go.bind].
  cbn [bucketSize set_bucketTab].
  rewrite decide_True by (rewrite length_app; cbn [length]; lia).
  unfold split. cbn [bucketTab set_bucketTab].
  rewrite length_insert.
  rewrite decide_False by lia.
  rewrite decide_False by (rewrite length_app; cbn [length]; lia).
  reflexivity.
Qed.

Lemma update_full_tail_panics_witness :
  update 1 Samples.rtFull Samples.peerB 5 = Some (Panic TypeAssertion).
Proof.
  apply (update_full_tail_panics 0 Samples.rtFull Samples.peerB 5
           (mkMetric Samples.idB [1000] 1000) (replicate 32 Samples.peerA)).
  - left. simpl. lia.
  - reflexivity.
  - change (1000 ≤ rutMgrMaxLatency). unfold rutMgrMaxLatency. lia.
  - reflexivity.
  - simpl. unfold rutMgrBucketSize. lia.
Defined.

(** ** Routing: [rutMgrSortPeer] loses nothing *)

Lemma insert_swap_perm {A} (s : list A) (j : nat) (a y : A) :
  s !! j = Some y → y :: <[j := a]> s ≡ₚ a :: s.
Proof.
  revert j. induction s as [|b s IH]; intros [|j] Hj; simplify_eq/=.
  - apply perm_swap.
  - rewrite (perm_swap b y), (IH j Hj). apply perm_swap.
Qed.

(** Exchanging two entries of a slice permutes it. *)
Lemma insert_insert_perm {A} (s : list A) (i j : nat) (x y : A) :
  s !! i = Some x → s !! j = Some y → <[j := x]> (<[i := y]> s) ≡ₚ s.
Proof.
  revert i j. induction s as [|b s IH]; intros [|i] [|j] Hx Hy; simplify_eq/=.
  - done.
  - by apply insert_swap_perm.
  - by apply insert_swap_perm.
  - by rewrite IH.
Qed.

Lemma swap_ok {A} (s : list A) (i j : nat) (x y : A) :
  s !! i = Some x → s !! j = Some y →
  swap s i j = Ok (<[j := x]> (<[i := y]> s)).
Proof.
  intros Hx Hy. unfold swap, slice_get, slice_set. rewrite Hx, Hy.
  cbn [Go.bind].
  rewrite decide_True by (by eapply lookup_lt_Some). cbn [Go.bind].
  rewrite decide_True; [done|]. rewrite length_insert. by eapply lookup_lt_Some.
Qed.

(** The first phase: an index goes into the list of the indices seen so
    far. *)
Lemma insert_index_ok (ds : list Z) (d : Z) (i : nat) (li : list nat) :
  (i < length ds)%nat → Forall (fun e => (e < length ds)%nat) li →
  ∃ r, insert_index ds d i li = Ok r
       ∧ length r = S (length li)
       ∧ Forall (fun e => (e < length ds)%nat) r.
Proof.
  intros Hi. induction li as [|e li IH]; intros Hli.
  - exists [i]. repeat split. by repeat constructor.
  - apply Forall_cons in Hli as [He Hli].
    destruct (lookup_lt_is_Some_2 ds e He) as [de Hde].
    cbn [insert_index]. unfold slice_get. rewrite Hde. cbn [Go.bind].
    case_decide.
    + eexists. split; [reflexivity|]. split; [done|].
      by repeat constructor.
    + destruct (IH Hli) as (r & -> & Hlen & Hr). cbn [Go.bind].
      eexists. split; [reflexivity|]. split; [by cbn; rewrite Hlen|].
      by constructor.
Qed.

Lemma index_order_ok (ds : list Z) :
  ∃ li, index_order ds = Ok li
        ∧ length li = length ds
        ∧ Forall (fun e => (e < length ds)%nat) li.
Proof.
  unfold index_order.
  assert (Forall (fun id : nat * Z => (id.1 < length ds)%nat)
            (zip (seq 0 (length ds)) ds)) as Hxs.
  { apply Forall_forall. intros [i d] Hin.
    apply elem_of_zip_l, elem_of_seq in Hin. cbn. lia. }
  assert (length (zip (seq 0 (length ds)) ds) = length ds) as Hlen.
  { rewrite length_zip_with, length_seq. lia. }
  revert Hxs Hlen. generalize (zip (seq 0 (length ds)) ds) as xs.
  intros xs Hxs Hlen.
  cut (∀ li, Forall (fun e => (e < length ds)%nat) li →
         ∃ r, for_each xs
                (fun id li => insert_index ds (snd id) (fst id) li) li = Ok r
              ∧ length r = (length li + length xs)%nat
              ∧ Forall (fun e => (e < length ds)%nat) r).
  { intros Hcut. destruct (Hcut [] (Forall_nil_2 _)) as (r & Hr & Hl & HF).
    exists r. repeat split; [done| |done]. cbn in Hl. lia. }
  clear Hlen. induction xs as [|[i d] xs IH]; intros li Hli.
  - exists li. repeat split; [cbn; lia | done].
  - apply Forall_cons in Hxs as [Hi Hxs]. cbn in Hi.
    destruct (insert_index_ok ds d i li Hi Hli) as (r1 & Hr1 & Hl1 & HF1).
    destruct (IH Hxs r1 HF1) as (r & Hr & Hl & HF).
    exists r. split.
    + cbn [for_each fst snd]. rewrite Hr1. exact Hr.
    + split; [cbn [length]; lia | done].
Qed.

(** The second phase exchanges entries of the two slices at the same
    positions. *)
Lemma apply_order_ok {A} (li : list nat) :
  ∀ (i : nat) (ps : list A) (ds : list Z),
    length ps = length ds →
    Forall (fun e => (e < length ds)%nat) li →
    (i + length li ≤ length ds)%nat →
    ∃ ps' ds', apply_order li i (ps, ds) = Ok (ps', ds')
               ∧ zip ps' ds' ≡ₚ zip ps ds
               ∧ length ps' = length ps ∧ length ds' = length ds.
Proof.
  induction li as [|e li IH]; intros i ps ds Hlen Hli Hi.
  - exists ps, ds. by repeat split.
  - apply Forall_cons in Hli as [He Hli]. cbn [length] in Hi.
    destruct (lookup_lt_is_Some_2 ps i ltac:(lia)) as [x Hx].
    destruct (lookup_lt_is_Some_2 ps e ltac:(lia)) as [y Hy].
    destruct (lookup_lt_is_Some_2 ds i ltac:(lia)) as [dx Hdx].
    destruct (lookup_lt_is_Some_2 ds e ltac:(lia)) as [dy Hdy].
    cbn [apply_order fst snd].
    rewrite (swap_ok ps i e x y Hx Hy), (swap_ok ds i e dx dy Hdx Hdy).
    cbn [Go.bind].
    destruct (IH (S i) (<[e := x]> (<[i := y]> ps))
                (<[e := dx]> (<[i := dy]> ds)))
      as (ps' & ds' & Hrun & Hperm & Hl1 & Hl2).
    + by rewrite !length_insert.
    + by rewrite !length_insert.
    + rewrite !length_insert. lia.
    + exists ps', ds'. split; [exact Hrun|].
      rewrite !length_insert in Hl1. rewrite !length_insert in Hl2.
      split; [|done].
      rewrite Hperm.
      rewrite <- (insert_zip_with pair (<[i := y]> ps) (<[i := dy]> ds) e x dx).
      rewrite <- (insert_zip_with pair ps ds i y dy).
      apply insert_insert_perm; rewrite lookup_zip_with.
      * by rewrite Hx, Hdx.
      * by rewrite Hy, Hdy.
Qed.

Lemma rutMgrSortPeer_runs {A} (ps : list A) (ds : list Z) :
  length ps = length ds →
  ∃ ps' ds', rutMgrSortPeer ps ds = Ok (ps', ds')
             ∧ zip ps' ds' ≡ₚ zip ps ds
             ∧ length ps' = length ps ∧ length ds' = length ds.
Proof.
  intros Hlen. unfold rutMgrSortPeer. case_decide.
  - exists ps, ds. by repeat split.
  - destruct (index_order_ok ds) as (li & -> & Hl & HF). cbn [Go.bind].
    apply apply_order_ok; [exact Hlen | exact HF | lia].
Qed.

(** On two slices of the same length [rutMgrSortPeer] returns, and the
    peers with their distances are, as pairs, a permutation of what was
    passed: no peer is lost or doubled and every peer keeps its distance. *)
Theorem rutMgrSortPeer_permutation {A} (ps : list A) (ds : list Z) :
  length ps = length ds →
  ∃ ps' ds', rutMgrSortPeer ps ds = Ok (ps', ds')
             ∧ zip ps' ds' ≡ₚ zip ps ds
             ∧ ps' ≡ₚ ps ∧ ds' ≡ₚ ds.
Proof.
  intros Hlen.
  destruct (rutMgrSortPeer_runs ps ds Hlen) as (ps' & ds' & Hrun & Hperm & Hl1 & Hl2).
  exists ps', ds'. split; [exact Hrun|]. split; [exact Hperm|]. split.
  - rewrite <- (fst_zip ps ds), <- (fst_zip ps' ds') by lia.
    by apply fmap_Permutation.
  - rewrite <- (snd_zip ps ds), <- (snd_zip ps' ds') by lia.
    by apply fmap_Permutation.
Qed.

Lemma rutMgrSortPeer_permutation_witness :
  ∃ ps' ds', rutMgrSortPeer [Samples.peerA; Samples.peerB; Samples.peerC]
               [3; 1; 2] = Ok (ps', ds')
             ∧ zip ps' ds' ≡ₚ
                 zip [Samples.peerA; Samples.peerB; Samples.peerC] [3; 1; 2]
             ∧ ps' ≡ₚ [Samples.peerA; Samples.peerB; Samples.peerC]
             ∧ ds' ≡ₚ [3; 1; 2].
Proof.
  apply (rutMgrSortPeer_permutation
           [Samples.peerA; Samples.peerB; Samples.peerC] [3; 1; 2]).
  reflexivity.
Defined.

(** ** Routing: what [rutMgrNearest] returns *)

Section NearestProps.

Variable rutMgrNodeId2Hash : NodeID → Hash.
Variable tab : list Z.

Lemma addClosest_loop_upto (ht : Hash) (size : Z) (els : list rutMgrBucketNode) :
  ∀ (st : nearest_acc) (count : Z) (st' : nearest_acc) (count' : Z),
    count = Z.of_nat (length (fst st)) → nearest_below size st →
    addClosest_loop tab ht size els st count = Ok (st', count') →
    count' = Z.of_nat (length (fst st')) ∧ nearest_upto size st'.
Proof.
  induction els as [|peer els IH]; intros st count st' count' Hc [Hal Hlt] Hrun.
  - cbn in Hrun. injection Hrun as <- <-. split; [done|]. split; [done | lia].
  - cbn [addClosest_loop] in Hrun.
    destruct (rutMgrLog2Dist tab ht (hash peer)) as [dt|]; [|discriminate].
    cbn [Go.bind] in Hrun. cbv zeta in Hrun.
    assert (Z.of_nat (length (st.1 ++ [peer])) = count + 1) as Hlen
      by (rewrite length_app; cbn [length]; lia).
    assert (length (st.1 ++ [peer]) = length (st.2 ++ [dt])) as Hal'
      by (rewrite !length_app; cbn [length]; lia).
    case_decide as Hfull.
    + injection Hrun as <- <-. unfold nearest_upto. cbn [fst snd]. lia.
    + eapply IH; [| |exact Hrun]; unfold nearest_below; cbn [fst snd]; lia.
Qed.

Lemma addClosest_upto (ht : Hash) (size : Z) (bk : option (list rutMgrBucketNode))
  (st st' : nearest_acc) (count' : Z) :
  nearest_below size st →
  addClosest tab ht size bk st = Ok (st', count') →
  count' = Z.of_nat (length (fst st')) ∧ nearest_upto size st'.
Proof.
  intros Hst Hrun. unfold addClosest in Hrun. cbv zeta in Hrun.
  destruct bk as [els|].
  - by eapply addClosest_loop_upto.
  - injection Hrun as <- <-. destruct Hst. split; [done|]. split; [done | lia].
Qed.

Lemma scan_upto (ht : Hash) (size : Z) (bt : list (option (list rutMgrBucketNode)))
  (idxs : list nat) :
  ∀ (st st' : nearest_acc) (flag : bool),
    nearest_below size st →
    scan tab ht size bt idxs st = Ok (st', flag) →
    nearest_upto size st' ∧ (flag = false → nearest_below size st').
Proof.
  induction idxs as [|i idxs IH]; intros st st' flag Hst Hrun.
  - cbn in Hrun. injection Hrun as <- <-. destruct Hst. split; [|done].
    split; [done | lia].
  - cbn [scan] in Hrun.
    destruct (slice_get bt i) as [bk|]; [|discriminate].
    cbn [Go.bind] in Hrun. destruct bk as [els|]; [|by eapply IH].
    destruct (addClosest tab ht size (Some els) st) as [[st1 c1]|] eqn:Hadd;
      [|discriminate].
    cbn [Go.bind fst snd] in Hrun.
    destruct (addClosest_upto ht size (Some els) st st1 c1 Hst Hadd)
      as [Hc1 [Hal1 Hle1]].
    case_decide as Hfull.
    + injection Hrun as <- <-. split; [by split | discriminate].
    + eapply IH; [|exact Hrun]. split; [done | lia].
Qed.

Lemma nearest_collect_upto (rt : rutMgrRouteTable) (ht : Hash) (dt size : Z)
  (st : nearest_acc) :
  0 < size →
  nearest_collect tab rt ht dt size = Ok st → nearest_upto size st.
Proof.
  intros Hsize Hrun. unfold nearest_collect in Hrun. cbv zeta in Hrun.
  assert (nearest_below size ([], [])) as Hnil by (split; [done | cbn; lia]).
  destruct (slice_get_int (bucketTab rt) dt) as [bk|]; [|discriminate].
  cbn [Go.bind] in Hrun.
  destruct (match bk with
            | Some _ =>
                r ← addClosest tab ht size bk ([], []);
                Ok (r.1, bool_decide (size ≤ r.2))
            | None => Ok (([], []) : nearest_acc, false)
            end) as [[st1 f1]|] eqn:Hfirst; [|discriminate].
  cbn [Go.bind fst snd] in Hrun.
  assert (nearest_upto size st1 ∧ (f1 = false → nearest_below size st1))
    as [Hup1 Hbelow1].
  { destruct bk as [els|].
    - destruct (addClosest tab ht size (Some els) ([], [])) as [[s1 c1]|] eqn:Hadd;
        [|discriminate].
      cbn [Go.bind fst snd] in Hfirst. injection Hfirst as <- <-.
      destruct (addClosest_upto ht size (Some els) _ s1 c1 Hnil Hadd)
        as [Hc1 [Hal1 Hle1]].
      split; [by split|].
      intros Hf%bool_decide_eq_false. split; [done | lia].
    - injection Hfirst as <- <-. split; [|done].
      destruct Hnil. split; [done | lia]. }
  destruct f1; [by injection Hrun as <-|].
  specialize (Hbelow1 eq_refl).
  destruct (scan tab ht size (bucketTab rt) _ st1) as [[st2 f2]|] eqn:Hscan2;
    [|discriminate].
  cbn [Go.bind fst snd] in Hrun.
  destruct (scan_upto ht size _ _ st1 st2 f2 Hbelow1 Hscan2) as [Hup2 Hbelow2].
  destruct f2; [by injection Hrun as <-|].
  case_decide; [by injection Hrun as <-|].
  destruct (scan tab ht size (bucketTab rt) _ st2) as [[st3 f3]|] eqn:Hscan3;
    [|discriminate].
  cbn [Go.bind fst snd] in Hrun. injection Hrun as <-.
  by destruct (scan_upto ht size _ _ st2 st3 f3 (Hbelow2 eq_refl) Hscan3).
Qed.

(** [rutMgrNearest] never returns more peers than asked for, nor more than
    [rutMgrMaxNearest], and it returns as many distances as peers. *)
Theorem rutMgrNearest_at_most_size (rt : rutMgrRouteTable) (target : NodeID)
  (size : Z) (eno : DhtErrno) (ps : list rutMgrBucketNode) (ds : list Z) :
  rutMgrNearest rutMgrNodeId2Hash tab rt target size = Ok (eno, ps, ds) →
  length ps = length ds
  ∧ (length ps ≤ Z.to_nat size)%nat
  ∧ Z.of_nat (length ps) ≤ rutMgrMaxNearest.
Proof.
  unfold rutMgrNearest. cbv zeta. intros Hrun.
  destruct (rutMgrLog2Dist tab (shaLocal rt) _) as [dt|]; [|discriminate].
  cbn [Go.bind] in Hrun. case_decide as Hsize.
  - injection Hrun as <- <- <-. unfold rutMgrMaxNearest. cbn. lia.
  - destruct (nearest_collect _ _ _ _ _) as [st|] eqn:Hcol; [|discriminate].
    cbn [Go.bind] in Hrun.
    destruct (nearest_collect_upto rt _ dt size st ltac:(lia) Hcol) as [Hal Hle].
    case_decide.
    + destruct (rutMgrSortPeer_runs st.1 st.2 Hal)
        as (ps' & ds' & Hsort & _ & Hl1 & Hl2).
      rewrite Hsort in Hrun. cbn [Go.bind fst snd] in Hrun.
      injection Hrun as <- <- <-. lia.
    + injection Hrun as <- <- <-. lia.
Qed.

(** A [size] that is not from 1 to [rutMgrMaxNearest] is refused with
    [DhtEnoParameter] and nil slices. *)
Theorem rutMgrNearest_bad_size (rt : rutMgrRouteTable) (target : NodeID)
  (size dt : Z) :
  rutMgrLog2Dist tab (shaLocal rt) (rutMgrNodeId2Hash target) = Ok dt →
  size ≤ 0 ∨ rutMgrMaxNearest < size →
  rutMgrNearest rutMgrNodeId2Hash tab rt target size =
    Ok (DhtEnoParameter, [], []).
Proof.
  intros Hdt Hsize. unfold rutMgrNearest. cbv zeta. rewrite Hdt. cbn [Go.bind].
  rewrite decide_True; [reflexivity|]. lia.
Qed.

(** The bucket of the target's distance is indexed without a check: when
    the table has no bucket of that index, as right after
    [rutMgrSetupRouteTable], a request of a valid size panics. *)
Theorem rutMgrNearest_no_bucket_panics (rt : rutMgrRouteTable)
  (target : NodeID) (size dt : Z) :
  rutMgrLog2Dist tab (shaLocal rt) (rutMgrNodeId2Hash target) = Ok dt →
  0 < size ≤ rutMgrMaxNearest →
  dt < 0 ∨ Z.of_nat (length (bucketTab rt)) ≤ dt →
  rutMgrNearest rutMgrNodeId2Hash tab rt target size = Panic IndexOutOfRange.
Proof.
  intros Hdt Hsize Hout. unfold rutMgrNearest. cbv zeta. rewrite Hdt.
  cbn [Go.bind]. rewrite decide_False by lia.
  unfold nearest_collect. cbv zeta. unfold slice_get_int, slice_get.
  case_decide; [|reflexivity].
  rewrite lookup_ge_None_2 by lia. reflexivity.
Qed.

End NearestProps.

Lemma rutMgrNearest_at_most_size_witness :
  length [Samples.peerA] = length [256]
  ∧ (length [Samples.peerA] ≤ Z.to_nat 1)%nat
  ∧ Z.of_nat (length [Samples.peerA]) ≤ rutMgrMaxNearest.
Proof.
  apply (rutMgrNearest_at_most_size (fun _ => x80 :: repeat x00 31)
           log2DistLKT Samples.rtAB Samples.idC 1 DhtEnoNone
           [Samples.peerA] [256]).
  reflexivity.
Defined.

Lemma rutMgrNearest_bad_size_witness :
  rutMgrNearest (fun _ => x80 :: repeat x00 31) log2DistLKT Samples.rtAB
    Samples.idC 33 = Ok (DhtEnoParameter, [], []).
Proof.
  apply (rutMgrNearest_bad_size (fun _ => x80 :: repeat x00 31) log2DistLKT
           Samples.rtAB Samples.idC 33 0).
  - reflexivity.
  - right. unfold rutMgrMaxNearest. lia.
Defined.

Lemma rutMgrNearest_no_bucket_panics_witness :
  rutMgrNearest (fun _ => Samples.shaZero) log2DistLKT
    (rutMgrSetupRouteTable (fun _ => Samples.shaZero) Samples.idLocal)
    Samples.idC 8 = Panic IndexOutOfRange.
Proof.
  apply (rutMgrNearest_no_bucket_panics (fun _ => Samples.shaZero) log2DistLKT
           (rutMgrSetupRouteTable (fun _ => Samples.shaZero) Samples.idLocal)
           Samples.idC 8 256).
  - reflexivity.
  - unfold rutMgrMaxNearest. lia.
  - right. simpl. lia.
Defined.

(** Unfolds the steps of a handler that runs on a given world. *)
Ltac run_handler :=
  repeat (unfold Query.send, Query.send_named, Query.storeQcb;
          unfold mbind, emit, emits, putMgr, getMgr, ret, lift, throw;
          cbn [forM mgr out]).

(** ** Query manager: the result report *)

Import Query.

(** The copy loop writes every node to entry 0: the last one stays. *)
Lemma result_peers_loop (li : list qryResultInfo) :
  ∀ (p : list (option Node)),
    (0 < length p)%nat →
    for_each li
      (fun v (st : nat * list (option Node)) =>
         p' ← slice_set (snd st) (fst st) (Some (qri_node v));
         Ok (fst st, p'))
      (0%nat, p) =
    Ok (0%nat,
        match last li with
        | Some v => <[0%nat := Some (qri_node v)]> p
        | None => p
        end).
Proof.
  induction li as [|x li IH]; intros p Hp; [reflexivity|].
  cbn [for_each fst snd]. unfold slice_set at 1.
  case_decide; [|lia]. cbn [bind fst snd].
  rewrite IH by (rewrite length_insert; lia).
  destruct li as [|y li']; [reflexivity|].
  rewrite last_cons_cons.
  destruct (last (y :: li')) as [v|] eqn:Hlast.
  - by rewrite list_insert_insert_eq.
  - assert (is_Some (last (y :: li'))) as [? ?] by (by apply last_is_Some).
    congruence.
Qed.

Lemma result_peers_nonempty (li : list qryResultInfo) (v : qryResultInfo) :
  last li = Some v →
  result_peers li =
    Ok (Some (Some (qri_node v) :: replicate (length li - 1) None)).
Proof.
  intros Hlast. unfold result_peers.
  assert (0 < length li)%nat as Hlen.
  { destruct li; [discriminate | simpl; lia]. }
  case_decide; [|lia].
  rewrite result_peers_loop by (rewrite length_replicate; lia).
  rewrite Hlast. cbn [bind snd].
  destruct (length li) as [|n] eqn:Hn; [lia|].
  simpl. by rewrite Nat.sub_0_r.
Qed.

(** [qcbUpdateResult] keeps the result list in ascending order of
    distance. *)
Lemma insert_result_Forall (P : qryResultInfo → Prop) qri li :
  P qri → Forall P li → Forall P (insert_result qri li).
Proof.
  intros Hq Hli. induction Hli as [|v rest Hv Hrest IH]; simpl.
  - by constructor.
  - case_decide; repeat constructor; auto.
Qed.

Lemma insert_result_sorted qri li :
  StronglySorted (fun x y => qri_dist x ≤ qri_dist y) li →
  StronglySorted (fun x y => qri_dist x ≤ qri_dist y) (insert_result qri li).
Proof.
  induction 1 as [|v rest Hsorted IH Hall]; simpl.
  - repeat constructor.
  - case_decide as Hlt.
    + constructor; [by constructor|].
      constructor; [lia|].
      eapply Forall_impl; [exact Hall|]. simpl. intros; lia.
    + constructor; [exact IH|].
      apply insert_result_Forall; [lia | exact Hall].
Qed.

Lemma results_of_sorted (qris : list qryResultInfo) :
  StronglySorted (fun x y => qri_dist x ≤ qri_dist y) (results_of qris).
Proof.
  unfold results_of.
  assert (∀ li, StronglySorted (fun x y => qri_dist x ≤ qri_dist y) li →
            StronglySorted (fun x y => qri_dist x ≤ qri_dist y)
              (foldl (fun li qri => insert_result qri li) li qris)) as Hgen.
  { induction qris as [|q qris IH]; intros li Hli; simpl; [exact Hli|].
    apply IH. by apply insert_result_sorted. }
  apply Hgen. constructor.
Qed.

(** In a list in ascending order the last element is a largest one. *)
Lemma sorted_last_max (li : list qryResultInfo) (v x : qryResultInfo) :
  StronglySorted (fun x y => qri_dist x ≤ qri_dist y) li →
  last li = Some v → x ∈ li → qri_dist x ≤ qri_dist v.
Proof.
  induction 1 as [|y rest Hsorted IH Hall]; intros Hlast Hx; [discriminate|].
  destruct rest as [|z rest'].
  - simpl in Hlast. inversion Hlast; subst.
    apply list_elem_of_singleton in Hx. subst. lia.
  - rewrite last_cons_cons in Hlast.
    apply elem_of_cons in Hx as [->|Hx]; [|by apply IH].
    rewrite Forall_forall in Hall. apply Hall.
    by eapply last_Some_elem_of.
Qed.

(** C10: when [qryMgrResultReport] runs on a block whose result list,
    filled by [qcbUpdateResult], has [n > 0] entries, it sends one
    [QueryResultInd] to the owner; its [Peers] has length [n], entry 0 is the
    node of the last element of the result list, which has the largest
    distance, and the entries 1 to [n - 1] are nil. *)
Theorem qryMgrResultReport_peers (qcb : qryCtrlBlock)
  (qris : list qryResultInfo) (v : qryResultInfo) (eno : DhtErrno)
  (val : option (list byte)) (prd : option (list Node))
  (w : world QryMgr Query.effect) :
  qryResult qcb = Some (results_of qris) →
  last (results_of qris) = Some v →
  ∃ peers : list (option Node),
    qryMgrResultReport qcb eno val prd w =
      Ok (DhtEnoNone,
          mkWorld (mgr w)
            (out w ++
               [Query.SchSendMessage
                  (mkSchMessage (ptnOwner qcb) None EvDhtQryMgrQueryResultInd
                     (BodyQueryResultInd
                        (mkResultInd eno (forWhat qcb) (target qcb)
                           (Some peers) val prd)))])) ∧
    length peers = length (results_of qris) ∧
    peers !! 0%nat = Some (Some (qri_node v)) ∧
    (∀ x, x ∈ results_of qris → qri_dist x ≤ qri_dist v) ∧
    (∀ i, (1 ≤ i < length (results_of qris))%nat → peers !! i = Some None).
Proof.
  intros Hres Hlast.
  set (li := results_of qris) in *.
  assert (0 < length li)%nat as Hlen.
  { destruct li; [discriminate | simpl; lia]. }
  exists (Some (qri_node v) :: replicate (length li - 1) None).
  split; [|split; [|split; [|split]]].
  - unfold qryMgrResultReport, send, emit, mbind, lift, ret.
    rewrite Hres. cbn [list_Len from_option id].
    rewrite (result_peers_nonempty li v Hlast). reflexivity.
  - simpl. rewrite length_replicate. lia.
  - reflexivity.
  - intros x Hx. eapply sorted_last_max; [apply results_of_sorted | exact Hlast | exact Hx].
  - intros i Hi. destruct i as [|i]; [lia|]. simpl.
    apply lookup_replicate_2. lia.
Qed.

Lemma qryMgrResultReport_peers_witness :
  ∃ peers : list (option Node),
    qryMgrResultReport (Samples.qcbOf Samples.ownerA MID_FINDNODE Samples.keyA)
      DhtEnoNotFound None None (mkWorld Samples.qmNat []) =
      Ok (DhtEnoNone,
          mkWorld Samples.qmNat
            ([] ++
               [Query.SchSendMessage
                  (mkSchMessage (Some Samples.ownerA) None
                     EvDhtQryMgrQueryResultInd
                     (BodyQueryResultInd
                        (mkResultInd DhtEnoNotFound MID_FINDNODE Samples.keyA
                           (Some peers) None None)))])) ∧
    length peers =
      length (results_of [Samples.qriA; Samples.qriB; Samples.qriC]) ∧
    peers !! 0%nat = Some (Some (qri_node Samples.qriB)) ∧
    (∀ x, x ∈ results_of [Samples.qriA; Samples.qriB; Samples.qriC] →
          qri_dist x ≤ qri_dist Samples.qriB) ∧
    (∀ i, (1 ≤ i < length (results_of [Samples.qriA; Samples.qriB; Samples.qriC]))%nat →
          peers !! i = Some None).
Proof.
  apply (qryMgrResultReport_peers
           (Samples.qcbOf Samples.ownerA MID_FINDNODE Samples.keyA)
           [Samples.qriA; Samples.qriB; Samples.qriC] Samples.qriB
           DhtEnoNotFound None None (mkWorld Samples.qmNat []));
    reflexivity.
Defined.

(** ** Query manager: NAT address update *)

Lemma IP_Equal_refl (ip : IP) : IP_Equal ip ip = true.
Proof.
  unfold IP_Equal. case_decide; [|done]. by rewrite bool_decide_eq_true_2.
Qed.

(** C1, on the code: the NAT manager reports a public address for TCP with
    a good status while the mapping was already good ([natTcpResult] set).
    Whatever the address reported, and so also when it differs from the one
    advertised, the handler forwards the message to the connection manager
    and stores the address in [pubTcpIp] and [pubTcpPort]; it sends no
    [QueryResultInd] with [NatMapping], deletes no control block, leaves the
    advertised address [local] as it was and sends no [PubAddrSwitchInd]. *)
Theorem natPubAddrUpdateInd_skips_switch (env : Query.Env) (msg : SchMessage)
  (ind : MsgNatMgrPubAddrUpdateInd) (m : QryMgr) (o : list Query.effect) :
  msg_Id msg = EvNatMgrPubAddrUpdateInd →
  msg_Body msg = BodyPubAddrUpdateInd ind →
  ToLower (pa_Proto ind) = NATP_TCP →
  NatIsStatusOk env (pa_Status ind) = true →
  natTcpResult m = true →
  ∃ (m' : QryMgr) (o' : list Query.effect),
    natPubAddrUpdateInd env msg (mkWorld m o) =
      Ok (SchEnoNone, mkWorld m' (o ++ o')) ∧
    pubTcpIp m' = pa_PubIp ind ∧ pubTcpPort m' = pa_PubPort ind ∧
    qcbTab m' = qcbTab m ∧
    local m' = local m ∧
    result_inds DhtEnoNatMapping o' = [] ∧
    switch_inds o' = [].
Proof.
  intros Hid Hbody Hproto Hok Hold.
  destruct msg as [rcv tgt id b]. cbn in Hid, Hbody. subst id b.
  exists (set_pubTcp (set_natTcpResult m true) (pa_PubIp ind) (pa_PubPort ind)).
  exists [Query.SchSendMessage
            (mkSchMessage (snd (SchGetUserTaskNode env ConMgrName))
               tgt EvNatMgrPubAddrUpdateInd (BodyPubAddrUpdateInd ind))].
  split; [|done].
  unfold natPubAddrUpdateInd, mbind, emit, getMgr, putMgr, ret.
  cbn [mgr out msg_Body msg_Id msg_TgtName].
  case_decide as Hp; [congruence|].
  cbn [mgr out natTcpResult set_natTcpResult]. rewrite Hok.
  cbn [mgr out negb natTcpResult set_natTcpResult pubTcpIp pubTcpPort set_pubTcp].
  rewrite Hold, IP_Equal_refl, bool_decide_eq_true_2 by reflexivity.
  reflexivity.
Qed.

Lemma natPubAddrUpdateInd_skips_switch_witness :
  ∃ (m' : QryMgr) (o' : list Query.effect),
    natPubAddrUpdateInd Samples.envQ Samples.natUpdateMsg
      (mkWorld Samples.qmNat []) = Ok (SchEnoNone, mkWorld m' ([] ++ o')) ∧
    pubTcpIp m' = pa_PubIp Samples.natUpdate ∧
    pubTcpPort m' = pa_PubPort Samples.natUpdate ∧
    qcbTab m' = qcbTab Samples.qmNat ∧
    local m' = local Samples.qmNat ∧
    result_inds DhtEnoNatMapping o' = [] ∧
    switch_inds o' = [].
Proof.
  apply (natPubAddrUpdateInd_skips_switch Samples.envQ Samples.natUpdateMsg
           Samples.natUpdate Samples.qmNat []); reflexivity.
Defined.

(** The input of the witness is one the claim speaks of: the address
    reported differs from the advertised one and queries are in flight. *)
Lemma natUpdate_sample_differs :
  (pa_PubIp Samples.natUpdate, pa_PubPort Samples.natUpdate) ≠
    (pubTcpIp Samples.qmNat, pubTcpPort Samples.qmNat) ∧
  size (qcbTab Samples.qmNat) = 2%nat.
Proof. split; [discriminate | by vm_compute]. Qed.

(** The sibling path: from the same state but with a mapping that was bad
    so far, the same message makes [natMapSwitch] run; both owners get a
    [QueryResultInd] with [NatMapping], the table is emptied, the advertised
    address is the new one and the DHT manager gets a [PubAddrSwitchInd]. *)
Lemma natPubAddrUpdateInd_switch_after_bad_mapping :
  ∃ (m' : QryMgr) (o' : list Query.effect),
    natPubAddrUpdateInd Samples.envQ Samples.natUpdateMsg
      (mkWorld (set_natTcpResult Samples.qmNat false) []) =
      Ok (SchEnoNone, mkWorld m' o') ∧
    qcbTab m' = ∅ ∧
    node_IP (local m') = Samples.ipNew ∧ node_TCP (local m') = 200 ∧
    result_inds DhtEnoNatMapping o' ≡ₚ [Some Samples.ownerA; Some Samples.ownerB] ∧
    switch_inds o' = [Some Samples.taskDhtMgr].
Proof.
  eexists. eexists. split; [vm_compute; reflexivity|].
  repeat split; try reflexivity.
  apply Permutation_swap.
Qed.

(** ** Query manager: the end of a query *)











(** ** Query manager: the result list and the pending list *)

Lemma insert_result_perm (qri : qryResultInfo) (li : list qryResultInfo) :
  insert_result qri li ≡ₚ qri :: li.
Proof.
  induction li as [|v li IH]; simpl; [done|].
  case_decide; [done|]. rewrite IH. apply perm_swap.
Qed.

(** [qcbUpdateResult] puts the new entry into the result list and takes
    nothing out; a list in ascending order of distance stays in ascending
    order.  On a block whose result list is nil the call panics. *)
Theorem qcbUpdateResult_sorted (qcb : qryCtrlBlock) (qri : qryResultInfo) :
  (∀ li, qryResult qcb = Some li →
     ∃ li', qcbUpdateResult qcb qri = Ok (set_qryResult qcb (Some li'))
            ∧ li' ≡ₚ qri :: li
            ∧ (StronglySorted (fun x y => qri_dist x ≤ qri_dist y) li →
               StronglySorted (fun x y => qri_dist x ≤ qri_dist y) li'))
  ∧ (qryResult qcb = None →
     qcbUpdateResult qcb qri = Panic NilDereference).
Proof.
  unfold qcbUpdateResult. split.
  - intros li ->. exists (insert_result qri li). split; [done|].
    split; [apply insert_result_perm | apply insert_result_sorted].
  - by intros ->.
Qed.

Lemma StronglySorted_take {A} (R : A → A → Prop) (n : nat) (l : list A) :
  StronglySorted R l → StronglySorted R (take n l).
Proof.
  intros Hl. revert n. induction Hl as [|x l Hl IH Hall]; intros [|n]; simpl;
    try constructor; [apply IH|].
  apply Forall_forall. intros y Hy%subseteq_take.
  by eapply Forall_forall in Hall.
Qed.

(** One node put into the pending list. *)
Lemma put_pending_one_elem (n v : qryPendingInfo) (li : list qryPendingInfo) :
  v ∈ put_pending_one n li → v = n ∨ v ∈ li.
Proof.
  induction li as [|x li IH]; simpl.
  - intros ->%list_elem_of_singleton. by left.
  - repeat case_decide.
    + by right.
    + intros [->|Hin]%elem_of_cons; [by left | by right].
    + intros [->|Hin]%elem_of_cons; [right; by left|].
      destruct (IH Hin) as [->|?]; [by left | right; by right].
Qed.

Lemma put_pending_one_sorted (n : qryPendingInfo) (li : list qryPendingInfo) :
  StronglySorted (fun x y => dist (qpi_bn x) ≤ dist (qpi_bn y)) li →
  StronglySorted (fun x y => dist (qpi_bn x) ≤ dist (qpi_bn y))
    (put_pending_one n li).
Proof.
  induction 1 as [|x li Hsorted IH Hall]; simpl.
  - repeat constructor.
  - repeat case_decide.
    + by constructor.
    + constructor; [by constructor|].
      constructor; [lia|].
      eapply Forall_impl; [exact Hall|]. simpl. intros; lia.
    + constructor; [exact IH|].
      apply Forall_forall. intros v Hv.
      destruct (put_pending_one_elem n v li Hv) as [->|Hin]; [lia|].
      by eapply Forall_forall in Hall.
Qed.

(** [qryMgrQcbPutPending] with nodes to put and a positive [size] on a
    block with a pending list: the list left holds at most [size] entries;
    each of them was pending before or is one of the nodes passed that is
    not in the history of the query; a list in ascending order of distance
    stays in ascending order. *)
Theorem qryMgrQcbPutPending_bounded (qcb : qryCtrlBlock)
  (nodes : list qryPendingInfo) (size : Z) (li : list qryPendingInfo) :
  nodes ≠ [] → 0 < size → qryPending qcb = Some li →
  ∃ li', qryMgrQcbPutPending qcb nodes size =
           Ok (set_qryPending qcb (Some li'), DhtEnoNone)
         ∧ Z.of_nat (length li') ≤ size
         ∧ (∀ v, v ∈ li' →
              v ∈ li
              ∨ (v ∈ nodes
                 ∧ qryHistory qcb !! node_ID (node (qpi_bn v)) = None))
         ∧ (StronglySorted (fun x y => dist (qpi_bn x) ≤ dist (qpi_bn y)) li →
            StronglySorted (fun x y => dist (qpi_bn x) ≤ dist (qpi_bn y)) li').
Proof.
  intros Hnodes Hsize Hli. unfold qryMgrQcbPutPending.
  rewrite decide_False.
  2:{ intros [Hl|Hs]; [|lia]. by destruct nodes. }
  rewrite Hli. cbv zeta.
  set (step := fun acc n =>
         if decide (is_Some (qryHistory qcb !! node_ID (node (qpi_bn n))))
         then acc else put_pending_one n acc).
  eexists. split; [reflexivity|].
  assert (∀ ns acc,
    (∀ v, v ∈ foldl step acc ns →
       v ∈ acc
       ∨ (v ∈ ns ∧ qryHistory qcb !! node_ID (node (qpi_bn v)) = None))
    ∧ (StronglySorted (fun x y => dist (qpi_bn x) ≤ dist (qpi_bn y)) acc →
       StronglySorted (fun x y => dist (qpi_bn x) ≤ dist (qpi_bn y))
         (foldl step acc ns))) as Hfold.
  { induction ns as [|n ns IH]; intros acc; simpl.
    - split; [by left | done].
    - destruct (IH (step acc n)) as [Hel Hso]. split.
      + intros v Hv. destruct (Hel v Hv) as [Hacc|[Hin Hh]].
        * unfold step in Hacc. case_decide as Hhist; [by left|].
          destruct (put_pending_one_elem n v acc Hacc) as [->|?]; [|by left].
          right. split; [by left|]. by apply eq_None_not_Some.
        * right. split; [by right | done].
      + intros Hacc. apply Hso. unfold step. case_decide; [done|].
        by apply put_pending_one_sorted. }
  destruct (Hfold nodes li) as [Hel Hso].
  split; [|split].
  - rewrite length_take. lia.
  - intros v Hv. apply Hel. by eapply subseteq_take.
  - intros Hsorted. by apply StronglySorted_take, Hso.
Qed.

Lemma qryMgrQcbPutPending_bounded_witness :
  ∃ li', qryMgrQcbPutPending (Samples.qcbOf Samples.ownerA MID_FINDNODE Samples.keyA)
           [mkQpi Samples.peerA 0; mkQpi Samples.peerB 0] 1 =
           Ok (set_qryPending
                 (Samples.qcbOf Samples.ownerA MID_FINDNODE Samples.keyA)
                 (Some li'), DhtEnoNone)
         ∧ Z.of_nat (length li') ≤ 1.
Proof.
  destruct (qryMgrQcbPutPending_bounded
              (Samples.qcbOf Samples.ownerA MID_FINDNODE Samples.keyA)
              [mkQpi Samples.peerA 0; mkQpi Samples.peerB 0] 1 [])
    as (li' & Hrun & Hlen & _); [discriminate | lia | reflexivity |].
  exists li'. split; [exact Hrun | exact Hlen].
Defined.

(** ** Query manager: deleting control blocks *)

(** The reasons [qryMgrDelQcb] takes. *)
Lemma delQcb_reason (why : Z) :
  0 ≤ why ≤ 9 → why ≠ delQcb4QryInstResultInd →
  why ∈ [delQcb4TargetFound; delQcb4NoMoreQueries; delQcb4Timeout;
         delQcb4NoSeeds; delQcb4TargetInLocal; delQcb4QryInstDoneInd;
         delQcb4InteralErrors; delQcb4PubAddrSwitch; delQcb4Command].
Proof.
  unfold delQcb4QryInstResultInd. intros Hr Hne.
  assert (why = 0 ∨ why = 1 ∨ why = 2 ∨ why = 3 ∨ why = 4 ∨ why = 5
          ∨ why = 6 ∨ why = 8 ∨ why = 9) as Hc by lia.
  repeat (destruct Hc as [->|Hc]; [repeat constructor|]).
  subst. repeat constructor.
Qed.

(** [qryMgrDelQcb] refuses the reason [delQcb4QryInstResultInd], which is
    not among the cases of its switch, and every value that is no reason at
    all, with [DhtEnoMismatched]; with a reason it takes, it answers
    [DhtEnoNotFound] for a target that has no block.  In both cases nothing
    changes.  A block that is not in state [qsInited] is deleted without a
    message and without a timer call. *)
Theorem qryMgrDelQcb_refuses (env : Query.Env) (why : Z) (tgt : DsKey)
  (w : world QryMgr Query.effect) :
  (why = delQcb4QryInstResultInd ∨ why < 0 ∨ 9 < why →
   qryMgrDelQcb env why tgt w = Ok (DhtEnoMismatched, w))
  ∧ (0 ≤ why ≤ 9 → why ≠ delQcb4QryInstResultInd →
     qcbTab (mgr w) !! tgt = None →
     qryMgrDelQcb env why tgt w = Ok (DhtEnoNotFound, w))
  ∧ (∀ qcb, 0 ≤ why ≤ 9 → why ≠ delQcb4QryInstResultInd →
       qcbTab (mgr w) !! tgt = Some qcb → status qcb ≠ qsInited →
       qryMgrDelQcb env why tgt w =
         Ok (DhtEnoNone,
             mkWorld (set_qcbTab (mgr w) (delete tgt (qcbTab (mgr w))))
               (out w))).
Proof.
  split; [|split].
  - intros Hbad. unfold qryMgrDelQcb. rewrite decide_False; [done|].
    intros Hin. unfold delQcb4QryInstResultInd in Hbad.
    repeat (apply elem_of_cons in Hin as [->|Hin];
            [vm_compute in Hbad; intuition discriminate|]).
    by apply elem_of_nil in Hin.
  - intros Hr Hne Hno. unfold qryMgrDelQcb.
    rewrite decide_True by (by apply delQcb_reason).
    unfold mbind, getMgr. by rewrite Hno.
  - intros qcb Hr Hne Hk Hst. unfold qryMgrDelQcb.
    rewrite decide_True by (by apply delQcb_reason).
    unfold mbind at 1. unfold getMgr at 1. rewrite Hk.
    by rewrite decide_True.
Qed.

(** [qryMgrDelIcb] takes the two reasons of an instance that is done and
    refuses every other one with [DhtEnoMismatched]; it answers
    [DhtEnoNotFound] when the target has no block or the block has no
    instance for the peer.  Else the instance leaves the active map of the
    block; a power off is sent to it only for the reason
    [delQcb4QryInstResultInd], and only when the scheduler still has the
    task of the instance under its name. *)
Theorem qryMgrDelIcb_cases (env : Query.Env) (why : Z) (tgt : DsKey)
  (peer : NodeID) (w : world QryMgr Query.effect) :
  (why ≠ delQcb4QryInstDoneInd ∧ why ≠ delQcb4QryInstResultInd →
   qryMgrDelIcb env why tgt peer w = Ok (DhtEnoMismatched, w))
  ∧ (why = delQcb4QryInstDoneInd ∨ why = delQcb4QryInstResultInd →
     (qcbTab (mgr w) !! tgt ≫= fun qcb => qryActived qcb !! peer) = None →
     qryMgrDelIcb env why tgt peer w = Ok (DhtEnoNotFound, w))
  ∧ (∀ qcb icb,
       why = delQcb4QryInstDoneInd ∨ why = delQcb4QryInstResultInd →
       qcbTab (mgr w) !! tgt = Some qcb → qryActived qcb !! peer = Some icb →
       qryMgrDelIcb env why tgt peer w =
         Ok (DhtEnoNone,
             mkWorld
               (set_qcbTab (mgr w)
                  (<[tgt := set_qryActived qcb (delete peer (qryActived qcb))]>
                     (qcbTab (mgr w))))
               (out w ++
                if decide (why = delQcb4QryInstResultInd
                           ∧ fst (SchGetUserTaskNode env (icb_name icb)) = SchEnoNone
                           ∧ snd (SchGetUserTaskNode env (icb_name icb)) ≠ None
                           ∧ snd (SchGetUserTaskNode env (icb_name icb))
                             = icb_ptnInst icb)
                then [Query.SchSendMessage
                        (mkSchMessage (icb_ptnInst icb) (Some (icb_name icb))
                           EvSchPoweroff Query.BodyNil)]
                else []))).
Proof.
  split; [|split].
  - intros Hbad. unfold qryMgrDelIcb. by rewrite decide_True.
  - intros Hwhy Hno. unfold qryMgrDelIcb. rewrite decide_False by tauto.
    unfold mbind, getMgr.
    destruct (qcbTab (mgr w) !! tgt) as [qcb|]; [|done].
    cbn in Hno. by rewrite Hno.
  - intros qcb icb Hwhy Hk Hp. unfold qryMgrDelIcb.
    rewrite decide_False by tauto.
    unfold mbind at 1. unfold getMgr at 1. rewrite Hk, Hp.
    destruct (decide (why = delQcb4QryInstResultInd)) as [Hr|Hr].
    + cbv zeta. case_decide as Hs.
      * rewrite decide_True by tauto. run_handler. reflexivity.
      * rewrite decide_False by tauto. run_handler.
        by rewrite app_nil_r.
    + rewrite decide_False by tauto. run_handler. by rewrite app_nil_r.
Qed.

(** ** Query manager: NAT address updates that switch nothing *)

(** Every address update is first passed on to the connection manager.
    One for another protocol than TCP is then refused with
    [SchEnoParameter] and changes nothing; one for TCP with a bad status
    only records that the mapping is bad. *)
Theorem natPubAddrUpdateInd_ignored (env : Query.Env) (msg : SchMessage)
  (ind : MsgNatMgrPubAddrUpdateInd) (m : QryMgr) (o : list Query.effect) :
  msg_Body msg = BodyPubAddrUpdateInd ind →
  (ToLower (pa_Proto ind) ≠ NATP_TCP →
   natPubAddrUpdateInd env msg (mkWorld m o) =
     Ok (SchEnoParameter,
         mkWorld m
           (o ++ [Query.SchSendMessage
                    (mkSchMessage (snd (SchGetUserTaskNode env ConMgrName))
                       (msg_TgtName msg) (msg_Id msg) (msg_Body msg))])))
  ∧ (ToLower (pa_Proto ind) = NATP_TCP →
     NatIsStatusOk env (pa_Status ind) = false →
     natPubAddrUpdateInd env msg (mkWorld m o) =
       Ok (SchEnoNone,
           mkWorld (set_natTcpResult m false)
             (o ++ [Query.SchSendMessage
                      (mkSchMessage (snd (SchGetUserTaskNode env ConMgrName))
                         (msg_TgtName msg) (msg_Id msg) (msg_Body msg))]))).
Proof.
  intros Hbody. split.
  - intros Hp. unfold natPubAddrUpdateInd. run_handler. rewrite Hbody.
    by rewrite decide_True.
  - intros Hp Hbad. unfold natPubAddrUpdateInd. run_handler. rewrite Hbody.
    rewrite decide_False by (intros Hc; by apply Hc).
    cbn [natTcpResult set_natTcpResult]. by rewrite Hbad.
Qed.

Lemma natPubAddrUpdateInd_ignored_witness :
  natPubAddrUpdateInd Samples.envQ
    (mkSchMessage (Some Samples.taskQryMgr) None EvNatMgrPubAddrUpdateInd
       (BodyPubAddrUpdateInd (mkPubAddrUpdateInd 0 "udp" Samples.ipNew 200)))
    (mkWorld Samples.qmNat []) =
  Ok (SchEnoParameter,
      mkWorld Samples.qmNat
        [Query.SchSendMessage
           (mkSchMessage (Some Samples.taskConMgr) None EvNatMgrPubAddrUpdateInd
              (BodyPubAddrUpdateInd
                 (mkPubAddrUpdateInd 0 "udp" Samples.ipNew 200)))]).
Proof.
  apply (natPubAddrUpdateInd_ignored Samples.envQ
           (mkSchMessage (Some Samples.taskQryMgr) None EvNatMgrPubAddrUpdateInd
              (BodyPubAddrUpdateInd
                 (mkPubAddrUpdateInd 0 "udp" Samples.ipNew 200)))
           (mkPubAddrUpdateInd 0 "udp" Samples.ipNew 200)
           Samples.qmNat []); [reflexivity | discriminate].
Defined.

(** ** Query manager: the switch of the public address *)

Lemma forM_emit {A} (f : A → Query.effect) (xs : list A)
  (w : world QryMgr Query.effect) :
  forM xs (fun x => emit (f x)) w = Ok (tt, mkWorld (mgr w) (out w ++ map f xs)).
Proof.
  revert w. induction xs as [|x xs IH]; intros [m o]; simpl.
  - by rewrite app_nil_r.
  - unfold mbind, emit at 1. simpl. rewrite IH. simpl.
    by rewrite <- app_assoc.
Qed.

(** [qryMgrDelQcb] on a block of the table, for a reason it takes: the
    block leaves the table, and when it was in state [qsInited] every one of
    its instances is sent a power off. *)
Lemma qryMgrDelQcb_present (env : Query.Env) (why : Z) (tgt : DsKey)
  (qcb : qryCtrlBlock) (m : QryMgr) (o : list Query.effect) :
  0 ≤ why ≤ 9 → why ≠ delQcb4QryInstResultInd →
  qcbTab m !! tgt = Some qcb →
  ∃ o', qryMgrDelQcb env why tgt (mkWorld m o) =
          Ok (DhtEnoNone,
              mkWorld (set_qcbTab m (delete tgt (qcbTab m))) (o ++ o'))
        ∧ (status qcb ≠ qsInited → o' = [])
        ∧ (status qcb = qsInited →
           ∀ p icb, qryActived qcb !! p = Some icb →
             Query.SchSendMessage
               (mkSchMessage (icb_ptnInst icb) (Some (icb_name icb))
                  EvSchPoweroff Query.BodyNil) ∈ o').
Proof.
  intros Hr Hne Hk. unfold qryMgrDelQcb.
  rewrite decide_True by (by apply delQcb_reason).
  unfold mbind at 1. unfold getMgr at 1. cbn [mgr]. rewrite Hk.
  case_decide as Hst.
  - exists []. rewrite app_nil_r. by split.
  - exists ((if decide (qryTid qcb ≠ SchInvalidTid env)
             then [Query.SchKillTimer (qryTid qcb)] else [])
            ++ map (fun kv : NodeID * qryInstCtrlBlock =>
                      Query.SchSendMessage
                        (mkSchMessage (icb_ptnInst (snd kv))
                           (Some (icb_name (snd kv))) EvSchPoweroff
                           Query.BodyNil))
                 (map_to_list (qryActived qcb))
            ++ (if rutNtfFlag qcb
                then [Query.SchSendMessage
                        (mkSchMessage (ptnRutMgr m) None
                           EvDhtRutMgrStopNotifyReq
                           (Query.BodyStopNotifyReq (ptnMe m) (target qcb)))]
                else [])).
    split; [|split; [done|]].
    + unfold Query.send_named, Query.send.
      unfold mbind at 1.
      destruct (decide (qryTid qcb ≠ SchInvalidTid env));
        [unfold emit at 1 | unfold ret at 1]; cbn [mgr out];
        unfold mbind at 1;
        rewrite (forM_emit
                   (fun kv : NodeID * qryInstCtrlBlock =>
                      Query.SchSendMessage
                        (mkSchMessage (icb_ptnInst (snd kv))
                           (Some (icb_name (snd kv))) EvSchPoweroff
                           Query.BodyNil)));
        destruct (rutNtfFlag qcb); run_handler;
        by rewrite <- ?app_assoc, ?app_nil_r.
    + intros _ p icb Hp. apply elem_of_app. right. apply elem_of_app. left.
      apply (list_elem_of_fmap_2
               (fun kv : NodeID * qryInstCtrlBlock =>
                  Query.SchSendMessage
                    (mkSchMessage (icb_ptnInst (snd kv))
                       (Some (icb_name (snd kv))) EvSchPoweroff Query.BodyNil))
               _ (p, icb)).
      by apply elem_of_map_to_list.
Qed.

Lemma set_qcbTab_twice (m : QryMgr) (a b : gmap DsKey qryCtrlBlock) :
  set_qcbTab (set_qcbTab m a) b = set_qcbTab m b.
Proof. by destruct m. Qed.

(** The loop of [natMapSwitch] over entries of the table, each under a key
    of its own. *)
Lemma natMapSwitch_loop_runs (env : Query.Env)
  (kvs : list (DsKey * qryCtrlBlock)) :
  NoDup kvs.*1 →
  ∀ (m : QryMgr) (o : list Query.effect),
    (∀ k qcb, (k, qcb) ∈ kvs → qcbTab m !! k = Some qcb) →
    ∃ o', natMapSwitch_loop env kvs (mkWorld m o) =
            Ok (DhtEnoNone,
                mkWorld
                  (set_qcbTab m
                     (foldl (fun t kv => delete (fst kv) t) (qcbTab m) kvs))
                  (o ++ o'))
          ∧ (∀ k qcb, (k, qcb) ∈ kvs → ptnOwner qcb ≠ None →
               Query.SchSendMessage
                 (mkSchMessage (ptnOwner qcb) None EvDhtQryMgrQueryResultInd
                    (Query.BodyQueryResultInd
                       {| ri_Eno := DhtEnoNatMapping; ri_ForWhat := forWhat qcb;
                          ri_Target := k; ri_Peers := Some [];
                          ri_Val := Some []; ri_Prds := Some [] |})) ∈ o')
          ∧ (∀ k qcb p icb, (k, qcb) ∈ kvs → status qcb = qsInited →
               qryActived qcb !! p = Some icb →
               Query.SchSendMessage
                 (mkSchMessage (icb_ptnInst icb) (Some (icb_name icb))
                    EvSchPoweroff Query.BodyNil) ∈ o').
Proof.
  induction kvs as [|[k qcb] kvs IH]; intros Hnd m o Hin.
  - exists []. simpl. rewrite app_nil_r.
    split; [by destruct m|]. split; intros *; by intros ?%elem_of_nil.
  - apply NoDup_cons in Hnd as [Hk Hnd].
    assert (qcbTab m !! k = Some qcb) as Hkq by (apply Hin; by left).
    set (own := if decide (ptnOwner qcb ≠ None)
                then [Query.SchSendMessage
                        (mkSchMessage (ptnOwner qcb) None
                           EvDhtQryMgrQueryResultInd
                           (Query.BodyQueryResultInd
                              {| ri_Eno := DhtEnoNatMapping;
                                 ri_ForWhat := forWhat qcb;
                                 ri_Target := k; ri_Peers := Some [];
                                 ri_Val := Some []; ri_Prds := Some [] |}))]
                else []).
    destruct (qryMgrDelQcb_present env delQcb4PubAddrSwitch k qcb m (o ++ own))
      as (o1 & Hdel & _ & Hoff); [done..|].
    destruct (IH Hnd (set_qcbTab m (delete k (qcbTab m))) ((o ++ own) ++ o1))
      as (o2 & Hrest & Hown & Hoffs).
    { intros k' qcb' Hin'. cbn. rewrite lookup_delete_ne.
      - apply Hin. by right.
      - intros <-. apply Hk. by apply (list_elem_of_fmap_2 fst _ (k, qcb')). }
    exists (own ++ o1 ++ o2). split; [|split].
    + cbn [natMapSwitch_loop]. unfold mbind at 1.
      replace ((if decide (ptnOwner qcb ≠ None)
                then Query.send (ptnOwner qcb) EvDhtQryMgrQueryResultInd
                       (Query.BodyQueryResultInd
                          {| ri_Eno := DhtEnoNatMapping;
                             ri_ForWhat := forWhat qcb;
                             ri_Target := k; ri_Peers := Some [];
                             ri_Val := Some []; ri_Prds := Some [] |})
                else ret tt) (mkWorld m o))
        with (Ok (tt, mkWorld m (o ++ own)) : result (unit * world QryMgr Query.effect)).
      2:{ subst own. case_decide; run_handler; by rewrite ?app_nil_r. }
      unfold mbind at 1. rewrite Hdel. rewrite decide_False by (by intros []).
      rewrite Hrest. cbn [foldl fst]. rewrite set_qcbTab_twice.
      by rewrite <- !app_assoc.
    + intros k' qcb' [Heq|Hin']%elem_of_cons Hown'.
      * injection Heq as -> ->. apply elem_of_app. left. subst own.
        rewrite decide_True by done. by left.
      * apply elem_of_app. right. apply elem_of_app. right. by apply Hown.
    + intros k' qcb' p icb [Heq|Hin']%elem_of_cons Hst Hp.
      * injection Heq as -> ->. apply elem_of_app. right. apply elem_of_app.
        left. by eapply Hoff.
      * apply elem_of_app. right. apply elem_of_app. right. by eapply Hoffs.
Qed.

Lemma delete_all_entries (t : gmap DsKey qryCtrlBlock) :
  foldl (fun t kv => delete (fst kv) t) t (map_to_list t) = ∅.
Proof.
  assert (∀ (kvs : list (DsKey * qryCtrlBlock)) (t : gmap DsKey qryCtrlBlock) k,
            foldl (fun t kv => delete (fst kv) t) t kvs !! k
            = if decide (k ∈ kvs.*1) then None else t !! k) as Hfold.
  { induction kvs as [|[k' q] kvs IH]; intros t' k; [done|].
    cbn [foldl fst]. rewrite IH, fmap_cons. cbn [fst]. destruct (decide (k = k')) as [->|Hne].
    - rewrite lookup_delete_eq. rewrite (decide_True (P := k' ∈ k' :: kvs.*1))
        by (by left). by case_decide.
    - rewrite lookup_delete_ne by done.
      case_decide as H1; case_decide as H2; try done.
      + destruct H2. by right.
      + apply elem_of_cons in H2 as [?|?]; done. }
  apply map_eq. intros k. rewrite Hfold, lookup_empty.
  case_decide as Hk; [done|]. apply eq_None_not_Some. intros [q Hq].
  apply Hk. apply (list_elem_of_fmap_2 fst _ (k, q)).
  by apply elem_of_map_to_list.
Qed.

(** [natMapSwitch] always succeeds and leaves the table of query blocks
    empty.  Every block that has an owner is reported to it as failed with
    [DhtEnoNatMapping], every instance of a block in state [qsInited] is sent
    a power off, the advertised node takes the public TCP address and port,
    and the last message tells the DHT manager of the switch. *)
Theorem natMapSwitch_clears (env : Query.Env) (m : QryMgr)
  (o : list Query.effect) :
  ∃ o', natMapSwitch env (mkWorld m o) =
          Ok (DhtEnoNone,
              mkWorld
                (set_local (set_qcbTab m ∅)
                   (mkNode (pubTcpIp m) (node_UDP (local m))
                      (Z.land (pubTcpPort m) 65535) (node_ID (local m))))
                (o ++ o' ++
                 [Query.SchSendMessage
                    (mkSchMessage (ptnDhtMgr m) None
                       EvDhtQryMgrPubAddrSwitchInd Query.BodyNil)]))
        ∧ (∀ k qcb, qcbTab m !! k = Some qcb → ptnOwner qcb ≠ None →
             Query.SchSendMessage
               (mkSchMessage (ptnOwner qcb) None EvDhtQryMgrQueryResultInd
                  (Query.BodyQueryResultInd
                     {| ri_Eno := DhtEnoNatMapping; ri_ForWhat := forWhat qcb;
                        ri_Target := k; ri_Peers := Some [];
                        ri_Val := Some []; ri_Prds := Some [] |})) ∈ o')
        ∧ (∀ k qcb p icb, qcbTab m !! k = Some qcb →
             status qcb = qsInited → qryActived qcb !! p = Some icb →
             Query.SchSendMessage
               (mkSchMessage (icb_ptnInst icb) (Some (icb_name icb))
                  EvSchPoweroff Query.BodyNil) ∈ o').
Proof.
  destruct (natMapSwitch_loop_runs env (map_to_list (qcbTab m))
              (NoDup_fst_map_to_list _) m o) as (o' & Hrun & Hown & Hoff).
  { intros k qcb. apply elem_of_map_to_list. }
  exists o'. split; [|split].
  - unfold natMapSwitch. unfold mbind at 1. unfold getMgr at 1. cbn [mgr].
    unfold mbind at 1. rewrite Hrun. rewrite decide_False by (by intros []).
    rewrite delete_all_entries. unfold switch2NatAddr.
    rewrite decide_True by done. run_handler.
    by rewrite <- app_assoc.
  - intros k qcb Hk. apply Hown. by apply elem_of_map_to_list.
  - intros k qcb p icb Hk. apply (Hoff k). by apply elem_of_map_to_list.
Qed.

(** ** Query manager: activating pending peers *)

(** The loop of [qryMgrQcbPutActived] never takes the active instances
    beyond [maxAct]; it keeps the instances there are, and every peer it
    activates is entered into the history. *)
Lemma putActived_loop_keeps (env : Query.Env) (maxAct : Z)
  (els : list qryPendingInfo) :
  ∀ a : activation,
    Z.of_nat (size (qryActived (act_qcb (putActived_loop env maxAct els a))))
      ≤ Z.max (Z.of_nat (size (qryActived (act_qcb a)))) maxAct
    ∧ (∀ id icb, qryActived (act_qcb a) !! id = Some icb →
         qryActived (act_qcb (putActived_loop env maxAct els a)) !! id
           = Some icb)
    ∧ (∀ id, qryActived (act_qcb a) !! id = None →
         is_Some (qryActived (act_qcb (putActived_loop env maxAct els a)) !! id) →
         is_Some (qryHistory (act_qcb (putActived_loop env maxAct els a)) !! id))
    ∧ (∀ id, is_Some (qryHistory (act_qcb a) !! id) →
         is_Some (qryHistory (act_qcb (putActived_loop env maxAct els a)) !! id)).
Proof.
  induction els as [|pending rest IH]; intros a.
  - cbn [putActived_loop]. split; [lia|]. split; [done|].
    split; [|done]. intros id -> []. discriminate.
  - cbn [putActived_loop]. cbv zeta. case_decide as Hfull.
    { split; [lia|]. split; [done|]. split; [|done].
      intros id -> []. discriminate. }
    case_decide as Hdup.
    { match goal with
      | |- context [putActived_loop env maxAct rest ?a1] => exact (IH a1)
      end. }
    destruct (SchCreateTask env (IcbName (seq (act_qcb a)) (icbSeq (act_qcb a))))
      as [e [ptn|]] eqn:Hc.
    2:{ replace (act_qcb match e with SchEnoNone | _ => _ end)
          with (act_qcb a) by (by destruct e).
        split; [lia|]. split; [done|]. split; [|done].
        intros id -> []. discriminate. }
    destruct e;
      try (cbn [act_qcb]; split; [lia|]; split; [done|]; split; [|done];
           intros id -> []; discriminate).
    match goal with
    | |- context [putActived_loop env maxAct rest ?a1] =>
        destruct (IH a1) as (Hsz & Hkeep & Hnew & Hhist)
    end.
    cbn [act_qcb qryActived qryHistory set_icbSeq set_qryHistory set_qryActived]
      in Hsz, Hkeep, Hnew, Hhist.
    apply eq_None_not_Some in Hdup.
    rewrite map_size_insert_None in Hsz by done.
    split; [lia|]. split; [|split].
    + intros id icb Hid. apply Hkeep. rewrite lookup_insert_ne; [done|].
      intros <-. congruence.
    + intros id Hid Hin.
      destruct (decide (id = node_ID (node (qpi_bn pending)))) as [->|Hne].
      * apply Hhist. rewrite lookup_insert_eq. by eexists.
      * apply Hnew; [|done]. by rewrite lookup_insert_ne.
    + intros id Hid. apply Hhist.
      destruct (decide (id = node_ID (node (qpi_bn pending)))) as [->|Hne].
      * rewrite lookup_insert_eq. by eexists.
      * by rewrite lookup_insert_ne.
Qed.

(** [qryMgrQcbPutActived] on a block of the table: the active instances
    never get more than [maxActInsts], unless they were more before; the
    instances there are stay, every peer that gets an instance is in the
    history afterwards, and the pending list only loses elements at its
    front.  With nothing pending the call returns [DhtEnoNotFound], with no
    room [DhtEnoResource], and changes nothing. *)
Theorem qryMgrQcbPutActived_bounded (env : Query.Env) (k : DsKey) (m : QryMgr)
  (o : list Query.effect) (qcb : qryCtrlBlock) :
  qcbTab m !! k = Some qcb →
  ∃ eno cnt w qcb',
    qryMgrQcbPutActived env k (mkWorld m o) = Ok ((eno, cnt), w)
    ∧ qcbTab (mgr w) !! k = Some qcb'
    ∧ Z.of_nat (size (qryActived qcb'))
        ≤ Z.max (Z.of_nat (size (qryActived qcb))) (maxActInsts m)
    ∧ (∀ id icb, qryActived qcb !! id = Some icb →
         qryActived qcb' !! id = Some icb)
    ∧ (∀ id, qryActived qcb !! id = None → is_Some (qryActived qcb' !! id) →
         is_Some (qryHistory qcb' !! id))
    ∧ (∃ n, qryPending qcb' = drop n <$> qryPending qcb)
    ∧ (qryPending qcb = None ∨ qryPending qcb = Some [] →
       eno = DhtEnoNotFound ∧ cnt = 0 ∧ w = mkWorld m o)
    ∧ ((∃ p els, qryPending qcb = Some (p :: els))
       ∧ maxActInsts m ≤ Z.of_nat (size (qryActived qcb)) →
       eno = DhtEnoResource ∧ cnt = 0 ∧ w = mkWorld m o).
Proof.
  intros Hk.
  unfold qryMgrQcbPutActived, theQcb.
  unfold mbind at 1. unfold mbind at 1. unfold getMgr at 1. cbn [mgr].
  rewrite Hk. unfold ret at 1. unfold mbind at 1. unfold getMgr at 1.
  cbn [mgr].
  destruct (qryPending qcb) as [[|p els]|] eqn:Hpend.
  - exists DhtEnoNotFound, 0, (mkWorld m o), qcb. unfold ret.
    split; [done|]. split; [done|]. split; [lia|]. split; [done|].
    split; [by intros id -> []|]. split; [by exists 0%nat|].
    split; [done|]. intros [(? & ? & ?) _]. discriminate.
  - case_decide as Hfull.
    + exists DhtEnoResource, 0, (mkWorld m o), qcb. unfold ret.
      split; [done|]. split; [done|]. split; [lia|]. split; [done|].
      split; [by intros id -> []|]. split; [by exists 0%nat|].
      split; [|done]. intros [?|?]; discriminate.
    + cbv zeta.
      destruct (putActived_loop_keeps env (maxActInsts m) (p :: els)
                  (mkActivation qcb [] 0 0 DhtEnoNone))
        as (Hsz & Hkeep & Hnew & _).
      set (a := putActived_loop env (maxActInsts m) (p :: els)
                  (mkActivation qcb [] 0 0 DhtEnoNone)) in *.
      cbn [act_qcb] in Hsz, Hkeep, Hnew.
      exists (act_eno a), (act_cnt a),
        (mkWorld
           (set_qcbTab m
              (<[k := set_qryPending (act_qcb a)
                        (Some (drop (act_num a) (p :: els)))]> (qcbTab m)))
           (o ++ act_out a)),
        (set_qryPending (act_qcb a) (Some (drop (act_num a) (p :: els)))).
      split; [by run_handler|]. cbn [mgr].
      split; [by destruct m; cbn; rewrite lookup_insert_eq|].
      split; [done|]. split; [done|]. split; [done|].
      split; [by exists (act_num a)|].
      split; [intros [?|?]; discriminate|].
      intros [_ ?]. lia.
  - exists DhtEnoNotFound, 0, (mkWorld m o), qcb. unfold ret.
    split; [done|]. split; [done|]. split; [lia|]. split; [done|].
    split; [by intros id -> []|]. split; [by exists 0%nat|].
    split; [done|]. intros [(? & ? & ?) _]. discriminate.
Qed.

Lemma qryMgrQcbPutActived_bounded_witness :
  ∃ eno cnt w qcb',
    qryMgrQcbPutActived Samples.envQ Samples.keyA
      (mkWorld
         (Samples.qmWith
            (set_qryPending
               (Samples.qcbOf Samples.ownerA MID_FINDNODE Samples.keyA)
               (Some [mkQpi Samples.peerA 0])))
         []) = Ok ((eno, cnt), w)
    ∧ qcbTab (mgr w) !! Samples.keyA = Some qcb'
    ∧ (∀ id, is_Some (qryActived qcb' !! id) → is_Some (qryHistory qcb' !! id)).
Proof.
  destruct (qryMgrQcbPutActived_bounded Samples.envQ Samples.keyA
              (Samples.qmWith
                 (set_qryPending
                    (Samples.qcbOf Samples.ownerA MID_FINDNODE Samples.keyA)
                    (Some [mkQpi Samples.peerA 0])))
              []
              (set_qryPending
                 (Samples.qcbOf Samples.ownerA MID_FINDNODE Samples.keyA)
                 (Some [mkQpi Samples.peerA 0])))
    as (eno & cnt & w & qcb' & Hrun & Hk & _ & _ & Hnew & _).
  { apply lookup_singleton_eq. }
  exists eno, cnt, w, qcb'. split; [exact Hrun|]. split; [exact Hk|].
  intros id. apply Hnew. apply lookup_empty.
Defined.

(** ** Peer instance: the pingpong counter *)

Import Peer.

(** One expiry of the pingpong timer. *)
Lemma piPingpongTimerHandler_step (env : Peer.Env) (inst : peerInstance)
  (o : list Peer.effect) :
  piPingpongTimerHandler env (mkWorld inst o) =
    (let cnt := int_add (pi_ppCnt inst) 1 in
     if decide (PeInstMaxPingpongCnt < cnt)
     then Ok (PeMgrEnoPingpongTh,
              mkWorld (set_ppEno (set_ppCnt inst cnt) PeMgrEnoPingpongTh)
                (o ++ [pingpong_close inst]))
     else Ok (PeMgrEnoNone,
              mkWorld (set_ppCnt inst cnt) (o ++ [pingpong_req env inst]))).
Proof.
  unfold piPingpongTimerHandler, mbind, getMgr, putMgr, emit, ret.
  cbn. by case_decide.
Qed.

(** Up to eight expiries in a row after a [Ping]: the counter counts them
    and each asks for the next ping only. *)
Lemma pingpong_ticks_quiet (env : Peer.Env) (inst : peerInstance)
  (o : list Peer.effect) (n : nat) :
  (n ≤ 8)%nat →
  pingpong_ticks env n (mkWorld (set_ppCnt inst 0) o) =
    Ok (replicate n PeMgrEnoNone,
        mkWorld (set_ppCnt inst (Z.of_nat n))
          (o ++ replicate n (pingpong_req env inst))).
Proof.
  induction n as [|n IH]; intros Hn.
  - simpl. unfold ret. by rewrite app_nil_r.
  - cbn [pingpong_ticks]. unfold mbind at 1. rewrite IH by lia.
    unfold mbind at 1. rewrite piPingpongTimerHandler_step.
    cbn [pi_ppCnt set_ppCnt]. unfold int_add.
    rewrite wrap64_small by lia.
    unfold PeInstMaxPingpongCnt. case_decide; [lia|].
    unfold ret. do 2 f_equal.
    + by rewrite replicate_S_end.
    + f_equal.
      * unfold set_ppCnt. cbn. f_equal. lia.
      * rewrite replicate_S_end, app_assoc. reflexivity.
Qed.

(** C6: a received [Ping] sets [ppCnt] to 0; an expiry of the pingpong timer
    adds one to [ppCnt] and asks the peer manager to close the peer with
    [PeMgrEnoPingpongTh] exactly when the new [ppCnt] is above 8, and else
    asks for the next ping; so after a [Ping] the first eight expiries in a
    row ask for no close and the ninth does. *)
Theorem pingpong_counter_threshold (env : Peer.Env) (inst : peerInstance)
  (o : list Peer.effect) (seq : Z) :
  (∃ eno, piP2pPingProc env seq (mkWorld inst o) =
            Ok (eno, mkWorld (set_ppCnt inst 0) (o ++ [SendPong seq]))) ∧
  piPingpongTimerHandler env (mkWorld inst o) =
    (let cnt := int_add (pi_ppCnt inst) 1 in
     if decide (PeInstMaxPingpongCnt < cnt)
     then Ok (PeMgrEnoPingpongTh,
              mkWorld (set_ppEno (set_ppCnt inst cnt) PeMgrEnoPingpongTh)
                (o ++ [pingpong_close inst]))
     else Ok (PeMgrEnoNone,
              mkWorld (set_ppCnt inst cnt) (o ++ [pingpong_req env inst]))) ∧
  pingpong_ticks env 8 (mkWorld (set_ppCnt inst 0) o) =
    Ok (replicate 8 PeMgrEnoNone,
        mkWorld (set_ppCnt inst 8) (o ++ replicate 8 (pingpong_req env inst))) ∧
  pingpong_ticks env 9 (mkWorld (set_ppCnt inst 0) o) =
    Ok (replicate 8 PeMgrEnoNone ++ [PeMgrEnoPingpongTh],
        mkWorld (set_ppEno (set_ppCnt inst 9) PeMgrEnoPingpongTh)
          (o ++ replicate 8 (pingpong_req env inst) ++ [pingpong_close inst])).
Proof.
  split; [|split; [apply piPingpongTimerHandler_step | split]].
  - unfold piP2pPingProc, mbind, getMgr, putMgr, emit, ret. cbn.
    case_decide; eauto.
  - apply (pingpong_ticks_quiet env inst o 8). lia.
  - change (pingpong_ticks env 9) with
      (rs ⇐ pingpong_ticks env 8; r ⇐ piPingpongTimerHandler env; ret (rs ++ [r])).
    unfold mbind at 1. rewrite (pingpong_ticks_quiet env inst o 8) by lia.
    unfold mbind at 1. rewrite piPingpongTimerHandler_step.
    cbn [pi_ppCnt set_ppCnt]. unfold int_add.
    rewrite wrap64_small by (cbn; lia).
    unfold PeInstMaxPingpongCnt. case_decide; [|cbn in *; lia].
    unfold ret. do 3 f_equal. by rewrite app_assoc.
Qed.

(** ** Peer manager: killing an instance *)

(** Unfolds the steps of a peer manager handler that runs on a given
    world. *)
Ltac run_peer :=
  repeat (unfold Peer.send, Peer.store, Peer.deref, updateStaticStatus;
          unfold mbind, emit, emits, putMgr, getMgr, ret, lift, throw;
          cbn [forM mgr out]).

Lemma sent_app (ev : Peer.event) (o1 o2 : list Peer.effect) :
  sent ev (o1 ++ o2) = sent ev o1 ++ sent ev o2.
Proof. unfold sent. apply omap_app. Qed.


(** Rules for the steps of a peer manager handler. *)
Lemma runs_deref (a : InstPtr) (i : peerInstance)
  (w : world PeerManager Peer.effect)
  (Q : peerInstance → world PeerManager Peer.effect → Prop) :
  insts (mgr w) !! a = Some i → Q i w → runs (deref a) w Q.
Proof.
  intros Hi HQ. exists i, w. split; [|exact HQ].
  unfold deref, mbind, getMgr, ret. by rewrite Hi.
Qed.

Lemma runs_store (a : InstPtr) (i : peerInstance)
  (w : world PeerManager Peer.effect)
  (Q : unit → world PeerManager Peer.effect → Prop) :
  Q tt (mkWorld (set_insts (mgr w) (<[a := i]> (insts (mgr w)))) (out w)) →
  runs (store a i) w Q.
Proof. intros HQ. eexists _, _. split; [reflexivity | exact HQ]. Qed.

Lemma runs_send (to : option Task) (ev : Peer.event) (b : Peer.body)
  (w : world PeerManager Peer.effect)
  (Q : unit → world PeerManager Peer.effect → Prop) :
  Q tt (mkWorld (mgr w) (out w ++ [Peer.SchSendMessage (Peer.ptnMe (mgr w)) to ev b])) →
  runs (Peer.send to ev b) w Q.
Proof. intros HQ. eexists _, _. split; [reflexivity | exact HQ]. Qed.

Ltac peer_fields :=
  cbn [cfg Peer.ptnMe ptnLsn ibInstSeq insts nextInst peers nodes workers
       wrkNum ibpNum obpNum ibpTotalNum indChan staticsStatus
       set_ibInstSeq set_insts set_nextInst set_peers set_nodes set_workers
       set_wrkNum set_ibpNum set_obpNum set_ibpTotalNum set_indChan
       set_staticsStatus mgr out from_option] in *.

(** Deleting an absent entry of a map of maps changes nothing. *)
Lemma delete2_absent (n : gmap SubNetworkID (gmap PeerIdEx InstPtr))
  (snid : SubNetworkID) (idEx : PeerIdEx) :
  lookup2 n snid idEx = None → delete2 n snid idEx = n.
Proof.
  unfold lookup2, delete2. destruct (n !! snid) as [inner|] eqn:E; [|done].
  cbn. intros Hn. rewrite delete_id by done. by apply insert_id.
Qed.

Section Tracks.

Context (m : PeerManager) (o : list Peer.effect) (a : InstPtr).
Implicit Types w : world PeerManager Peer.effect.

Lemma tracks_init : insts m !! a ≠ None →
  tracks m o a (peers m) (nodes m) (ibpTotalNum m) (ibpNum m) [] (mkWorld m o).
Proof.
  intros Ha. constructor; cbn [mgr out]; try reflexivity.
  - by destruct (insts m !! a); [eexists|].
  - exists []. by rewrite app_nil_r.
Qed.

(** A step that changes none of the followed fields. *)
Lemma tracks_frame pe nd tot ibp st w (m' : PeerManager) pe' nd' tot' ibp' :
  tracks m o a pe nd tot ibp st w →
  cfg m' = cfg (mgr w) → Peer.ptnMe m' = Peer.ptnMe (mgr w) →
  ptnLsn m' = ptnLsn (mgr w) → insts m' = insts (mgr w) →
  peers m' = pe' → nodes m' = nd' → ibpTotalNum m' = tot' →
  ibpNum m' = ibp' →
  tracks m o a pe' nd' tot' ibp' st (mkWorld m' (out w)).
Proof.
  intros [] Hc Hme Hlsn Hi Hp Hnd Ht Hn.
  constructor; cbn [mgr out]; try congruence.
  intros b Hb. rewrite Hi. auto.
Qed.

Lemma tracks_store pe nd tot ibp st w (i : peerInstance) :
  tracks m o a pe nd tot ibp st w →
  tracks m o a pe nd tot ibp st
    (mkWorld (set_insts (mgr w) (<[a := i]> (insts (mgr w)))) (out w)).
Proof.
  intros []. constructor; peer_fields; try assumption.
  - rewrite lookup_insert_eq. by eexists.
  - intros b Hb. rewrite lookup_insert_ne by done. auto.
Qed.

(** An effect that is no start, stop or outbound request. *)
Lemma tracks_emit pe nd tot ibp st w (e : Peer.effect) :
  tracks m o a pe nd tot ibp st w →
  sent_as EvPeLsnStartReq e = None → sent_as EvPeLsnStopReq e = None →
  sent_as EvPeOutboundReq e = None →
  tracks m o a pe nd tot ibp st (mkWorld (mgr w) (out w ++ [e])).
Proof.
  intros [? ? ? ? ? ? ? ? ? (ok & Ho & H1 & H2 & H3)] E1 E2 E3.
  constructor; cbn [mgr out]; try assumption.
  exists (ok ++ [e]). rewrite Ho, app_assoc, !sent_app, H1, H2, H3.
  unfold sent. cbn [omap list_omap]. rewrite E1, E2, E3.
  rewrite app_nil_r. done.
Qed.

(** The start request to the listener. *)
Lemma tracks_start pe nd tot ibp w (me to : option Task) :
  tracks m o a pe nd tot ibp [] w →
  tracks m o a pe nd tot ibp [(to, BodyNil)]
    (mkWorld (mgr w)
       (out w ++ [Peer.SchSendMessage me to EvPeLsnStartReq BodyNil])).
Proof.
  intros [? ? ? ? ? ? ? ? ? (ok & Ho & H1 & H2 & H3)].
  constructor; cbn [mgr out]; try assumption.
  eexists (ok ++ [_]). rewrite Ho, app_assoc, !sent_app, H1, H2, H3.
  done.
Qed.

Lemma runs_updateStaticStatus pe nd tot ibp st w snid idEx v
  (Q : unit → world PeerManager Peer.effect → Prop) :
  tracks m o a pe nd tot ibp st w →
  (∀ w1, tracks m o a pe nd tot ibp st w1 → Q tt w1) →
  runs (updateStaticStatus snid idEx v) w Q.
Proof.
  intros Hw HQ. unfold updateStaticStatus.
  apply runs_bind, runs_getMgr.
  case_decide; [case_decide|]; [|by apply runs_ret, HQ..].
  apply runs_putMgr, HQ.
  eapply tracks_frame; [exact Hw|try reflexivity..]; by destruct Hw.
Qed.

End Tracks.

(** [peMgrKillInst] on the task of an inbound or outbound instance, with
    the direction of the instance. *)
Lemma peMgrKillInst_kills (env : Peer.Env) (m : PeerManager)
  (o : list Peer.effect) (ptn : Task) (a : InstPtr) (inst : peerInstance) :
  peers m !! ptn = Some a → insts m !! a = Some inst →
  pi_dir inst = PeInstDirInbound ∨ pi_dir inst = PeInstDirOutbound →
  runs (peMgrKillInst env (Some ptn) (pi_dir inst)) (mkWorld m o)
    (fun eno w => eno = PeMgrEnoNone ∧ killed m o ptn a inst w).
Proof.
  intros Hp Hi Hdir.
  assert (H0 : tracks m o a (peers m) (nodes m) (ibpTotalNum m) (ibpNum m) []
                 (mkWorld m o)).
  { apply tracks_init. by rewrite Hi. }
  unfold peMgrKillInst. apply runs_bind, runs_getMgr. cbn [mgr].
  change (Some ptn ≫= (λ t : Task, peers m !! t)) with (peers m !! ptn).
  rewrite Hp. apply runs_bind. eapply runs_deref; [exact Hi|].
  case_decide; [congruence|]. cbv zeta.
  (* the pingpong timer *)
  eapply (runs_seq (fun _ => tracks m o a (peers m) (nodes m) (ibpTotalNum m) (ibpNum m) [])).
  { case_decide; [|by apply runs_ret].
    apply runs_bind, runs_emit, runs_store.
    apply tracks_store. by apply tracks_emit. }
  intros _ w1 H1.
  (* the connection *)
  eapply (runs_seq (fun _ => tracks m o a (peers m) (nodes m) (ibpTotalNum m) (ibpNum m) [])).
  { destruct (pi_conn inst); [|by apply runs_ret].
    apply runs_emit. by apply tracks_emit. }
  clear w1 H1. intros _ w1 H1.
  (* the workers *)
  apply runs_bind, runs_getMgr.
  eapply (runs_seq (fun _ => tracks m o a (peers m) (nodes m) (ibpTotalNum m) (ibpNum m) [])).
  { case_decide; [|by apply runs_ret].
    apply runs_putMgr. eapply tracks_frame; [exact H1|try reflexivity..];
      by destruct H1. }
  clear w1 H1. intros _ w1 H1.
  (* the direction *)
  apply runs_bind, runs_getMgr.
  eapply (runs_seq (fun _ => tracks m o a (delete ptn (peers m))
                     (delete2 (nodes m) (pi_snid inst)
                        (node_ID (pi_node inst), pi_dir inst))
                     (killed_total m inst) (killed_ibpNum m inst) [])).
  { unfold killed_total, killed_ibpNum.
    destruct Hdir as [Hd|Hd]; rewrite Hd;
      unfold PeInstDirInbound, PeInstDirOutbound;
      repeat (case_decide; try done; try lia).
    all: apply runs_putMgr; cbv zeta.
    all: repeat case_decide; try tauto.
    all: eapply tracks_frame; [exact H1|peer_fields; try reflexivity..].
    all: destruct H1; peer_fields; try congruence.
    all: rewrite delete2_absent; [congruence|].
    all: apply eq_None_not_Some; congruence. }
  clear w1 H1. intros _ w1 H1.
  (* the static status *)
  apply runs_bind. eapply runs_updateStaticStatus; [exact H1|].
  clear w1 H1. intros w1 H1.
  (* the accepter *)
  apply runs_bind, runs_getMgr.
  eapply (runs_seq (fun _ => tracks m o a (delete ptn (peers m))
                     (delete2 (nodes m) (pi_snid inst)
                        (node_ID (pi_node inst), pi_dir inst))
                     (killed_total m inst) (killed_ibpNum m inst)
                     (killed_starts m inst))).
  { unfold killed_starts.
    rewrite (tr_cfg _ _ _ _ _ _ _ _ _ H1), (tr_total _ _ _ _ _ _ _ _ _ H1),
      (tr_ptnLsn _ _ _ _ _ _ _ _ _ H1).
    case_decide; [|by apply runs_ret].
    apply runs_send. by apply tracks_start. }
  clear w1 H1. intros _ w1 H1.
  (* the state *)
  destruct (tr_inst _ _ _ _ _ _ _ _ _ H1) as [i1 Hi1].
  apply runs_bind. eapply runs_deref; [exact Hi1|].
  apply runs_bind, runs_store, runs_bind, runs_emit, runs_ret.
  split; [reflexivity|]. split.
  - apply tracks_emit; [|reflexivity..]. by apply tracks_store.
  - peer_fields. by rewrite lookup_insert_eq.
Qed.

(** ** Peer manager: two instances of one node *)




(** ** Peer manager: the inbound counters *)

(** An accepted connection: the instance made for it, the counters and the
    stop request to the listener. *)
Lemma peMgrLsnConnAcceptedInd_accepts (env : Peer.Env) (m : PeerManager)
  (o : list Peer.effect) (t : Task) :
  SchCreateTask env (int_add (ibInstSeq m) 1) = (SchEnoNone, Some t) →
  ∃ w, peMgrLsnConnAcceptedInd env (mkWorld m o) = Ok (PeMgrEnoNone, w)
       ∧ peers (mgr w) = <[t := nextInst m]> (peers m)
       ∧ (pi_state <$> insts (mgr w) !! nextInst m) = Some peInstStateAccepted
       ∧ ibpTotalNum (mgr w) = int_add (ibpTotalNum m) 1
       ∧ ibpNum (mgr w) = ibpNum m
       ∧ ∃ ok, out w = o ++ ok
               ∧ sent EvPeHandshakeReq ok = [(Some t, BodyNil)]
               ∧ sent EvPeLsnStopReq ok =
                   (if decide (ibpNumTotal (cfg m) ≤ int_add (ibpTotalNum m) 1
                               ∧ noAccept (cfg m) = false)
                    then [(ptnLsn m, BodyNil)] else [])
               ∧ sent EvPeLsnStartReq ok = [].
Proof.
  intros Hc. unfold peMgrLsnConnAcceptedInd. run_peer. rewrite Hc. run_peer.
  peer_fields.
  destruct (decide (ibpNumTotal (cfg m) ≤ int_add (ibpTotalNum m) 1)) as [Hcap|Hcap];
    [destruct (noAccept (cfg m)); cbn [negb]|].
  all: eexists; split; [reflexivity|]; peer_fields.
  all: rewrite lookup_insert_eq.
  all: repeat (split; [reflexivity|]).
  all: try rewrite <- app_assoc.
  all: eexists; split; [reflexivity|].
  all: split; [reflexivity|]; split; [|reflexivity].
  - by rewrite decide_False by (intros [_ ?]; done).
  - by rewrite decide_True.
  - by rewrite decide_False by tauto.
Qed.

(** The checks of [peMgrHandshakeRsp] admit an inbound instance on a sub
    network that is not the static one when the sub network has room for an
    inbound peer, the node is no worker yet and has no outbound instance in
    [nodes]: the instance is entered into [nodes] and [workers], and
    [ibpNum] of the sub network goes up by one. *)
Lemma handshake_inbound_admits (env : Peer.Env) (m : PeerManager)
  (o : list Peer.effect) (a : InstPtr) (rsp : msgHandshakeRsp)
  (maxInbound : Z) (n wk : gmap PeerIdEx InstPtr) :
  isStaticSubNetId (cfg m) (hr_snid rsp) = false →
  count (ibpNum m) (hr_snid rsp) < maxInbound →
  nodes m !! hr_snid rsp = Some n →
  workers m !! hr_snid rsp = Some wk →
  wk !! ((node_ID (hr_peNode rsp), PeInstInPos) : PeerIdEx) = None →
  n !! ((node_ID (hr_peNode rsp), PeInstOutPos) : PeerIdEx) = None →
  handshake_inbound env a rsp maxInbound (mkWorld m o) =
    Ok (None,
        mkWorld
          (set_ibpNum
             (set_workers
                (set_nodes m
                   (<[hr_snid rsp :=
                        <[(node_ID (hr_peNode rsp), PeInstInPos) := a]> n]>
                      (nodes m)))
                (<[hr_snid rsp :=
                     <[(node_ID (hr_peNode rsp), PeInstInPos) := a]> wk]>
                   (workers m)))
             (incr (ibpNum m) (hr_snid rsp)))
          o).
Proof.
  intros Hst Hroom Hn Hw Hwk Hnd.
  unfold handshake_inbound, instStateCmpKill. run_peer. rewrite Hst.
  rewrite decide_False by lia.
  unfold lookup2. rewrite Hw. cbn [default from_option id]. rewrite Hwk.
  rewrite decide_False by (intros [? ?]; discriminate).
  run_peer. rewrite Hn. cbn [default from_option id]. rewrite Hnd.
  run_peer. rewrite decide_False by discriminate.
  run_peer. unfold insert2. rewrite Hn, Hw. reflexivity.
Qed.

(** C4 as stated fails: after power on, one accepted connection makes
    [ibpTotalNum] 1 while no [ibpNum] counter has moved. *)
Lemma inbound_total_is_not_the_sum :
  ¬ (∀ (c : peMgrConfig) (ptn lsn : option Task) (anySubNet : SubNetworkID)
       (anyMax : Z * Z * Z) (m : PeerManager),
       reachable (peMgrPoweron c ptn lsn anySubNet anyMax) m →
       ibpTotalNum m = ibpNumSum m ∧ ibpTotalNum m ≤ ibpNumTotal (cfg m)).
Proof.
  intros H.
  assert (Hone : ∃ m, reachable Samples.pmOn m
                      ∧ ibpTotalNum m = 1 ∧ ibpNumSum m = 0).
  { destruct (peMgrLsnConnAcceptedInd_accepts Samples.envP Samples.pmOn []
                101%N eq_refl)
      as ([m o] & Hrun & _ & _ & Ht & Hn & _).
    exists m. split; [|split].
    - eapply (reach_step _ _ Samples.envP EvPeLsnConnAcceptedInd
                BodyConnAcceptedInd [] o SchEnoNone); [apply reach_init|].
      unfold peerMgrProc, mbind. rewrite Hrun. reflexivity.
    - exact Ht.
    - unfold ibpNumSum. cbn [mgr] in Hn. rewrite Hn. reflexivity. }
  destruct Hone as (m & Hr & Ht & Hs).
  destruct (H Samples.cfgA (Some Samples.taskPeMgr) (Some Samples.taskLsn)
              [xff; xff] (0, 0, 0) m Hr) as [Heq _].
  rewrite Ht, Hs in Heq. discriminate.
Qed.

(** C4, as the code has it: [ibpTotalNum] counts the inbound connections
    from their acceptance on, [ibpNum] of a sub network the inbound
    instances admitted after the handshake.  An accepted connection adds
    one to [ibpTotalNum], whatever the cap, and leaves [ibpNum], and a stop
    request goes to the listener exactly when the new total has reached
    [ibpNumTotal] and [noAccept] is off.  The admission of an inbound
    instance adds one to [ibpNum] of its sub network and leaves
    [ibpTotalNum].  The kill of an inbound instance takes one from
    [ibpTotalNum], takes one from [ibpNum] of its sub network exactly when
    the instance was activated or killing, and a start request goes to the
    listener exactly when [noAccept] is off and the new total is below
    [ibpNumTotal]. *)
Theorem inbound_counters (env : Peer.Env) (m : PeerManager)
  (o : list Peer.effect) :
  (∀ t : Task,
     SchCreateTask env (int_add (ibInstSeq m) 1) = (SchEnoNone, Some t) →
     ∃ w, peMgrLsnConnAcceptedInd env (mkWorld m o) = Ok (PeMgrEnoNone, w)
          ∧ ibpTotalNum (mgr w) = int_add (ibpTotalNum m) 1
          ∧ ibpNum (mgr w) = ibpNum m
          ∧ ∃ ok, out w = o ++ ok
                  ∧ sent EvPeLsnStopReq ok =
                      (if decide (ibpNumTotal (cfg m) ≤ int_add (ibpTotalNum m) 1
                                  ∧ noAccept (cfg m) = false)
                       then [(ptnLsn m, BodyNil)] else [])
                  ∧ sent EvPeLsnStartReq ok = [])
  ∧ (∀ (a : InstPtr) (rsp : msgHandshakeRsp) (maxInbound : Z)
       (n wk : gmap PeerIdEx InstPtr),
       isStaticSubNetId (cfg m) (hr_snid rsp) = false →
       count (ibpNum m) (hr_snid rsp) < maxInbound →
       nodes m !! hr_snid rsp = Some n →
       workers m !! hr_snid rsp = Some wk →
       wk !! ((node_ID (hr_peNode rsp), PeInstInPos) : PeerIdEx) = None →
       n !! ((node_ID (hr_peNode rsp), PeInstOutPos) : PeerIdEx) = None →
       ∃ w, handshake_inbound env a rsp maxInbound (mkWorld m o) = Ok (None, w)
            ∧ ibpTotalNum (mgr w) = ibpTotalNum m
            ∧ ibpNum (mgr w) = incr (ibpNum m) (hr_snid rsp)
            ∧ out w = o)
  ∧ (∀ (ptn : Task) (a : InstPtr) (inst : peerInstance),
       peers m !! ptn = Some a → insts m !! a = Some inst →
       pi_dir inst = PeInstDirInbound →
       ∃ w, peMgrKillInst env (Some ptn) PeInstDirInbound (mkWorld m o)
              = Ok (PeMgrEnoNone, w)
            ∧ ibpTotalNum (mgr w) = int_sub (ibpTotalNum m) 1
            ∧ ibpNum (mgr w) =
                (if decide (pi_state inst = peInstStateActivated
                            ∨ pi_state inst = peInstStateKilling)
                 then decr (ibpNum m) (pi_snid inst) else ibpNum m)
            ∧ ∃ ok, out w = o ++ ok
                    ∧ sent EvPeLsnStartReq ok =
                        (if decide (noAccept (cfg m) = false
                                    ∧ int_sub (ibpTotalNum m) 1
                                      < ibpNumTotal (cfg m))
                         then [(ptnLsn m, BodyNil)] else [])
                    ∧ sent EvPeLsnStopReq ok = []).
Proof.
  split; [|split].
  - intros t Hc.
    destruct (peMgrLsnConnAcceptedInd_accepts env m o t Hc)
      as (w & Hrun & _ & _ & Ht & Hn & ok & Ho & _ & Hstop & Hstart).
    exists w. repeat split; try assumption. by exists ok.
  - intros a rsp maxInbound n wk Hst Hroom Hn Hw Hwk Hnd.
    eexists. split; [by eapply handshake_inbound_admits|].
    by repeat split.
  - intros ptn a inst Hp Hi Hd.
    destruct (peMgrKillInst_kills env m o ptn a inst Hp Hi (or_introl Hd))
      as (eno & w & Hrun & -> & [? ? ? ? ? Ht Hn ? ? (ok & Ho & Hs1 & Hs2 & _)] & _).
    rewrite Hd in Hrun. exists w. split; [exact Hrun|].
    unfold killed_total, killed_ibpNum, killed_starts, killed_total in *.
    rewrite Hd in *. rewrite decide_True in * by reflexivity.
    split; [exact Ht|]. split.
    + rewrite Hn. repeat case_decide; tauto.
    + exists ok. by repeat split.
Qed.

Lemma inbound_counters_witness :
  (∃ w, peMgrLsnConnAcceptedInd Samples.envP (mkWorld Samples.pmOn [])
          = Ok (PeMgrEnoNone, w)
        ∧ ibpTotalNum (mgr w) = 1 ∧ ibpNum (mgr w) = ibpNum Samples.pmOn)
  ∧ (∃ w, handshake_inbound Samples.envP 0%N
            (mkHandshakeRsp PeMgrEnoNone PeInstDirInbound Samples.snidA
               Samples.nodeB (Some Samples.taskInA))
            2 (mkWorld (Samples.pmBoth 4 5) [])
            = Ok (None, w)
          ∧ ibpTotalNum (mgr w) = 1
          ∧ ibpNum (mgr w) = incr (ibpNum (Samples.pmBoth 4 5)) Samples.snidA)
  ∧ (∃ w, peMgrKillInst Samples.envP (Some Samples.taskInA) PeInstDirInbound
            (mkWorld (Samples.pmBoth 5 5) [])
            = Ok (PeMgrEnoNone, w)
          ∧ ibpTotalNum (mgr w) = 0
          ∧ ibpNum (mgr w) = decr (ibpNum (Samples.pmBoth 5 5)) Samples.snidA).
Proof.
  split; [|split].
  - destruct (inbound_counters Samples.envP Samples.pmOn []) as [Hacc _].
    destruct (Hacc 101%N) as (w & Hrun & Ht & Hn & _); [reflexivity|].
    exists w. split; [exact Hrun|]. split; [|exact Hn].
    rewrite Ht. reflexivity.
  - destruct (inbound_counters Samples.envP (Samples.pmBoth 4 5) [])
      as [_ [Hadm _]].
    destruct (Hadm 0%N
                (mkHandshakeRsp PeMgrEnoNone PeInstDirInbound Samples.snidA
                   Samples.nodeB (Some Samples.taskInA))
                2 {[ (Samples.idA, PeInstOutPos) := 1%N ]} ∅)
      as (w & Hrun & Ht & Hn & _); [reflexivity..|].
    exists w. split; [exact Hrun|]. split; [|exact Hn].
    rewrite Ht. reflexivity.
  - destruct (inbound_counters Samples.envP (Samples.pmBoth 5 5) [])
      as [_ [_ Hkill]].
    destruct (Hkill Samples.taskInA 0%N (Samples.instInA 5))
      as (w & Hrun & Ht & Hn & _); [reflexivity..|].
    exists w. split; [exact Hrun|]. split.
    + rewrite Ht. reflexivity.
    + rewrite Hn. rewrite decide_True; [reflexivity|]. left. reflexivity.
Defined.

(** ** Peer manager: [peMgrKillInst] *)

(** [peMgrKillInst] does nothing when the task is not in [peers]
    ([PeMgrEnoNotfound]) or when the direction passed is not the one of the
    instance ([PeMgrEnoParameter]). *)
Theorem peMgrKillInst_refuses (env : Peer.Env) (m : PeerManager)
  (o : list Peer.effect) (ptn : option Task) (dir : Z) :
  (ptn ≫= (fun t => peers m !! t) = None →
   peMgrKillInst env ptn dir (mkWorld m o) = Ok (PeMgrEnoNotfound, mkWorld m o))
  ∧ (∀ (a : InstPtr) (inst : peerInstance),
       ptn ≫= (fun t => peers m !! t) = Some a →
       insts m !! a = Some inst →
       pi_dir inst ≠ dir →
       peMgrKillInst env ptn dir (mkWorld m o)
         = Ok (PeMgrEnoParameter, mkWorld m o)).
Proof.
  split.
  - intros Hno. unfold peMgrKillInst. run_peer. by rewrite Hno.
  - intros a inst Hp Hi Hdir. unfold peMgrKillInst. run_peer.
    rewrite Hp. run_peer. rewrite Hi. by rewrite decide_True.
Qed.

Lemma peMgrKillInst_refuses_witness :
  peMgrKillInst Samples.envP (Some 99%N) PeInstDirInbound
    (mkWorld (Samples.pmBoth 4 5) [])
    = Ok (PeMgrEnoNotfound, mkWorld (Samples.pmBoth 4 5) [])
  ∧ peMgrKillInst Samples.envP (Some Samples.taskInA) PeInstDirOutbound
      (mkWorld (Samples.pmBoth 4 5) [])
      = Ok (PeMgrEnoParameter, mkWorld (Samples.pmBoth 4 5) []).
Proof.
  split.
  - apply (peMgrKillInst_refuses Samples.envP (Samples.pmBoth 4 5) []
             (Some 99%N) PeInstDirInbound). reflexivity.
  - destruct (peMgrKillInst_refuses Samples.envP (Samples.pmBoth 4 5) []
                (Some Samples.taskInA) PeInstDirOutbound) as [_ Hdir].
    apply (Hdir 0%N (Samples.instInA 4));
      [reflexivity | reflexivity | discriminate].
Defined.

(** [peMgrKillInst] on the task of an inbound or outbound instance, with
    its direction: the call returns [PeMgrEnoNone]; the task leaves [peers]
    and the instance leaves [nodes]; the instance is in state killed and the
    other instances are as before; an inbound instance takes one from
    [ibpTotalNum], and one from [ibpNum] of its sub network when it was
    activated or killing, an outbound one leaves both; a start request goes
    to the listener exactly when [noAccept] is off and [ibpTotalNum] is
    then below the cap; no stop request and no outbound request are
    sent. *)
Theorem peMgrKillInst_effect (env : Peer.Env) (m : PeerManager)
  (o : list Peer.effect) (ptn : Task) (a : InstPtr) (inst : peerInstance) :
  peers m !! ptn = Some a → insts m !! a = Some inst →
  pi_dir inst = PeInstDirInbound ∨ pi_dir inst = PeInstDirOutbound →
  ∃ w, peMgrKillInst env (Some ptn) (pi_dir inst) (mkWorld m o)
         = Ok (PeMgrEnoNone, w)
       ∧ cfg (mgr w) = cfg m
       ∧ peers (mgr w) = delete ptn (peers m)
       ∧ nodes (mgr w) =
           delete2 (nodes m) (pi_snid inst) (node_ID (pi_node inst), pi_dir inst)
       ∧ (pi_state <$> insts (mgr w) !! a) = Some peInstStateKilled
       ∧ (∀ b, b ≠ a → insts (mgr w) !! b = insts m !! b)
       ∧ ibpTotalNum (mgr w) =
           (if decide (pi_dir inst = PeInstDirInbound)
            then int_sub (ibpTotalNum m) 1 else ibpTotalNum m)
       ∧ ibpNum (mgr w) =
           (if decide (pi_dir inst = PeInstDirInbound
                       ∧ (pi_state inst = peInstStateActivated
                          ∨ pi_state inst = peInstStateKilling))
            then decr (ibpNum m) (pi_snid inst) else ibpNum m)
       ∧ ∃ ok, out w = o ++ ok
               ∧ sent EvPeLsnStartReq ok =
                   (if decide (noAccept (cfg m) = false
                               ∧ ibpTotalNum (mgr w) < ibpNumTotal (cfg m))
                    then [(ptnLsn m, BodyNil)] else [])
               ∧ sent EvPeLsnStopReq ok = []
               ∧ sent EvPeOutboundReq ok = [].
Proof.
  intros Hp Hi Hdir.
  destruct (peMgrKillInst_kills env m o ptn a inst Hp Hi Hdir)
    as (eno & w & Hrun & -> & [Hc _ _ Hpe Hnd Ht Hn _ Hoth Hout] & Hst).
  exists w. split; [exact Hrun|].
  repeat (split; [assumption|]).
  destruct Hout as (ok & Ho & Hs1 & Hs2 & Hs3).
  exists ok. split; [exact Ho|]. split; [|by split].
  rewrite Hs1, Ht. reflexivity.
Qed.

Lemma peMgrKillInst_effect_witness :
  ∃ w, peMgrKillInst Samples.envP (Some Samples.taskOutA) PeInstDirOutbound
         (mkWorld (Samples.pmBoth 4 5) [])
         = Ok (PeMgrEnoNone, w)
       ∧ peers (mgr w) = delete Samples.taskOutA (peers (Samples.pmBoth 4 5))
       ∧ (pi_state <$> insts (mgr w) !! 1%N) = Some peInstStateKilled
       ∧ insts (mgr w) !! 0%N = Some (Samples.instInA 4)
       ∧ ibpTotalNum (mgr w) = 1.
Proof.
  destruct (peMgrKillInst_effect Samples.envP (Samples.pmBoth 4 5) []
              Samples.taskOutA 1%N (Samples.instOutA 5))
    as (w & Hrun & _ & Hpe & _ & Hst & Hoth & Ht & _);
    [reflexivity | reflexivity | by right |].
  exists w. split; [exact Hrun|]. split; [exact Hpe|]. split; [exact Hst|].
  split; [by rewrite Hoth | exact Ht].
Defined.

(** [peMgrKillInst], followed for the workers and the queue of
    indications. *)
Lemma peMgrKillInst_tracks_workers (env : Peer.Env) (m : PeerManager)
  (o : list Peer.effect) (ptn : Task) (a : InstPtr) (inst : peerInstance) :
  peers m !! ptn = Some a → insts m !! a = Some inst →
  pi_dir inst = PeInstDirInbound ∨ pi_dir inst = PeInstDirOutbound →
  runs (peMgrKillInst env (Some ptn) (pi_dir inst)) (mkWorld m o)
    (fun eno w =>
       eno = PeMgrEnoNone
       ∧ tracks_workers a
           (delete2 (workers m) (pi_snid inst)
              (node_ID (pi_node inst), pi_dir inst))
           (if decide (is_Some (lookup2 (workers m) (pi_snid inst)
                                  (node_ID (pi_node inst), pi_dir inst)))
            then decr (wrkNum m) (pi_snid inst) else wrkNum m)
           (if decide (pi_dir inst = PeInstDirOutbound)
            then decr (obpNum m) (pi_snid inst) else obpNum m)
           (indChan m) w).
Proof.
  intros Hp Hi Hdir.
  set (snid := pi_snid inst).
  set (idEx := (node_ID (pi_node inst), pi_dir inst) : PeerIdEx).
  set (wk' := delete2 (workers m) snid idEx).
  set (wn' := if decide (is_Some (lookup2 (workers m) snid idEx))
              then decr (wrkNum m) snid else wrkNum m).
  set (ob' := if decide (pi_dir inst = PeInstDirOutbound)
              then decr (obpNum m) snid else obpNum m).
  assert (H0 : tracks_workers a (workers m) (wrkNum m) (obpNum m) (indChan m) (mkWorld m o)).
  { constructor; try reflexivity. cbn [mgr]. by rewrite Hi. }
  unfold peMgrKillInst. apply runs_bind, runs_getMgr. cbn [mgr].
  change (Some ptn ≫= (λ t : Task, peers m !! t)) with (peers m !! ptn).
  rewrite Hp. apply runs_bind. eapply runs_deref; [exact Hi|].
  case_decide; [congruence|]. cbv zeta. fold snid idEx.
  (* the pingpong timer *)
  eapply (runs_seq (fun _ => tracks_workers a (workers m) (wrkNum m) (obpNum m) (indChan m))).
  { case_decide; [|by apply runs_ret].
    apply runs_bind, runs_emit, runs_store.
    constructor; peer_fields; try reflexivity.
    rewrite lookup_insert_eq. by eexists. }
  intros _ w1 H1.
  (* the connection *)
  eapply (runs_seq (fun _ => tracks_workers a (workers m) (wrkNum m) (obpNum m) (indChan m))).
  { destruct (pi_conn inst); [|by apply runs_ret].
    apply runs_emit. by destruct H1. }
  clear w1 H1. intros _ w1 H1.
  (* the workers *)
  apply runs_bind, runs_getMgr.
  eapply (runs_seq (fun _ => tracks_workers a wk' wn' (obpNum m) (indChan m))).
  { destruct H1 as [Hw Hn Ho Hic Hin]. subst wk' wn'. rewrite Hw.
    case_decide as Hin2.
    - apply runs_putMgr. constructor; peer_fields; congruence.
    - apply runs_ret. constructor; try assumption.
      rewrite delete2_absent; [done|]. by apply eq_None_not_Some. }
  clear w1 H1. intros _ w1 H1.
  (* the direction *)
  apply runs_bind, runs_getMgr.
  eapply (runs_seq (fun _ => tracks_workers a wk' wn' ob' (indChan m))).
  { destruct H1 as [Hw Hn Ho Hic Hin]. subst ob'.
    destruct Hdir as [Hd|Hd]; rewrite Hd;
      unfold PeInstDirInbound, PeInstDirOutbound;
      repeat (case_decide; try done; try lia).
    all: apply runs_putMgr; cbv zeta.
    all: repeat case_decide.
    all: constructor; peer_fields; congruence. }
  clear w1 H1. intros _ w1 H1.
  (* the static status *)
  apply runs_bind.
  eapply (runs_conseq _ _ (fun _ => tracks_workers a wk' wn' ob' (indChan m))).
  { unfold updateStaticStatus. apply runs_bind, runs_getMgr.
    case_decide; [case_decide|]; [|by apply runs_ret..].
    apply runs_putMgr. by destruct H1. }
  clear w1 H1. intros _ w1 H1.
  (* the accepter *)
  apply runs_bind, runs_getMgr.
  eapply (runs_seq (fun _ => tracks_workers a wk' wn' ob' (indChan m))).
  { case_decide; [|by apply runs_ret].
    apply runs_send. by destruct H1. }
  clear w1 H1. intros _ w1 H1.
  (* the state *)
  destruct (tw_inst _ _ _ _ _ _ H1) as [i1 Hi1].
  apply runs_bind. eapply runs_deref; [exact Hi1|].
  apply runs_bind, runs_store, runs_bind, runs_emit, runs_ret.
  split; [reflexivity|]. destruct H1.
  constructor; peer_fields; try assumption.
  rewrite lookup_insert_eq. by eexists.
Qed.

(** The bookkeeping of workers in [peMgrKillInst]: an instance that is in
    [workers] leaves it and takes one from [wrkNum] of its sub network, an
    instance that is not leaves both as they are; an outbound instance takes
    one from [obpNum] of its sub network, whether it was a worker or not, an
    inbound one leaves [obpNum]. *)
Theorem peMgrKillInst_workers (env : Peer.Env) (m : PeerManager)
  (o : list Peer.effect) (ptn : Task) (a : InstPtr) (inst : peerInstance) :
  peers m !! ptn = Some a → insts m !! a = Some inst →
  pi_dir inst = PeInstDirInbound ∨ pi_dir inst = PeInstDirOutbound →
  ∃ w, peMgrKillInst env (Some ptn) (pi_dir inst) (mkWorld m o)
         = Ok (PeMgrEnoNone, w)
       ∧ workers (mgr w) =
           delete2 (workers m) (pi_snid inst)
             (node_ID (pi_node inst), pi_dir inst)
       ∧ wrkNum (mgr w) =
           (if decide (is_Some (lookup2 (workers m) (pi_snid inst)
                                  (node_ID (pi_node inst), pi_dir inst)))
            then decr (wrkNum m) (pi_snid inst) else wrkNum m)
       ∧ obpNum (mgr w) =
           (if decide (pi_dir inst = PeInstDirOutbound)
            then decr (obpNum m) (pi_snid inst) else obpNum m).
Proof.
  intros Hp Hi Hdir.
  destruct (peMgrKillInst_tracks_workers env m o ptn a inst Hp Hi Hdir)
    as (eno & w & Hrun & -> & []).
  exists w. by repeat split.
Qed.


Lemma peMgrKillInst_workers_witness :
  ∃ w, peMgrKillInst Samples.envP (Some Samples.taskOutA) PeInstDirOutbound
         (mkWorld (Samples.pmBoth 4 5) [])
         = Ok (PeMgrEnoNone, w)
       ∧ wrkNum (mgr w) = wrkNum (Samples.pmBoth 4 5)
       ∧ obpNum (mgr w) = decr (obpNum (Samples.pmBoth 4 5)) Samples.snidA.
Proof.
  destruct (peMgrKillInst_workers Samples.envP (Samples.pmBoth 4 5) []
              Samples.taskOutA 1%N (Samples.instOutA 5))
    as (w & Hrun & _ & Hwn & Hob);
    [reflexivity | reflexivity | by right |].
  exists w. split; [exact Hrun|]. split; [exact Hwn | exact Hob].
Defined.

(** ** Peer manager: an accepted connection *)

(** When the scheduler gives no task for the new instance,
    [peMgrLsnConnAcceptedInd] returns [PeMgrEnoScheduler]: the sequence
    number is used up and the instance allocated is dropped; nothing is
    entered into [peers], no counter moves, no message is sent and the
    connection is not closed. *)
Theorem peMgrLsnConnAcceptedInd_no_task (env : Peer.Env) (m : PeerManager)
  (o : list Peer.effect) :
  (∀ t, SchCreateTask env (int_add (ibInstSeq m) 1) ≠ (SchEnoNone, Some t)) →
  peMgrLsnConnAcceptedInd env (mkWorld m o) =
    Ok (PeMgrEnoScheduler,
        mkWorld (set_nextInst (set_ibInstSeq m (int_add (ibInstSeq m) 1))
                   (nextInst m + 1)%N) o).
Proof.
  intros Hno. unfold peMgrLsnConnAcceptedInd. run_peer.
  destruct (SchCreateTask env (int_add (ibInstSeq m) 1)) as [e [t|]] eqn:Hc;
    [destruct e|destruct e]; try reflexivity.
  by destruct (Hno t).
Qed.

Lemma peMgrLsnConnAcceptedInd_no_task_witness :
  peMgrLsnConnAcceptedInd Samples.envNoTask (mkWorld Samples.pmOn []) =
    Ok (PeMgrEnoScheduler,
        mkWorld (set_nextInst (set_ibInstSeq Samples.pmOn 1) 1%N) []).
Proof.
  apply (peMgrLsnConnAcceptedInd_no_task Samples.envNoTask Samples.pmOn []).
  intros t. discriminate.
Defined.

(** When the scheduler gives the task [t], the instance made for the
    connection is an inbound one in state accepted, with the default snid
    and node and its socket set; it is registered in [peers] under [t]; the
    instances that were there are not touched; the first message sent is
    the handshake request to [t]. *)
Theorem peMgrLsnConnAcceptedInd_registers (env : Peer.Env) (m : PeerManager)
  (o : list Peer.effect) (t : Task) :
  SchCreateTask env (int_add (ibInstSeq m) 1) = (SchEnoNone, Some t) →
  ∃ w, peMgrLsnConnAcceptedInd env (mkWorld m o) = Ok (PeMgrEnoNone, w)
       ∧ peers (mgr w) = <[t := nextInst m]> (peers m)
       ∧ insts (mgr w) =
           <[nextInst m :=
               mkInst (Some t) (Peer.ptnMe m) peInstStateAccepted
                 PeInstDirInbound (pi_snid (peerInstDefault env))
                 (pi_node (peerInstDefault env)) true (Peer.SchInvalidTid env)
                 0 0 PeMgrEnoNone]> (insts m)
       ∧ nextInst (mgr w) = (nextInst m + 1)%N
       ∧ nodes (mgr w) = nodes m ∧ workers (mgr w) = workers m
       ∧ ∃ ok, out w =
                 o ++ Peer.SchSendMessage (Peer.ptnMe m) (Some t)
                        EvPeHandshakeReq BodyNil :: ok.
Proof.
  intros Hc. unfold peMgrLsnConnAcceptedInd. run_peer. rewrite Hc. run_peer.
  peer_fields.
  destruct (decide (ibpNumTotal (cfg m) ≤ int_add (ibpTotalNum m) 1));
    [destruct (noAccept (cfg m)); cbn [negb]|].
  all: eexists; split; [reflexivity|]; peer_fields.
  all: repeat (split; [reflexivity|]).
  all: try rewrite <- app_assoc.
  all: eexists; cbn [app]; try reflexivity.
  all: by rewrite app_nil_r || reflexivity.
Qed.

Lemma peMgrLsnConnAcceptedInd_registers_witness :
  ∃ w, peMgrLsnConnAcceptedInd Samples.envP (mkWorld Samples.pmOn [])
         = Ok (PeMgrEnoNone, w)
       ∧ peers (mgr w) = <[101%N := 0%N]> (peers Samples.pmOn)
       ∧ nextInst (mgr w) = 1%N.
Proof.
  destruct (peMgrLsnConnAcceptedInd_registers Samples.envP Samples.pmOn []
              101%N eq_refl) as (w & Hrun & Hpe & _ & Hnext & _).
  exists w. split; [exact Hrun|]. split; [exact Hpe | exact Hnext].
Defined.

(** Two statements on one run hold together. *)
Lemma runs_and {S E A} (c : Go.M S E A) (w : world S E)
  (P Q : A → world S E → Prop) :
  runs c w P → runs c w Q → runs c w (fun a w' => P a w' ∧ Q a w').
Proof.
  intros (a & w1 & Hc & HP) (a' & w1' & Hc' & HQ).
  rewrite Hc in Hc'. injection Hc' as <- <-. by exists a, w1.
Qed.

Lemma runs_assoc {S E A B C} (c : Go.M S E A) (f : A → Go.M S E B)
  (g : B → Go.M S E C) (w : world S E) (Q : C → world S E → Prop) :
  runs (mbind (mbind c f) g) w Q → runs (mbind c (fun x => mbind (f x) g)) w Q.
Proof.
  intros (r & w' & Hrun & HQ). exists r, w'. split; [|exact HQ].
  rewrite <- Hrun. unfold mbind. by destruct (c w) as [[]|].
Qed.

(** [updateStaticStatus] followed by [peMgrKillInst], as the rejections of
    [peMgrHandshakeRsp] have it. *)
Lemma status_then_kill (env : Peer.Env) (m : PeerManager)
  (o : list Peer.effect) (snid : SubNetworkID) (idEx : PeerIdEx) (v : Z)
  (ptn : Task) (a : InstPtr) (inst : peerInstance) :
  peers m !! ptn = Some a → insts m !! a = Some inst →
  pi_dir inst = PeInstDirInbound ∨ pi_dir inst = PeInstDirOutbound →
  runs (updateStaticStatus snid idEx v;;
        peMgrKillInst env (Some ptn) (pi_dir inst)) (mkWorld m o)
    (fun eno w => eno = PeMgrEnoNone ∧ killed m o ptn a inst w).
Proof.
  intros Hp Hi Hdir. apply runs_bind.
  unfold updateStaticStatus. apply runs_bind, runs_getMgr. cbn [mgr].
  case_decide; [case_decide|].
  - apply runs_putMgr. cbn [out].
    eapply runs_conseq;
      [exact (peMgrKillInst_kills env (set_staticsStatus m _) o ptn a inst
                Hp Hi Hdir)|].
    intros eno w [-> [[] Hst]]. split; [done|]. split; [|done].
    by constructor.
  - apply runs_ret. by apply peMgrKillInst_kills.
  - apply runs_ret. by apply peMgrKillInst_kills.
Qed.

(** ** Peer manager: the handshake response *)

(** [peMgrHandshakeRsp] does nothing when the task of the response is not in
    [peers] ([PeMgrEnoNotfound]) or when the sub network or the direction of
    the response is not the one of the instance ([PeMgrEnoParameter]). *)
Theorem peMgrHandshakeRsp_refuses (env : Peer.Env) (m : PeerManager)
  (o : list Peer.effect) (rsp : msgHandshakeRsp) :
  (hr_ptn rsp ≫= (fun t => peers m !! t) = None →
   peMgrHandshakeRsp env rsp (mkWorld m o)
     = Ok (PeMgrEnoNotfound, mkWorld m o))
  ∧ (∀ (a : InstPtr) (inst : peerInstance),
       hr_ptn rsp ≫= (fun t => peers m !! t) = Some a →
       insts m !! a = Some inst →
       pi_snid inst ≠ hr_snid rsp ∨ pi_dir inst ≠ hr_dir rsp →
       peMgrHandshakeRsp env rsp (mkWorld m o)
         = Ok (PeMgrEnoParameter, mkWorld m o)).
Proof.
  split.
  - intros Hno. unfold peMgrHandshakeRsp. run_peer. by rewrite Hno.
  - intros a inst Hp Hi Hbad. unfold peMgrHandshakeRsp. run_peer.
    rewrite Hp. run_peer. rewrite Hi. by rewrite decide_True.
Qed.

Lemma peMgrHandshakeRsp_refuses_witness :
  peMgrHandshakeRsp Samples.envP
    (mkHandshakeRsp PeMgrEnoNone PeInstDirInbound Samples.snidA
       Samples.nodeA (Some 99%N))
    (mkWorld (Samples.pmBoth 4 5) [])
    = Ok (PeMgrEnoNotfound, mkWorld (Samples.pmBoth 4 5) [])
  ∧ peMgrHandshakeRsp Samples.envP
      (mkHandshakeRsp PeMgrEnoNone PeInstDirOutbound Samples.snidA
         Samples.nodeA (Some Samples.taskInA))
      (mkWorld (Samples.pmBoth 4 5) [])
      = Ok (PeMgrEnoParameter, mkWorld (Samples.pmBoth 4 5) []).
Proof.
  split.
  - apply (peMgrHandshakeRsp_refuses Samples.envP (Samples.pmBoth 4 5) []).
    reflexivity.
  - destruct (peMgrHandshakeRsp_refuses Samples.envP (Samples.pmBoth 4 5) []
                (mkHandshakeRsp PeMgrEnoNone PeInstDirOutbound Samples.snidA
                   Samples.nodeA (Some Samples.taskInA))) as [_ Hbad].
    apply (Hbad 0%N (Samples.instInA 4)); [reflexivity | reflexivity |].
    right. discriminate.
Defined.

(** A response that reports a failed handshake: the instance is killed (its
    task leaves [peers], its state is killed) and, for an outbound
    instance, an outbound request for its sub network is sent to the
    manager itself; the handler returns [PeMgrEnoNone]. *)
Theorem peMgrHandshakeRsp_failed (env : Peer.Env) (m : PeerManager)
  (o : list Peer.effect) (rsp : msgHandshakeRsp) (ptn : Task) (a : InstPtr)
  (inst : peerInstance) :
  hr_ptn rsp = Some ptn → peers m !! ptn = Some a → insts m !! a = Some inst →
  pi_snid inst = hr_snid rsp → pi_dir inst = hr_dir rsp →
  pi_dir inst = PeInstDirInbound ∨ pi_dir inst = PeInstDirOutbound →
  hr_result rsp ≠ PeMgrEnoNone →
  ∃ w, peMgrHandshakeRsp env rsp (mkWorld m o) = Ok (PeMgrEnoNone, w)
       ∧ peers (mgr w) = delete ptn (peers m)
       ∧ (pi_state <$> insts (mgr w) !! a) = Some peInstStateKilled
       ∧ (∀ b, b ≠ a → insts (mgr w) !! b = insts m !! b)
       ∧ ∃ ok, out w = o ++ ok
               ∧ sent EvPeOutboundReq ok =
                   (if decide (pi_dir inst = PeInstDirOutbound)
                    then [(Peer.ptnMe m, BodySnid (pi_snid inst))] else []).
Proof.
  intros Hptn Hp Hi Hsn Hd Hdir Hres.
  cut (runs (peMgrHandshakeRsp env rsp) (mkWorld m o)
         (fun eno w =>
            eno = PeMgrEnoNone
            ∧ peers (mgr w) = delete ptn (peers m)
            ∧ (pi_state <$> insts (mgr w) !! a) = Some peInstStateKilled
            ∧ (∀ b, b ≠ a → insts (mgr w) !! b = insts m !! b)
            ∧ ∃ ok, out w = o ++ ok
                    ∧ sent EvPeOutboundReq ok =
                        (if decide (pi_dir inst = PeInstDirOutbound)
                         then [(Peer.ptnMe m, BodySnid (pi_snid inst))]
                         else []))).
  { intros (eno & w & Hrun & -> & Hrest). by exists w. }
  unfold peMgrHandshakeRsp. apply runs_bind, runs_getMgr. cbn [mgr].
  rewrite Hptn.
  change (Some ptn ≫= (λ t : Task, peers m !! t)) with (peers m !! ptn).
  rewrite Hp. apply runs_bind. eapply runs_deref; [exact Hi|].
  rewrite decide_False by tauto. cbv zeta.
  rewrite decide_True by exact Hres.
  apply runs_assoc.
  eapply (runs_seq (fun eno w => eno = PeMgrEnoNone ∧ killed m o ptn a inst w)).
  { by apply status_then_kill. }
  intros eno w [-> [[? ? ? ? ? ? ? ? ? (ok & Ho & _ & _ & Hob)] Hst]].
  apply runs_bind.
  destruct (decide (pi_dir inst = PeInstDirOutbound)).
  - apply runs_send, runs_ret. cbn [mgr out].
    repeat (split; [done|]).
    exists (ok ++ [Peer.SchSendMessage (Peer.ptnMe (mgr w)) (Peer.ptnMe m)
                     EvPeOutboundReq (BodySnid (pi_snid inst))]).
    rewrite Ho, app_assoc. split; [done|].
    rewrite sent_app, Hob. reflexivity.
  - apply runs_ret, runs_ret. repeat (split; [done|]). by exists ok.
Qed.

Lemma peMgrHandshakeRsp_failed_witness :
  ∃ w, peMgrHandshakeRsp Samples.envP
         (mkHandshakeRsp PeMgrEnoOs PeInstDirOutbound Samples.snidA
            Samples.nodeA (Some Samples.taskOutA))
         (mkWorld (Samples.pmBoth 4 1) [])
         = Ok (PeMgrEnoNone, w)
       ∧ peers (mgr w) = delete Samples.taskOutA (peers (Samples.pmBoth 4 1))
       ∧ ∃ ok, out w = ok
               ∧ sent EvPeOutboundReq ok =
                   [(Some Samples.taskPeMgr, BodySnid Samples.snidA)].
Proof.
  destruct (peMgrHandshakeRsp_failed Samples.envP (Samples.pmBoth 4 1) []
              (mkHandshakeRsp PeMgrEnoOs PeInstDirOutbound Samples.snidA
                 Samples.nodeA (Some Samples.taskOutA))
              Samples.taskOutA 1%N (Samples.instOutA 1))
    as (w & Hrun & Hpe & _ & _ & ok & Ho & Hob);
    [reflexivity | reflexivity | reflexivity | reflexivity | reflexivity
    | by right | discriminate |].
  exists w. split; [exact Hrun|]. split; [exact Hpe|].
  exists ok. split; [exact Ho | exact Hob].
Defined.

(** A response for a sub network that already has its [maxPeers] workers:
    the instance is killed and the handler returns [PeMgrEnoResource]; no
    outbound request is sent, also not for an outbound instance. *)
Theorem peMgrHandshakeRsp_no_room (env : Peer.Env) (m : PeerManager)
  (o : list Peer.effect) (rsp : msgHandshakeRsp) (ptn : Task) (a : InstPtr)
  (inst : peerInstance) (maxIn maxOut maxPeers : Z) :
  hr_ptn rsp = Some ptn → peers m !! ptn = Some a → insts m !! a = Some inst →
  pi_snid inst = hr_snid rsp → pi_dir inst = hr_dir rsp →
  pi_dir inst = PeInstDirInbound ∨ pi_dir inst = PeInstDirOutbound →
  hr_result rsp = PeMgrEnoNone →
  limits (cfg m) (hr_snid rsp) = (maxIn, maxOut, maxPeers) →
  maxPeers ≤ count (wrkNum m) (hr_snid rsp) →
  ∃ w, peMgrHandshakeRsp env rsp (mkWorld m o) = Ok (PeMgrEnoResource, w)
       ∧ peers (mgr w) = delete ptn (peers m)
       ∧ (pi_state <$> insts (mgr w) !! a) = Some peInstStateKilled
       ∧ (∀ b, b ≠ a → insts (mgr w) !! b = insts m !! b)
       ∧ ∃ ok, out w = o ++ ok ∧ sent EvPeOutboundReq ok = [].
Proof.
  intros Hptn Hp Hi Hsn Hd Hdir Hres Hlim Hfull.
  cut (runs (peMgrHandshakeRsp env rsp) (mkWorld m o)
         (fun eno w =>
            eno = PeMgrEnoResource
            ∧ peers (mgr w) = delete ptn (peers m)
            ∧ (pi_state <$> insts (mgr w) !! a) = Some peInstStateKilled
            ∧ (∀ b, b ≠ a → insts (mgr w) !! b = insts m !! b)
            ∧ ∃ ok, out w = o ++ ok ∧ sent EvPeOutboundReq ok = [])).
  { intros (eno & w & Hrun & -> & Hrest). by exists w. }
  unfold peMgrHandshakeRsp. apply runs_bind, runs_getMgr. cbn [mgr].
  rewrite Hptn.
  change (Some ptn ≫= (λ t : Task, peers m !! t)) with (peers m !! ptn).
  rewrite Hp. apply runs_bind. eapply runs_deref; [exact Hi|].
  rewrite decide_False by tauto. cbv zeta.
  rewrite decide_False by (intros Hc; by apply Hc).
  rewrite Hlim. rewrite decide_True by exact Hfull.
  apply runs_assoc.
  eapply (runs_seq (fun eno w => eno = PeMgrEnoNone ∧ killed m o ptn a inst w)).
  { by apply status_then_kill. }
  intros eno w [-> [[? ? ? ? ? ? ? ? ? (ok & Ho & _ & _ & Hob)] Hst]].
  apply runs_ret. repeat (split; [done|]). by exists ok.
Qed.

Lemma peMgrHandshakeRsp_no_room_witness :
  ∃ w, peMgrHandshakeRsp Samples.envP
         (mkHandshakeRsp PeMgrEnoNone PeInstDirOutbound Samples.snidA
            Samples.nodeA (Some Samples.taskOutA))
         (mkWorld Samples.pmFull [])
         = Ok (PeMgrEnoResource, w)
       ∧ peers (mgr w) = delete Samples.taskOutA (peers Samples.pmFull).
Proof.
  destruct (peMgrHandshakeRsp_no_room Samples.envP Samples.pmFull []
              (mkHandshakeRsp PeMgrEnoNone PeInstDirOutbound Samples.snidA
                 Samples.nodeA (Some Samples.taskOutA))
              Samples.taskOutA 1%N (Samples.instOutA 1) 2 2 4)
    as (w & Hrun & Hpe & _);
    [reflexivity | reflexivity | reflexivity | reflexivity | reflexivity
    | by right | reflexivity | reflexivity | reflexivity |].
  exists w. split; [exact Hrun | exact Hpe].
Defined.

(** ** Peer manager: a closed connection *)

(** [peMgrConnCloseCfm] and [peMgrConnCloseInd] on the task of an instance,
    with its direction and with room in the indication queue: the world
    [peMgrKillInst] leaves, then the indication and the outbound request. *)
Lemma peMgrConnClose_kills (env : Peer.Env) (m : PeerManager)
  (o : list Peer.effect) (ind : MsgClose) (ptn : Task) (a : InstPtr)
  (inst : peerInstance) :
  mc_ptn ind = Some ptn → peers m !! ptn = Some a →
  insts m !! a = Some inst → pi_dir inst = mc_dir ind →
  pi_dir inst = PeInstDirInbound ∨ pi_dir inst = PeInstDirOutbound →
  ∃ w1, killed m o ptn a inst w1
        ∧ tracks_workers a
            (delete2 (workers m) (pi_snid inst)
               (node_ID (pi_node inst), pi_dir inst))
            (if decide (is_Some (lookup2 (workers m) (pi_snid inst)
                                   (node_ID (pi_node inst), pi_dir inst)))
             then decr (wrkNum m) (pi_snid inst) else wrkNum m)
            (if decide (pi_dir inst = PeInstDirOutbound)
             then decr (obpNum m) (pi_snid inst) else obpNum m)
            (indChan m) w1
        ∧ peMgrConnClose env ind (mkWorld m o) =
            if decide (Z.of_nat (length (indChan m)) < maxIndicationQueueSize)
            then Ok (PeMgrEnoNone,
                     mkWorld
                       (set_indChan (mgr w1)
                          (indChan m ++
                           [P2pIndPeerClosed (Peer.ptnMe m) (mc_snid ind)
                              (node_ID (mc_peNode ind))]))
                       (out w1 ++
                        [Peer.SchSendMessage (Peer.ptnMe m) (Peer.ptnMe m)
                           EvPeOutboundReq (BodySnid (mc_snid ind))]))
            else Panic ExplicitPanic.
Proof.
  intros Hptn Hp Hi Hdir Hio.
  destruct (runs_and _ _ _ _
              (peMgrKillInst_kills env m o ptn a inst Hp Hi Hio)
              (peMgrKillInst_tracks_workers env m o ptn a inst Hp Hi Hio))
    as (eno & w1 & Hrun & [-> Hk] & [_ Htw]).
  exists w1. split; [exact Hk|]. split; [exact Htw|].
  destruct Hk as [Htr _].
  destruct Htr as [_ Hme _ _ _ _ _ _ _ _].
  destruct Htw as [_ _ _ Hic _].
  assert (peMgrConnClose env ind (mkWorld m o) =
          (m1 ⇐ getMgr;
           peMgrIndEnque (P2pIndPeerClosed (Peer.ptnMe m1) (mc_snid ind)
                            (node_ID (mc_peNode ind)));;
           Peer.send (Peer.ptnMe m1) EvPeOutboundReq (BodySnid (mc_snid ind));;
           ret PeMgrEnoNone) w1) as ->.
  { unfold peMgrConnClose. unfold mbind at 1.
    rewrite Hptn, <- Hdir, Hrun. cbv beta iota.
    by rewrite decide_False by (intros Hc; by apply Hc). }
  unfold peMgrIndEnque. run_peer. rewrite Hic.
  destruct (decide (Z.of_nat (length (indChan m)) < maxIndicationQueueSize)).
  - rewrite decide_False by lia. destruct w1 as [m1 o1]. peer_fields.
    destruct m1. peer_fields. by subst.
  - by rewrite decide_True by lia.
Qed.

(** [peMgrConnCloseCfm] and [peMgrConnCloseInd] answer [PeMgrEnoScheduler]
    and change nothing when the instance cannot be killed: its task is not
    known, or it has another direction than the message tells.  Else the
    instance is killed, the indication that the peer is closed is queued for
    the user, and the last message drives the manager itself to start
    outbounds for the sub network.  With a full indication queue the handler
    panics. *)
Theorem peMgrConnClose_closes (env : Peer.Env) (m : PeerManager)
  (o : list Peer.effect) (ind : MsgClose) :
  (mc_ptn ind ≫= (fun t => peers m !! t) = None →
   peMgrConnClose env ind (mkWorld m o) = Ok (PeMgrEnoScheduler, mkWorld m o))
  ∧ (∀ (a : InstPtr) (inst : peerInstance),
       mc_ptn ind ≫= (fun t => peers m !! t) = Some a →
       insts m !! a = Some inst → pi_dir inst ≠ mc_dir ind →
       peMgrConnClose env ind (mkWorld m o)
         = Ok (PeMgrEnoScheduler, mkWorld m o))
  ∧ (∀ (ptn : Task) (a : InstPtr) (inst : peerInstance),
       mc_ptn ind = Some ptn → peers m !! ptn = Some a →
       insts m !! a = Some inst → pi_dir inst = mc_dir ind →
       pi_dir inst = PeInstDirInbound ∨ pi_dir inst = PeInstDirOutbound →
       if decide (Z.of_nat (length (indChan m)) < maxIndicationQueueSize)
       then ∃ w o',
           peMgrConnClose env ind (mkWorld m o) = Ok (PeMgrEnoNone, w)
           ∧ peers (mgr w) = delete ptn (peers m)
           ∧ (pi_state <$> insts (mgr w) !! a) = Some peInstStateKilled
           ∧ indChan (mgr w) =
               indChan m ++ [P2pIndPeerClosed (Peer.ptnMe m) (mc_snid ind)
                               (node_ID (mc_peNode ind))]
           ∧ out w =
               o ++ o' ++ [Peer.SchSendMessage (Peer.ptnMe m) (Peer.ptnMe m)
                             EvPeOutboundReq (BodySnid (mc_snid ind))]
           ∧ sent EvPeOutboundReq o' = []
       else peMgrConnClose env ind (mkWorld m o) = Panic ExplicitPanic).
Proof.
  split; [|split].
  - intros Hno. unfold peMgrConnClose. unfold mbind at 1.
    destruct (peMgrKillInst_refuses env m o (mc_ptn ind) (mc_dir ind))
      as [Hr _]. rewrite Hr by done. cbv beta iota. by rewrite decide_True.
  - intros a inst Hp Hi Hdir. unfold peMgrConnClose. unfold mbind at 1.
    destruct (peMgrKillInst_refuses env m o (mc_ptn ind) (mc_dir ind))
      as [_ Hr]. rewrite (Hr a inst) by done. cbv beta iota.
    by rewrite decide_True.
  - intros ptn a inst Hptn Hp Hi Hdir Hio.
    destruct (peMgrConnClose_kills env m o ind ptn a inst Hptn Hp Hi Hdir Hio)
      as (w1 & [Htr Hst] & _ & Hrun).
    destruct Htr as [_ _ _ Hpe _ _ _ _ _ (ok & Hout & _ & _ & Hob)].
    case_decide; [|done].
    eexists _, ok. split; [exact Hrun|]. cbn [mgr out].
    destruct w1 as [m1 o1]. peer_fields. destruct m1. peer_fields.
    subst. rewrite <- app_assoc. by repeat split.
Qed.

Lemma peMgrConnClose_closes_witness :
  ∃ w, peMgrConnClose Samples.envP
         (mkMsgClose PeMgrEnoNone PeInstDirOutbound Samples.snidA Samples.nodeA
            (Some Samples.taskOutA))
         (mkWorld (Samples.pmBoth 4 5) [])
         = Ok (PeMgrEnoNone, w)
       ∧ indChan (mgr w) =
           [P2pIndPeerClosed (Some Samples.taskPeMgr) Samples.snidA Samples.idA].
Proof.
  destruct (peMgrConnClose_closes Samples.envP (Samples.pmBoth 4 5) []
              (mkMsgClose PeMgrEnoNone PeInstDirOutbound Samples.snidA
                 Samples.nodeA (Some Samples.taskOutA))) as (_ & _ & H).
  specialize (H Samples.taskOutA 1%N (Samples.instOutA 5) eq_refl eq_refl
                eq_refl eq_refl (or_intror eq_refl)).
  rewrite decide_True in H.
  - destruct H as (w & o' & Hrun & _ & _ & Hic & _).
    exists w. split; [exact Hrun | exact Hic].
  - change (indChan (Samples.pmBoth 4 5)) with (@nil indication).
    unfold maxIndicationQueueSize. simpl. lia.
Defined.

(** ** Peer manager: an admitted inbound peer *)

(** The world [peMgrHandshakeRsp] leaves when it admits an inbound
    instance of a sub network that is not the static one. *)
Lemma peMgrHandshakeRsp_inbound_world (env : Peer.Env) (m : PeerManager)
  (o : list Peer.effect) (rsp : msgHandshakeRsp) (ptn : Task) (a : InstPtr)
  (inst : peerInstance) (maxIn maxOut maxPe : Z)
  (n wk : gmap PeerIdEx InstPtr) :
  hr_ptn rsp = Some ptn → peers m !! ptn = Some a → insts m !! a = Some inst →
  pi_snid inst = hr_snid rsp → pi_dir inst = hr_dir rsp →
  pi_dir inst = PeInstDirInbound →
  hr_result rsp = PeMgrEnoNone →
  limits (cfg m) (hr_snid rsp) = (maxIn, maxOut, maxPe) →
  count (wrkNum m) (hr_snid rsp) < maxPe →
  isStaticSubNetId (cfg m) (hr_snid rsp) = false →
  count (ibpNum m) (hr_snid rsp) < maxIn →
  nodes m !! hr_snid rsp = Some n →
  workers m !! hr_snid rsp = Some wk →
  wk !! ((node_ID (hr_peNode rsp), PeInstInPos) : PeerIdEx) = None →
  n !! ((node_ID (hr_peNode rsp), PeInstOutPos) : PeerIdEx) = None →
  Z.of_nat (length (indChan m)) < maxIndicationQueueSize →
  peMgrHandshakeRsp env rsp (mkWorld m o) =
    Ok (PeMgrEnoNone,
        mkWorld
          (set_indChan
             (set_wrkNum
                (set_insts
                   (set_ibpNum
                      (set_workers
                         (set_nodes m
                            (<[hr_snid rsp :=
                                 <[(node_ID (hr_peNode rsp), PeInstInPos) := a]> n]>
                               (nodes m)))
                         (<[hr_snid rsp :=
                              <[(node_ID (hr_peNode rsp), PeInstInPos) := a]> wk]>
                            (workers m)))
                      (incr (ibpNum m) (hr_snid rsp)))
                   (<[a := set_state inst peInstStateActivated]> (insts m)))
                (incr (wrkNum m) (hr_snid rsp)))
             (indChan m ++
              [P2pIndPeerActivated (pi_ptnMe inst) (pi_snid inst)
                 PeInstDirInbound (node_ID (pi_node inst))]))
          (o ++ [Peer.SchSendMessage (Peer.ptnMe m) (Some ptn)
                   EvPeEstablishedInd BodyNil]
             ++ (if decide (networkType (cfg m) ≠ P2pNetworkTypeStatic)
                 then [TabBucketAddNode (hr_snid rsp) (hr_peNode rsp);
                       TabUpdateNode (hr_snid rsp) (hr_peNode rsp)]
                 else []))).
Proof.
  intros Hptn Hp Hi Hsn Hdir Hin Hres Hlim Hroom Hst Hib Hn Hw Hwk Hnd Hlen.
  unfold peMgrHandshakeRsp. unfold mbind at 1. unfold getMgr at 1. cbn [mgr].
  rewrite Hptn. change (Some ptn ≫= (λ t : Task, peers m !! t)) with (peers m !! ptn).
  rewrite Hp. unfold mbind at 1. unfold Peer.deref at 1.
  unfold mbind at 1. unfold getMgr at 1. cbn [mgr]. rewrite Hi.
  unfold ret at 1.
  rewrite decide_False by (intros [?|?]; congruence).
  rewrite decide_False by (intros Hc; by apply Hc).
  rewrite Hlim. rewrite decide_False by lia.
  rewrite decide_True by done.
  unfold mbind at 1.
  rewrite (handshake_inbound_admits env m o a rsp maxIn n wk) by done.
  unfold handshake_admitted, peMgrIndEnque. run_peer. peer_fields.
  rewrite Hi. cbv beta iota. peer_fields. rewrite Hptn, Hin.
  destruct (decide (networkType (cfg m) ≠ P2pNetworkTypeStatic)) as [Hnt|Hnt].
  - rewrite decide_True by done. cbv beta iota. peer_fields.
    rewrite decide_False by lia. by rewrite <- !app_assoc.
  - rewrite decide_False by tauto. cbv beta iota. peer_fields.
    rewrite decide_False by lia. by rewrite app_nil_r.
Qed.

(** A handshake that succeeded for an inbound instance of a sub network
    that is not the static one, with room for one more worker and one more
    inbound peer, and with no instance of the peer among the workers and no
    outbound one among the nodes: the instance gets into state activated and
    is entered as a worker and as a node, the worker counter and the inbound
    counter of the sub network grow by one while the total of the inbound
    connections stays, the instance is told that the peer is established,
    and the user is told that the peer is activated.  The table manager is
    told of the node unless the network is static. *)
Theorem peMgrHandshakeRsp_admits_inbound (env : Peer.Env) (m : PeerManager)
  (o : list Peer.effect) (rsp : msgHandshakeRsp) (ptn : Task) (a : InstPtr)
  (inst : peerInstance) (maxIn maxOut maxPe : Z)
  (n wk : gmap PeerIdEx InstPtr) :
  hr_ptn rsp = Some ptn → peers m !! ptn = Some a → insts m !! a = Some inst →
  pi_snid inst = hr_snid rsp → pi_dir inst = hr_dir rsp →
  pi_dir inst = PeInstDirInbound →
  hr_result rsp = PeMgrEnoNone →
  limits (cfg m) (hr_snid rsp) = (maxIn, maxOut, maxPe) →
  count (wrkNum m) (hr_snid rsp) < maxPe →
  isStaticSubNetId (cfg m) (hr_snid rsp) = false →
  count (ibpNum m) (hr_snid rsp) < maxIn →
  nodes m !! hr_snid rsp = Some n →
  workers m !! hr_snid rsp = Some wk →
  wk !! ((node_ID (hr_peNode rsp), PeInstInPos) : PeerIdEx) = None →
  n !! ((node_ID (hr_peNode rsp), PeInstOutPos) : PeerIdEx) = None →
  Z.of_nat (length (indChan m)) < maxIndicationQueueSize →
  ∃ w, peMgrHandshakeRsp env rsp (mkWorld m o) = Ok (PeMgrEnoNone, w)
       ∧ insts (mgr w) !! a = Some (set_state inst peInstStateActivated)
       ∧ lookup2 (workers (mgr w)) (hr_snid rsp)
           (node_ID (hr_peNode rsp), PeInstInPos) = Some a
       ∧ lookup2 (nodes (mgr w)) (hr_snid rsp)
           (node_ID (hr_peNode rsp), PeInstInPos) = Some a
       ∧ wrkNum (mgr w) = incr (wrkNum m) (hr_snid rsp)
       ∧ ibpNum (mgr w) = incr (ibpNum m) (hr_snid rsp)
       ∧ ibpTotalNum (mgr w) = ibpTotalNum m
       ∧ peers (mgr w) = peers m
       ∧ indChan (mgr w) =
           indChan m ++ [P2pIndPeerActivated (pi_ptnMe inst) (pi_snid inst)
                           PeInstDirInbound (node_ID (pi_node inst))]
       ∧ out w =
           o ++ [Peer.SchSendMessage (Peer.ptnMe m) (Some ptn)
                   EvPeEstablishedInd BodyNil]
             ++ (if decide (networkType (cfg m) ≠ P2pNetworkTypeStatic)
                 then [TabBucketAddNode (hr_snid rsp) (hr_peNode rsp);
                       TabUpdateNode (hr_snid rsp) (hr_peNode rsp)]
                 else []).
Proof.
  intros Hptn Hp Hi Hsn Hdir Hin Hres Hlim Hroom Hst Hib Hn Hw Hwk Hnd Hlen.
  eexists. split.
  { by apply (peMgrHandshakeRsp_inbound_world env m o rsp ptn a inst
                maxIn maxOut maxPe n wk). }
  peer_fields. unfold lookup2. rewrite !lookup_insert_eq.
  cbn [default from_option id]. rewrite !lookup_insert_eq.
  by repeat split.
Qed.

Lemma peMgrHandshakeRsp_admits_inbound_witness :
  ∃ w, peMgrHandshakeRsp Samples.envP
         (mkHandshakeRsp PeMgrEnoNone PeInstDirInbound Samples.snidA
            Samples.nodeB (Some Samples.taskInA))
         (mkWorld (Samples.pmBoth 4 5) [])
         = Ok (PeMgrEnoNone, w)
       ∧ insts (mgr w) !! 0%N
         = Some (set_state (Samples.instInA 4) peInstStateActivated)
       ∧ ibpNum (mgr w) = incr (ibpNum (Samples.pmBoth 4 5)) Samples.snidA.
Proof.
  destruct (peMgrHandshakeRsp_admits_inbound Samples.envP (Samples.pmBoth 4 5)
              []
              (mkHandshakeRsp PeMgrEnoNone PeInstDirInbound Samples.snidA
                 Samples.nodeB (Some Samples.taskInA))
              Samples.taskInA 0%N (Samples.instInA 4) 2 2 4
              {[ (Samples.idA, PeInstOutPos) := 1%N ]} ∅)
    as (w & Hrun & Hi & _ & _ & _ & Hib & _); [reflexivity..|].
  exists w. split; [exact Hrun|]. split; [exact Hi | exact Hib].
Defined.

(** ** Peer manager: an inbound peer admitted and closed again *)

Lemma int_sub_add_1 (x : Z) :
  - 2 ^ 63 ≤ x < 2 ^ 63 → int_sub (int_add x 1) 1 = x.
Proof.
  intros Hx. unfold int_sub, int_add, wrap64.
  replace ((x + 1 + 2 ^ 63) mod 2 ^ 64 - 2 ^ 63 - 1 + 2 ^ 63)
    with ((x + 1 + 2 ^ 63) mod 2 ^ 64 - 1) by lia.
  rewrite Zminus_mod_idemp_l.
  replace (x + 1 + 2 ^ 63 - 1) with (x + 2 ^ 63) by lia.
  rewrite Z.mod_small by lia. lia.
Qed.

Lemma count_decr_incr (c : gmap SubNetworkID Z) (snid : SubNetworkID) :
  - 2 ^ 63 ≤ count c snid < 2 ^ 63 →
  count (decr (incr c snid) snid) snid = count c snid.
Proof.
  intros Hc. unfold decr, incr. unfold count at 1.
  rewrite lookup_insert_eq. cbn [default from_option id].
  unfold count at 1. rewrite lookup_insert_eq. cbn [default from_option id].
  by apply int_sub_add_1.
Qed.

(** An inbound peer that [peMgrHandshakeRsp] admits and whose connection is
    then closed, handled by [peMgrConnCloseCfm] or [peMgrConnCloseInd]:
    the instance is killed, its task and its entries among the workers and
    the nodes are gone, and the worker counter and the inbound counter of
    the sub network are back at what they were.  The total of the inbound
    connections, counted up when the connection was accepted, goes down by
    one.  The user is told of the activation and then of the close. *)
Theorem inbound_admit_then_close (env : Peer.Env) (m : PeerManager)
  (o : list Peer.effect) (rsp : msgHandshakeRsp) (ind : MsgClose)
  (ptn : Task) (a : InstPtr) (inst : peerInstance) (maxIn maxOut maxPe : Z)
  (n wk : gmap PeerIdEx InstPtr) :
  hr_ptn rsp = Some ptn → peers m !! ptn = Some a → insts m !! a = Some inst →
  pi_snid inst = hr_snid rsp → pi_dir inst = hr_dir rsp →
  pi_dir inst = PeInstDirInbound →
  node_ID (pi_node inst) = node_ID (hr_peNode rsp) →
  hr_result rsp = PeMgrEnoNone →
  limits (cfg m) (hr_snid rsp) = (maxIn, maxOut, maxPe) →
  - 2 ^ 63 ≤ count (wrkNum m) (hr_snid rsp) < maxPe →
  isStaticSubNetId (cfg m) (hr_snid rsp) = false →
  - 2 ^ 63 ≤ count (ibpNum m) (hr_snid rsp) < maxIn →
  maxPe ≤ 2 ^ 63 → maxIn ≤ 2 ^ 63 →
  nodes m !! hr_snid rsp = Some n →
  workers m !! hr_snid rsp = Some wk →
  wk !! ((node_ID (hr_peNode rsp), PeInstInPos) : PeerIdEx) = None →
  n !! ((node_ID (hr_peNode rsp), PeInstOutPos) : PeerIdEx) = None →
  Z.of_nat (length (indChan m)) + 1 < maxIndicationQueueSize →
  mc_ptn ind = Some ptn → mc_dir ind = PeInstDirInbound →
  ∃ w1 w2,
    peMgrHandshakeRsp env rsp (mkWorld m o) = Ok (PeMgrEnoNone, w1)
    ∧ peMgrConnClose env ind w1 = Ok (PeMgrEnoNone, w2)
    ∧ peers (mgr w2) = delete ptn (peers m)
    ∧ (pi_state <$> insts (mgr w2) !! a) = Some peInstStateKilled
    ∧ lookup2 (workers (mgr w2)) (hr_snid rsp)
        (node_ID (hr_peNode rsp), PeInstInPos) = None
    ∧ lookup2 (nodes (mgr w2)) (hr_snid rsp)
        (node_ID (hr_peNode rsp), PeInstInPos) = None
    ∧ count (wrkNum (mgr w2)) (hr_snid rsp) = count (wrkNum m) (hr_snid rsp)
    ∧ count (ibpNum (mgr w2)) (hr_snid rsp) = count (ibpNum m) (hr_snid rsp)
    ∧ ibpTotalNum (mgr w2) = int_sub (ibpTotalNum m) 1
    ∧ indChan (mgr w2) =
        indChan m
        ++ [P2pIndPeerActivated (pi_ptnMe inst) (pi_snid inst)
              PeInstDirInbound (node_ID (pi_node inst));
            P2pIndPeerClosed (Peer.ptnMe m) (mc_snid ind)
              (node_ID (mc_peNode ind))].
Proof.
  intros Hptn Hp Hi Hsn Hdir Hin Hnode Hres Hlim Hroom Hst Hib HmaxPe HmaxIn
    Hn Hw Hwk Hnd Hlen Hcp Hcd.
  assert (H1 := peMgrHandshakeRsp_inbound_world env m o rsp ptn a inst
                  maxIn maxOut maxPe n wk Hptn Hp Hi Hsn Hdir Hin Hres Hlim
                  (proj2 Hroom) Hst (proj2 Hib) Hn Hw Hwk Hnd
                  ltac:(lia)).
  match type of H1 with
  | _ = Ok (_, mkWorld ?m1 ?o1) =>
      destruct (peMgrConnClose_kills env m1 o1 ind ptn a
                  (set_state inst peInstStateActivated))
        as (w & [Htr Hst'] & Htw & Hrun);
        [done | done | by apply lookup_insert_eq | by rewrite Hcd | by left |]
  end.
  eexists _, _. split; [exact H1|].
  peer_fields.
  rewrite (decide_True (P := Z.of_nat (length (indChan m ++ [_])) < _))
    in Hrun by (rewrite length_app; simpl; lia).
  split; [exact Hrun|].
  destruct Htr as [_ _ _ Hpe Hnds Htot Hibp _ _ _].
  destruct Htw as [Hwks Hwn _ _ _].
  unfold killed_total, killed_ibpNum in *.
  rewrite decide_True in Htot by done.
  rewrite decide_True in Hibp by (split; [done|by left]).
  peer_fields.
  change (pi_snid (set_state inst peInstStateActivated)) with (pi_snid inst) in *.
  change (pi_dir (set_state inst peInstStateActivated)) with (pi_dir inst) in *.
  change (pi_node (set_state inst peInstStateActivated)) with (pi_node inst) in *.
  rewrite Hsn, Hnode, Hin in *.
  change PeInstDirInbound with PeInstInPos in Hwks, Hwn, Hnds.
  assert (lookup2
            (<[hr_snid rsp := <[(node_ID (hr_peNode rsp), PeInstInPos) := a]> wk]>
               (workers m)) (hr_snid rsp)
            (node_ID (hr_peNode rsp), PeInstInPos) = Some a) as Hthere.
  { unfold lookup2. rewrite lookup_insert_eq. cbn [default from_option id].
    by rewrite lookup_insert_eq. }
  rewrite decide_True in Hwn by (by rewrite Hthere).
  rewrite Hpe, Hst', Hwks, Hnds, Hwn, Hibp, Htot.
  split; [done|]. split; [done|].
  split.
  { unfold lookup2, delete2. rewrite lookup_insert_eq, lookup_insert_eq.
    cbn [default from_option id]. apply lookup_delete_eq. }
  split.
  { unfold lookup2, delete2. rewrite lookup_insert_eq, lookup_insert_eq.
    cbn [default from_option id]. apply lookup_delete_eq. }
  split; [apply count_decr_incr; lia|].
  split; [apply count_decr_incr; lia|].
  split; [done|]. by rewrite <- app_assoc.
Qed.

Lemma inbound_admit_then_close_witness :
  ∃ w1 w2,
    peMgrHandshakeRsp Samples.envP
      (mkHandshakeRsp PeMgrEnoNone PeInstDirInbound Samples.snidA
         Samples.nodeA (Some Samples.taskInA))
      (mkWorld (set_nodes (Samples.pmBoth 4 5) (nodes Samples.pmOn)) [])
      = Ok (PeMgrEnoNone, w1)
    ∧ peMgrConnClose Samples.envP
        (mkMsgClose PeMgrEnoNone PeInstDirInbound Samples.snidA Samples.nodeA
           (Some Samples.taskInA)) w1
      = Ok (PeMgrEnoNone, w2)
    ∧ peers (mgr w2) = delete Samples.taskInA (peers (Samples.pmBoth 4 5))
    ∧ count (ibpNum (mgr w2)) Samples.snidA = 0.
Proof.
  destruct (inbound_admit_then_close Samples.envP
              (set_nodes (Samples.pmBoth 4 5) (nodes Samples.pmOn)) []
              (mkHandshakeRsp PeMgrEnoNone PeInstDirInbound Samples.snidA
                 Samples.nodeA (Some Samples.taskInA))
              (mkMsgClose PeMgrEnoNone PeInstDirInbound Samples.snidA
                 Samples.nodeA (Some Samples.taskInA))
              Samples.taskInA 0%N (Samples.instInA 4) 2 2 4 ∅ ∅)
    as (w1 & w2 & H1 & H2 & Hpe & _ & _ & _ & _ & Hib & _);
    [reflexivity | reflexivity | reflexivity | reflexivity | reflexivity
    | reflexivity | reflexivity | reflexivity | reflexivity
    | split; [discriminate | reflexivity] | reflexivity
    | split; [discriminate | reflexivity] | discriminate | discriminate
    | reflexivity | reflexivity | reflexivity | reflexivity | reflexivity
    | reflexivity | reflexivity |].
  exists w1, w2. split; [exact H1|]. split; [exact H2|].
  split; [exact Hpe | exact Hib].
Defined.

(** ** Peer manager: close requests and pingpong responses *)

(** [peMgrCloseReq] answers [PeMgrEnoNotfound] for a peer that is no worker
    of the sub network and [PeMgrEnoDuplicated] for an instance that is
    being killed, and changes nothing; else the request goes on to the
    instance, with the node and the task of the instance. *)
Lemma peMgrCloseReq_cases (snid : SubNetworkID) (n : Node) (dir : Z)
  (why : PeMgrErrno) (m : PeerManager) (o : list Peer.effect) :
  (getWorkerInst m snid (node_ID n, dir) = None →
   peMgrCloseReq snid n dir why (mkWorld m o)
     = Ok (PeMgrEnoNotfound, mkWorld m o))
  ∧ (∀ (a : InstPtr) (inst : peerInstance),
       getWorkerInst m snid (node_ID n, dir) = Some a →
       insts m !! a = Some inst →
       ∃ m',
         peMgrCloseReq snid n dir why (mkWorld m o) =
           (if decide (pi_state inst = peInstStateKilling)
            then Ok (PeMgrEnoDuplicated, mkWorld m o)
            else Ok (PeMgrEnoNone,
                     mkWorld m'
                       (o ++ [Peer.SchSendMessage (Peer.ptnMe m)
                                (pi_ptnMe inst) EvPeCloseReq
                                (BodyCloseReq (pi_ptnMe inst) snid
                                   (pi_node inst) dir why)])))
         ∧ insts m' = insts m ∧ workers m' = workers m
         ∧ peers m' = peers m ∧ Peer.ptnMe m' = Peer.ptnMe m).
Proof.
  split.
  - intros Hno. unfold peMgrCloseReq. run_peer. by rewrite Hno.
  - intros a inst Ha Hi. unfold peMgrCloseReq. run_peer. rewrite Ha.
    run_peer. rewrite Hi.
    destruct (decide (pi_state inst = peInstStateKilling)).
    + by exists m.
    + case_decide; [case_decide|]; by eexists.
Qed.

(** [peMgrPingpongRsp] does nothing on a good result; on a bad one it is
    [peMgrKillInst] on the task of the response. *)
Lemma peMgrPingpongRsp_kills (env : Peer.Env) (rsp : msgPingpongRsp)
  (w : world PeerManager Peer.effect) :
  peMgrPingpongRsp env rsp w =
    if decide (pr_result rsp ≠ PeMgrEnoNone)
    then peMgrKillInst env (pr_ptn rsp) (pr_dir rsp) w
    else Ok (PeMgrEnoNone, w).
Proof.
  unfold peMgrPingpongRsp. case_decide; [|done].
  unfold mbind. destruct (peMgrKillInst env (pr_ptn rsp) (pr_dir rsp) w)
    as [[eno w']|]; [|done].
  case_decide as He; [done|]. unfold ret.
  destruct (decide (eno = PeMgrEnoNone)) as [->|]; [done|]. by destruct He.
Qed.
